(** * RAG chatbot over student CVs: decision engine, filters and orchestration

    A shallow embedding of [decision_engine.py], of the filter code of
    [vector_store.py] and of the query path of [rag_agent.py], with the
    properties of the specification stated over it.  It is followed by the
    manager of the vector store (construction, local index, upserts, saving
    and loading), the validation of [config.py], the statistics of
    [document_processor.py] and the suggestions of [rag_agent.py] and
    [app.py], with further properties of that code.

    Python [str] values are sequences of Unicode code points.  What the
    interpreter contributes (case mapping, the white-space and word classes,
    case-insensitive comparison) is collected in a record of tables,
    [unicode]; the development is parametric in it and [latin1] instantiates
    it for text within U+0000..U+00FF, which covers every character that
    occurs in the patterns of the decision engine. *)

From Stdlib Require Import NArith Ascii String DecimalString Sorted.
From stdpp Require Import gmap strings list.

Open Scope N_scope.

(** ** Strings of code points *)

Abbreviation cp := N.
Abbreviation pystr := (list N).

Definition chr (a : ascii) : cp := N_of_ascii a.

(** The source files are UTF-8; a literal of this file is decoded the same
    way, so that [py "días"] is the four code points of the Python literal. *)
Fixpoint utf8_decode (bs : list N) : pystr :=
  match bs with
  | [] => []
  | b :: r =>
      if b <? 128 then b :: utf8_decode r
      else if b <? 224 then
        match r with
        | b1 :: r1 => ((b mod 32) * 64 + b1 mod 64) :: utf8_decode r1
        | _ => []
        end
      else if b <? 240 then
        match r with
        | b1 :: b2 :: r2 =>
            ((b mod 16) * 4096 + (b1 mod 64) * 64 + b2 mod 64) :: utf8_decode r2
        | _ => []
        end
      else
        match r with
        | b1 :: b2 :: b3 :: r3 =>
            ((b mod 8) * 262144 + (b1 mod 64) * 4096 + (b2 mod 64) * 64 + b3 mod 64)
              :: utf8_decode r3
        | _ => []
        end
  end.

Definition py (s : string) : pystr :=
  utf8_decode (map N_of_ascii (list_ascii_of_string s)).

(** ** The interpreter's character tables *)

Record unicode := {
  u_lower : pystr → pystr;      (* str.lower() *)
  u_isspace : cp → bool;        (* str.strip() and the class \s *)
  u_isword : cp → bool;         (* the class \w *)
  u_ieq : cp → cp → bool        (* re.IGNORECASE: pattern character, subject character *)
}.

Definition between (lo hi c : cp) : bool := (lo <=? c) && (c <=? hi).

Definition uni_isspace (c : cp) : bool :=
  between 9 13 c || between 28 32 c || (c =? 133) || (c =? 160)
  || (c =? 5760) || between 8192 8202 c || (c =? 8232) || (c =? 8233)
  || (c =? 8239) || (c =? 8287) || (c =? 12288).

Definition latin1_isword (c : cp) : bool :=
  between 48 57 c || between 65 90 c || (c =? 95) || between 97 122 c
  || (c =? 170) || (c =? 178) || (c =? 179) || (c =? 181) || (c =? 185)
  || (c =? 186) || between 188 190 c || between 192 214 c
  || between 216 246 c || between 248 255 c.

Definition latin1_lower_cp (c : cp) : cp :=
  if between 65 90 c || (between 192 222 c && negb (c =? 215)) then c + 32 else c.

Definition latin1_ieq (p c : cp) : bool := latin1_lower_cp p =? latin1_lower_cp c.

Definition latin1 : unicode :=
  {| u_lower := map latin1_lower_cp;
     u_isspace := uni_isspace;
     u_isword := latin1_isword;
     u_ieq := latin1_ieq |}.

(** ** Exceptions *)

Inductive exn :=
| IndexError
| AttributeError
| KeyError (k : pystr)
| ValueError
| ReError (pat : string)
| Failure (msg : pystr).

Inductive outcome (A : Type) :=
| Ret (a : A)
| Raise (e : exn).
Arguments Ret {A} a.
Arguments Raise {A} e.

Global Instance outcome_ret : MRet outcome := @Ret.
Global Instance outcome_bind : MBind outcome :=
  λ A B f m, match m with Ret a => f a | Raise e => Raise e end.

(** ** Regular expressions: the fragment of [re] the repository uses *)

Inductive atom :=
| ALit (c : cp)
| ASet (neg : bool) (cs : list cp)
| ASpace
| AWord.

Inductive regex :=
| RAtom (a : atom)
| RBol
| REps
| RSeq (r1 r2 : regex)
| RAlt (r1 r2 : regex)
| ROpt (r : regex)
| RPlus (a : atom)
| RStar (a : atom)
| RGroup (r : regex).

Module Parse.

Record frame := { f_cap : bool; f_alts : list regex; f_seq : list regex }.

Inductive pmode :=
| PNorm
| PEsc
| PSet (neg start : bool) (acc : list cp)
| PSetEsc (neg : bool) (acc : list cp)
| POpen
| POpenQ.

Record pstate := {
  p_stack : list frame;
  p_cur : frame;
  p_mode : pmode;
  p_groups : nat
}.

Fixpoint mk_seq (l : list regex) : regex :=
  match l with
  | [] => REps
  | [r] => r
  | r :: l' => RSeq r (mk_seq l')
  end.

Fixpoint mk_alt (l : list regex) : regex :=
  match l with
  | [] => REps
  | [r] => r
  | r :: l' => RAlt r (mk_alt l')
  end.

Definition close_frame (f : frame) : regex :=
  let body := mk_alt (reverse (mk_seq (reverse (f_seq f)) :: f_alts f)) in
  if f_cap f then RGroup body else body.

Definition with_mode (m : pmode) (st : pstate) : pstate :=
  {| p_stack := p_stack st; p_cur := p_cur st; p_mode := m; p_groups := p_groups st |}.

Definition with_seq (l : list regex) (st : pstate) : pstate :=
  {| p_stack := p_stack st;
     p_cur := {| f_cap := f_cap (p_cur st); f_alts := f_alts (p_cur st); f_seq := l |};
     p_mode := PNorm; p_groups := p_groups st |}.

Definition push_item (r : regex) (st : pstate) : pstate :=
  with_seq (r :: f_seq (p_cur st)) st.

Definition open_frame (cap : bool) (st : pstate) : option pstate :=
  if cap && bool_decide (1 ≤ p_groups st)%nat then None
  else Some {| p_stack := p_cur st :: p_stack st;
               p_cur := {| f_cap := cap; f_alts := []; f_seq := [] |};
               p_mode := PNorm;
               p_groups := if cap then S (p_groups st) else p_groups st |}.

(** A quantifier applies to the last item of the current sequence; [+] and
    [*] are supported on single-character items only, and a quantifier on a
    quantified item (the lazy forms) is rejected. *)
Definition quantify (q : cp) (st : pstate) : option pstate :=
  match f_seq (p_cur st) with
  | [] => None
  | r :: l =>
      if q =? chr "?" then
        match r with
        | ROpt _ | RPlus _ | RStar _ | RBol => None
        | _ => Some (with_seq (ROpt r :: l) st)
        end
      else
        match r with
        | RAtom a =>
            Some (with_seq ((if q =? chr "+" then RPlus a else RStar a) :: l) st)
        | _ => None
        end
  end.

Definition norm_step (c : cp) (st : pstate) : option pstate :=
  if c =? chr "\" then Some (with_mode PEsc st)
  else if c =? chr "[" then Some (with_mode (PSet false true []) st)
  else if c =? chr "(" then Some (with_mode POpen st)
  else if c =? chr ")" then
    match p_stack st with
    | [] => None
    | parent :: rest =>
        Some {| p_stack := rest;
                p_cur := {| f_cap := f_cap parent; f_alts := f_alts parent;
                            f_seq := close_frame (p_cur st) :: f_seq parent |};
                p_mode := PNorm; p_groups := p_groups st |}
    end
  else if c =? chr "|" then
    Some {| p_stack := p_stack st;
            p_cur := {| f_cap := f_cap (p_cur st);
                        f_alts := mk_seq (reverse (f_seq (p_cur st))) :: f_alts (p_cur st);
                        f_seq := [] |};
            p_mode := PNorm; p_groups := p_groups st |}
  else if (c =? chr "?") || (c =? chr "+") || (c =? chr "*") then quantify c st
  else if c =? chr "^" then Some (push_item RBol st)
  else if (c =? chr ".") || (c =? chr "$") || (c =? chr "{") || (c =? chr "}")
          || (c =? chr "]") then None
  else Some (push_item (RAtom (ALit c)) st).

Definition step (c : cp) (st : pstate) : option pstate :=
  match p_mode st with
  | PNorm => norm_step c st
  | PEsc =>
      if c =? chr "s" then Some (push_item (RAtom ASpace) st)
      else if c =? chr "w" then Some (push_item (RAtom AWord) st)
      else None
  | PSet neg start acc =>
      if (c =? chr "^") && start then Some (with_mode (PSet true false acc) st)
      else if c =? chr "]" then
        match acc with
        | [] => None
        | _ => Some (push_item (RAtom (ASet neg (reverse acc))) st)
        end
      else if c =? chr "\" then Some (with_mode (PSetEsc neg acc) st)
      else if (c =? chr "-") || (c =? chr "[") || (c =? chr "^") then None
      else Some (with_mode (PSet neg false (c :: acc)) st)
  | PSetEsc neg acc =>
      if c =? chr "n" then Some (with_mode (PSet neg false (10 :: acc)) st) else None
  | POpen =>
      if c =? chr "?" then Some (with_mode POpenQ st)
      else st' ← open_frame true st; norm_step c st'
  | POpenQ =>
      if c =? chr ":" then open_frame false st else None
  end.

Fixpoint run (cs : list cp) (st : pstate) : option pstate :=
  match cs with
  | [] => Some st
  | c :: cs' => st' ← step c st; run cs' st'
  end.

Definition init : pstate :=
  {| p_stack := []; p_cur := {| f_cap := false; f_alts := []; f_seq := [] |};
     p_mode := PNorm; p_groups := 0 |}.

End Parse.

(** A compiled pattern: the expression and its number of capturing groups. *)
Record pattern := { pat_re : regex; pat_groups : nat }.

Definition re_compile (src : string) : option pattern :=
  st ← Parse.run (py src) Parse.init;
  match Parse.p_mode st, Parse.p_stack st with
  | Parse.PNorm, [] =>
      Some {| pat_re := Parse.close_frame (Parse.p_cur st); pat_groups := Parse.p_groups st |}
  | _, _ => None
  end.

(** ** Python string operations *)

Fixpoint is_prefix (n h : pystr) : bool :=
  match n, h with
  | [], _ => true
  | a :: n', b :: h' => (a =? b) && is_prefix n' h'
  | _ :: _, [] => false
  end.

(** [n in h] on strings. *)
Fixpoint pyin (n h : pystr) : bool :=
  is_prefix n h || match h with [] => false | _ :: h' => pyin n h' end.

(** [sep.join(l)]. *)
Fixpoint join (sep : pystr) (l : list pystr) : pystr :=
  match l with
  | [] => []
  | [x] => x
  | x :: r => x ++ sep ++ join sep r
  end.

(** Truth value of a [str] or [None]. *)
Definition truthy (o : option pystr) : bool :=
  match o with Some (_ :: _) => true | _ => false end.

(** [str(x)] for a string or [None]. *)
Definition py_str (o : option pystr) : pystr :=
  match o with Some s => s | None => py "None" end.

(** ** Matching *)

Record mstate := { ms_pos : nat; ms_rest : pystr; ms_grp : option pystr }.

(** What [re.search] hands back: the span, group 1 and the group count. *)
Record pymatch := {
  mt_start : nat; mt_end : nat; mt_grp : option pystr; mt_groups : nat
}.

Section Engine.

Context (U : unicode).

Fixpoint lstrip (s : pystr) : pystr :=
  match s with
  | c :: r => if u_isspace U c then lstrip r else s
  | [] => []
  end.

Definition rstrip (s : pystr) : pystr := reverse (lstrip (reverse s)).

Definition strip (s : pystr) : pystr := rstrip (lstrip s).

(** [ic] is the flag [re.IGNORECASE]. *)
Definition lit_ok (ic : bool) (p c : cp) : bool :=
  if ic then u_ieq U p c else p =? c.

Definition atom_ok (ic : bool) (a : atom) (c : cp) : bool :=
  match a with
  | ALit p => lit_ok ic p c
  | ASet neg cs => xorb neg (existsb (λ p, lit_ok ic p c) cs)
  | ASpace => u_isspace U c
  | AWord => u_isword U c
  end.

Definition eat (ic : bool) (a : atom) (s : mstate) : list mstate :=
  match ms_rest s with
  | c :: r =>
      if atom_ok ic a c
      then [ {| ms_pos := S (ms_pos s); ms_rest := r; ms_grp := ms_grp s |} ]
      else []
  | [] => []
  end.

(** Greedy repetition of a one-character item: the states after one or
    more characters, the longest first. *)
Fixpoint plus_from (ic : bool) (a : atom) (pos : nat) (rest : pystr)
    (g : option pystr) : list mstate :=
  match rest with
  | c :: r =>
      if atom_ok ic a c
      then plus_from ic a (S pos) r g ++ [ {| ms_pos := S pos; ms_rest := r; ms_grp := g |} ]
      else []
  | [] => []
  end.

Definition capture (s e : mstate) : mstate :=
  {| ms_pos := ms_pos e; ms_rest := ms_rest e;
     ms_grp := Some (take (ms_pos e - ms_pos s)%nat (ms_rest s)) |}.

(** The backtracking matcher as a list of successes, in the order in which
    the engine tries them. *)
Fixpoint rmatch (ic : bool) (r : regex) (s : mstate) : list mstate :=
  match r with
  | RAtom a => eat ic a s
  | RBol => if bool_decide (ms_pos s = 0%nat) then [s] else []
  | REps => [s]
  | RSeq a b => rmatch ic a s ≫= rmatch ic b
  | RAlt a b => rmatch ic a s ++ rmatch ic b s
  | ROpt a => rmatch ic a s ++ [s]
  | RPlus a => plus_from ic a (ms_pos s) (ms_rest s) (ms_grp s)
  | RStar a => plus_from ic a (ms_pos s) (ms_rest s) (ms_grp s) ++ [s]
  | RGroup a => capture s <$> rmatch ic a s
  end.

Definition match_at (ic : bool) (p : pattern) (pos : nat) (rest : pystr) : option pymatch :=
  e ← head (rmatch ic (pat_re p) {| ms_pos := pos; ms_rest := rest; ms_grp := None |});
  Some {| mt_start := pos; mt_end := ms_pos e; mt_grp := ms_grp e;
          mt_groups := pat_groups p |}.

(** The leftmost match, as [re.search] finds it. *)
Fixpoint search_from (ic : bool) (p : pattern) (pos : nat) (rest : pystr) : option pymatch :=
  match match_at ic p pos rest with
  | Some m => Some m
  | None =>
      match rest with
      | [] => None
      | _ :: rest' => search_from ic p (S pos) rest'
      end
  end.

Definition leftmost (ic : bool) (p : pattern) (s : pystr) : option pymatch :=
  search_from ic p 0 s.

Definition re_search (src : string) (s : pystr) (ic : bool) : outcome (option pymatch) :=
  match re_compile src with
  | Some p => Ret (leftmost ic p s)
  | None => Raise (ReError src)
  end.

(** [m.group(1)]: an [IndexError] when the pattern has no group, [None]
    when the group took no part in the match. *)
Definition group1 (m : pymatch) : outcome (option pystr) :=
  if bool_decide (1 ≤ mt_groups m)%nat then Ret (mt_grp m) else Raise IndexError.

(** [x.strip()] where [x] may be [None]. *)
Definition strip_method (o : option pystr) : outcome pystr :=
  match o with
  | Some s => Ret (strip s)
  | None => Raise AttributeError
  end.

(** The non-overlapping matches from left to right, for a pattern that
    matches no empty string; [skip] counts the positions inside the
    previous match. *)
Fixpoint matches_from (ic : bool) (p : pattern) (pos : nat) (rest : pystr)
    (skip : nat) : list pymatch :=
  match skip with
  | S k =>
      match rest with
      | [] => []
      | _ :: rest' => matches_from ic p (S pos) rest' k
      end
  | O =>
      match match_at ic p pos rest with
      | Some m =>
          m :: match rest with
               | [] => []
               | _ :: rest' => matches_from ic p (S pos) rest' (mt_end m - pos - 1)%nat
               end
      | None =>
          match rest with
          | [] => []
          | _ :: rest' => matches_from ic p (S pos) rest' 0%nat
          end
      end
  end.

(** [re.findall] for a pattern with one group. *)
Definition re_findall (src : string) (s : pystr) : outcome (list pystr) :=
  match re_compile src with
  | Some p => Ret ((λ m, default [] (mt_grp m)) <$> matches_from false p 0 s 0)
  | None => Raise (ReError src)
  end.

End Engine.

(** ** decision_engine.py *)

Inductive QueryType :=
| STUDENT_SEARCH
| SKILL_QUERY
| EXPERIENCE_QUERY
| EDUCATION_QUERY
| CONTACT_QUERY
| GENERAL_INFO
| GREETING
| UNKNOWN.

Global Instance QueryType_eq_dec : EqDecision QueryType.
Proof. solve_decision. Defined.

Definition value (t : QueryType) : string :=
  match t with
  | STUDENT_SEARCH => "student_search"
  | SKILL_QUERY => "skill_query"
  | EXPERIENCE_QUERY => "experience_query"
  | EDUCATION_QUERY => "education_query"
  | CONTACT_QUERY => "contact_query"
  | GENERAL_INFO => "general_info"
  | GREETING => "greeting"
  | UNKNOWN => "unknown"
  end.

(** [self.patterns.get(query_type, [])]: the dictionary of [__init__], with
    no entry for [GENERAL_INFO] and [UNKNOWN]. *)
Definition patterns (t : QueryType) : list string :=
  match t with
  | STUDENT_SEARCH =>
      [ "busca[r]?\s+estudiante[s]?\s+(?:llamado[s]?|de nombre|que se llam[ae])\s+(\w+)";
        "estudiante[s]?\s+(?:con nombre|llamado[s]?)\s+(\w+)";
        "quien es\s+(\w+)";
        "información de\s+(\w+)";
        "datos de[l]?\s+estudiante\s+(\w+)" ]
  | SKILL_QUERY =>
      [ "(?:habilidades?|skills?|competencias?|conocimientos?)";
        "(?:sabe|conoce|domina)\s+(?:de\s+)?(\w+)";
        "experiencia en\s+(\w+)";
        "tecnolog[íi]as?\s+(?:que\s+)?(?:maneja|conoce|domina)" ]
  | EXPERIENCE_QUERY =>
      [ "experiencia\s+laboral";
        "(?:trabajos?|empleos?)\s+(?:anteriores?|previos?)";
        "(?:dónde|donde)\s+(?:ha\s+)?trabajado";
        "empresas?\s+(?:donde\s+ha\s+trabajado|en\s+las\s+que\s+trabajó)" ]
  | EDUCATION_QUERY =>
      [ "(?:educación|estudios?|formación)\s+(?:académica?)?";
        "(?:universidad|carrera|titulo|grado)";
        "(?:dónde|donde)\s+(?:estudió|estudia)";
        "(?:qué|que)\s+(?:estudió|estudia|carrera)" ]
  | CONTACT_QUERY =>
      [ "(?:contacto|teléfono|email|correo|dirección)";
        "(?:cómo|como)\s+(?:contactar|comunicarse)";
        "datos\s+de\s+contacto" ]
  | GREETING =>
      [ "^(?:hola|buenos?\s+días?|buenas?\s+tardes?|buenas?\s+noches?)";
        "^(?:saludos?|hi|hello)";
        "^(?:qué\s+tal|como\s+estas?|como\s+está)" ]
  | GENERAL_INFO | UNKNOWN => []
  end.

Definition skill_patterns : list string :=
  [ "(?:sabe|conoce|domina)\s+(?:de\s+)?(\w+)";
    "experiencia en\s+(\w+)";
    "conocimientos?\s+(?:de|en)\s+(\w+)" ].

Record strategy := {
  use_vector_search : bool;
  search_filters : gmap string (option pystr);
  response_template : string;
  max_results : nat
}.

Section DecisionEngine.

Context (U : unicode).

(** The loop of [_match_patterns]. *)
Fixpoint any_match (pats : list string) (query : pystr) : outcome bool :=
  match pats with
  | [] => Ret false
  | pat :: pats' =>
      m ← re_search U pat query true;
      if bool_decide (is_Some m) then Ret true else any_match pats' query
  end.

Definition _match_patterns (query : pystr) (query_type : QueryType) : outcome bool :=
  any_match (patterns query_type) query.

(** The loop shared by [_extract_student_name] and [_extract_skill]:
    [match.group(1).strip()] of the first pattern that matches. *)
Fixpoint first_group (pats : list string) (query : pystr) : outcome (option pystr) :=
  match pats with
  | [] => Ret None
  | pat :: pats' =>
      m ← re_search U pat query true;
      match m with
      | Some mt => g ← group1 mt; s ← strip_method U g; Ret (Some s)
      | None => first_group pats' query
      end
  end.

Definition _extract_student_name (query : pystr) : outcome (option pystr) :=
  first_group (patterns STUDENT_SEARCH) query.

Definition _extract_skill (query : pystr) : outcome (option pystr) :=
  first_group skill_patterns query.

Definition analyze_query (query : pystr) : outcome (QueryType * gmap string pystr) :=
  let query_lower := strip U (u_lower U query) in
  let extracted_info : gmap string pystr := ∅ in
  greeting ← _match_patterns query_lower GREETING;
  if greeting : bool then Ret (GREETING, ∅)
  else
    student_match ← _extract_student_name query_lower;
    if truthy (student_match : option pystr)
    then Ret (STUDENT_SEARCH, <["student_name" := default [] student_match]> extracted_info)
    else
      skill ← _match_patterns query_lower SKILL_QUERY;
      if skill : bool then
        skill_match ← _extract_skill query_lower;
        Ret (SKILL_QUERY,
             if truthy (skill_match : option pystr)
             then <["skill" := default [] skill_match]> extracted_info
             else extracted_info)
      else
        experience ← _match_patterns query_lower EXPERIENCE_QUERY;
        if experience : bool then Ret (EXPERIENCE_QUERY, extracted_info)
        else
          education ← _match_patterns query_lower EDUCATION_QUERY;
          if education : bool then Ret (EDUCATION_QUERY, extracted_info)
          else
            contact ← _match_patterns query_lower CONTACT_QUERY;
            if contact : bool then Ret (CONTACT_QUERY, extracted_info)
            else Ret (GENERAL_INFO, extracted_info).

End DecisionEngine.

Definition get_search_strategy (query_type : QueryType)
    (extracted_info : gmap string pystr) : strategy :=
  let strategy :=
    {| use_vector_search := true; search_filters := ∅;
       response_template := "default"; max_results := 5 |} in
  match query_type with
  | STUDENT_SEARCH =>
      {| use_vector_search := use_vector_search strategy;
         search_filters :=
           <["student_name" := extracted_info !! "student_name"]> (search_filters strategy);
         response_template := "student_profile";
         max_results := 1 |}
  | SKILL_QUERY =>
      {| use_vector_search := use_vector_search strategy;
         search_filters :=
           <["skill" := extracted_info !! "skill"]> (search_filters strategy);
         response_template := "skill_focused";
         max_results := 3 |}
  | EXPERIENCE_QUERY =>
      {| use_vector_search := use_vector_search strategy;
         search_filters := search_filters strategy;
         response_template := "experience_focused";
         max_results := 5 |}
  | EDUCATION_QUERY =>
      {| use_vector_search := use_vector_search strategy;
         search_filters := search_filters strategy;
         response_template := "education_focused";
         max_results := 5 |}
  | CONTACT_QUERY =>
      {| use_vector_search := use_vector_search strategy;
         search_filters := search_filters strategy;
         response_template := "contact_focused";
         max_results := 3 |}
  | GREETING =>
      {| use_vector_search := false;
         search_filters := search_filters strategy;
         response_template := "greeting";
         max_results := max_results strategy |}
  | GENERAL_INFO | UNKNOWN => strategy
  end.

Definition should_use_rag (query_type : QueryType) : bool :=
  let non_rag_types := [GREETING; UNKNOWN] in
  negb (bool_decide (query_type ∈ non_rag_types)).

(** [ResponseTemplates.get_template]; the templates are written line by
    line, the lines joined by a line feed. *)
Definition lines (l : list string) : pystr := join [10] (py <$> l).

Definition templates : list (string * pystr) :=
  [ ("greeting", lines
      [ "¡Hola! Soy tu asistente para consultas sobre CVs de estudiantes. ";
        "            Puedo ayudarte a:";
        "            - Buscar información específica de estudiantes";
        "            - Consultar habilidades y competencias";
        "            - Revisar experiencia laboral";
        "            - Verificar información educativa";
        "            - Obtener datos de contacto";
        "            ";
        "            ¿En qué puedo ayudarte hoy?" ]);
    ("student_profile", lines
      [ "Basándome en la información encontrada sobre {student_name}:";
        "            ";
        "            {context}";
        "            ";
        "            Esta información proviene de los CVs almacenados en nuestra base de datos." ]);
    ("skill_focused", lines
      [ "Información sobre habilidades en {skill}:";
        "            ";
        "            {context}";
        "            ";
        "            Estos datos han sido extraídos de los CVs de estudiantes disponibles." ]);
    ("experience_focused", lines
      [ "Información sobre experiencia laboral:";
        "            ";
        "            {context}";
        "            ";
        "            Datos recopilados de los CVs de estudiantes." ]);
    ("education_focused", lines
      [ "Información educativa encontrada:";
        "            ";
        "            {context}";
        "            ";
        "            Información extraída de los CVs académicos." ]);
    ("contact_focused", lines
      [ "Datos de contacto disponibles:";
        "            ";
        "            {context}";
        "            ";
        "            Información de contacto de los CVs." ]);
    ("default", lines
      [ "Basándome en la información disponible:";
        "            ";
        "            {context}";
        "            ";
        "            Esta respuesta se basa en los CVs de estudiantes almacenados." ]) ].

Fixpoint assoc {A} (k : string) (l : list (string * A)) : option A :=
  match l with
  | [] => None
  | (k', v) :: l' => if decide (k' = k) then Some v else assoc k l'
  end.

Definition get_template (template_type : string) : pystr :=
  default (default [] (assoc "default" templates)) (assoc template_type templates).

(** [str.format] with keyword arguments, for templates whose replacement
    fields are plain names (none of the templates doubles a brace). *)
Fixpoint format_go (t : pystr) (fld : option pystr) (kw : pystr → option pystr)
    : outcome pystr :=
  match t with
  | [] => match fld with None => Ret [] | Some _ => Raise ValueError end
  | c :: t' =>
      match fld with
      | None =>
          if c =? chr "{" then format_go t' (Some []) kw
          else if c =? chr "}" then Raise ValueError
          else r ← format_go t' None kw; Ret (c :: r)
      | Some acc =>
          if c =? chr "}" then
            match kw (reverse acc) with
            | Some v => r ← format_go t' None kw; Ret (v ++ r)
            | None => Raise (KeyError (reverse acc))
            end
          else format_go t' (Some (c :: acc)) kw
      end
  end.

Definition format (t : pystr) (kw : pystr → option pystr) : outcome pystr :=
  format_go t None kw.

(** ** vector_store.py: documents and filters *)

(** The keys of a document's metadata that the code reads; [None] is an
    absent key. *)
Record metadata := {
  md_filename : option pystr;
  md_student_name : option pystr;
  md_chunk_id : option pystr;
  md_skills : option (list pystr);
  md_education : option (list pystr);
  md_experience : option (list pystr)
}.

Record document := { page_content : pystr; doc_metadata : metadata }.

(** A search result: [content], [metadata] and [score]; scores are
    floating-point numbers and stay abstract. *)
Record hit (score : Type) := {
  content : pystr; hit_metadata : metadata; hit_score : score
}.
Arguments content {score} _.
Arguments hit_metadata {score} _.
Arguments hit_score {score} _.

(** [filters.get(k)]: absent and [None] read the same. *)
Definition filters_get (filters : gmap string (option pystr)) (k : string) : option pystr :=
  default None (filters !! k).

Section Filters.

Context (U : unicode).

Definition _apply_filters (md : metadata) (filters : gmap string (option pystr)) : bool :=
  if bool_decide (filters = ∅) then true
  else if truthy (filters_get filters "student_name")
          && negb (pyin (u_lower U (default [] (filters_get filters "student_name")))
                        (u_lower U (default [] (md_student_name md))))
  then false
  else if truthy (filters_get filters "skill")
          && negb (let skills_str := join (py " ") (default [] (md_skills md)) in
                   pyin (u_lower U (default [] (filters_get filters "skill")))
                        (u_lower U skills_str))
  then false
  else true.

End Filters.

(** [l[i]] for a Python list: a negative index counts from the end. *)
Definition py_index {A} (l : list A) (i : Z) : outcome A :=
  let j := if (i <? 0)%Z then (i + Z.of_nat (length l))%Z else i in
  if (0 <=? j)%Z then
    match l !! Z.to_nat j with
    | Some x => Ret x
    | None => Raise IndexError
    end
  else Raise IndexError.

Section Faiss.

Context (U : unicode) {score : Type}.

(** [self.faiss_index.search(query_embedding, n)]: the [n] nearest stored
    vectors as scores and indices, best first, with index [-1] for a missing
    neighbour.  The index is outside the repository. *)
Context (index_search : nat → list (score * Z)).

(** The loop of [_search_faiss] over the candidates. *)
Fixpoint faiss_results (candidates : list (score * Z)) (documents : list document)
    (document_metadata : list metadata) (filters : gmap string (option pystr))
    : outcome (list (hit score)) :=
  match candidates with
  | [] => Ret []
  | (sc, idx) :: candidates' =>
      if (idx =? -1)%Z
      then faiss_results candidates' documents document_metadata filters
      else
        doc ← py_index documents idx;
        metadata ← py_index document_metadata idx;
        results ← faiss_results candidates' documents document_metadata filters;
        Ret (if _apply_filters U metadata filters
             then {| content := page_content doc; hit_metadata := metadata;
                     hit_score := sc |} :: results
             else results)
  end.

(** [ntotal] is [self.faiss_index.ntotal]. *)
Definition _search_faiss (ntotal : nat) (documents : list document)
    (document_metadata : list metadata) (k : nat)
    (filters : gmap string (option pystr)) : outcome (list (hit score)) :=
  if bool_decide (ntotal = 0%nat) then Ret []
  else
    results ← faiss_results (index_search (Nat.min (k * 2) ntotal))
                documents document_metadata filters;
    Ret (take k results).

End Faiss.

(** The filter that [_search_pinecone] builds: per metadata field, one
    operator of the index's filter language. *)
Inductive pinecone_cond :=
| PcEq (v : pystr)         (* {'$eq': v} *)
| PcRegex (pat : pystr).   (* {'$regex': pat} *)

Definition pinecone_filters (filters : gmap string (option pystr))
    : option (gmap string pinecone_cond) :=
  let f0 : gmap string pinecone_cond := ∅ in
  let f1 :=
    if truthy (filters_get filters "student_name")
    then <["student_name" := PcEq (default [] (filters_get filters "student_name"))]> f0
    else f0 in
  let f2 :=
    if truthy (filters_get filters "skill")
    then <["skills" := PcRegex (py ".*" ++ default [] (filters_get filters "skill") ++ py ".*")]> f1
    else f1 in
  if bool_decide (f2 = ∅) then None else Some f2.

Section Pinecone.

(** [str(list)] and the index's [$regex] operator are outside the
    repository; they are left open. *)
Context (str_of_list : list pystr → pystr).
Context (regex_op : pystr → pystr → bool).

(** The metadata that [_add_to_pinecone] stores with a vector. *)
Definition pinecone_metadata (doc : document) : gmap string pystr :=
  let md := doc_metadata doc in
  <["text" := take 1000 (page_content doc)]>
  (<["filename" := default [] (md_filename md)]>
  (<["student_name" := default [] (md_student_name md)]>
  (<["chunk_id" := default [] (md_chunk_id md)]>
  (<["skills" := str_of_list (default [] (md_skills md))]>
  (<["education" := str_of_list (default [] (md_education md))]>
  (<["experience" := str_of_list (default [] (md_experience md))]> ∅)))))).

(** The index keeps a vector when every field condition of the filter
    holds of its stored metadata; [$eq] is equality of values. *)
Definition pinecone_cond_ok (stored : gmap string pystr) (k : string)
    (c : pinecone_cond) : bool :=
  match stored !! k with
  | None => false
  | Some v =>
      match c with
      | PcEq x => bool_decide (v = x)
      | PcRegex pat => regex_op pat v
      end
  end.

Definition pinecone_accepts (flt : option (gmap string pinecone_cond))
    (stored : gmap string pystr) : bool :=
  match flt with
  | None => true
  | Some f => forallb (λ kc, pinecone_cond_ok stored kc.1 kc.2) (map_to_list f)
  end.

End Pinecone.

(** ** rag_agent.py *)

Record response := {
  answer : pystr;
  query_type : string;
  sources : list pystr;
  confidence : string;
  context_used : option bool     (* the key is absent from some replies *)
}.

Record entry := {
  e_question : pystr; e_answer : pystr; e_query_type : string; e_timestamp : pystr
}.

Definition system_prompt : pystr := lines
  [ "Eres un asistente especializado en información de CVs de estudiantes. ";
    "Tu función es ayudar a los usuarios a encontrar información específica sobre estudiantes basándote en los CVs almacenados.";
    "";
    "CONTEXTO RECUPERADO:";
    "{context}";
    "";
    "TIPO DE CONSULTA: {query_type}";
    "";
    "CONSULTA DEL USUARIO: {question}";
    "";
    "INSTRUCCIONES:";
    "1. Utiliza ÚNICAMENTE la información proporcionada en el contexto para responder";
    "2. Si el contexto no contiene información suficiente, indícalo claramente";
    "3. Sé específico y detallado en tus respuestas";
    "4. Mantén un tono profesional y útil";
    "5. Si mencionas nombres de estudiantes, asegúrate de que estén en el contexto";
    "6. Para consultas sobre habilidades, experiencia o educación, organiza la información de manera clara";
    "";
    "RESPUESTA:" ].

Definition no_results_answer : pystr :=
  py "Lo siento, no encontré información relevante para tu consulta en los CVs almacenados.".

Definition error_answer : pystr :=
  py "Lo siento, ocurrió un error al generar la respuesta. Por favor, intenta de nuevo.".

Definition not_understood_answer : pystr :=
  py "No pude entender tu consulta. ¿Podrías reformularla?".

(** Keyword arguments of a [format] call. *)
Fixpoint kwargs (l : list (string * pystr)) (name : pystr) : option pystr :=
  match l with
  | [] => None
  | (k, v) :: l' => if decide (py k = name) then Some v else kwargs l' name
  end.

Definition dec (n : nat) : pystr := py (NilZero.string_of_uint (Nat.to_uint n)).

Definition _calculate_confidence (context answer : pystr) : string :=
  if bool_decide (context = []) then "low"
  else if bool_decide (1000 < length context)%nat && negb (pyin (py "Desconocido") answer)
  then "high"
  else if bool_decide (500 < length context)%nat then "medium"
  else "low".

Definition _handle_non_rag_query (qt : QueryType) (question : pystr) : response :=
  if decide (qt = GREETING) then
    let template := get_template "greeting" in
    {| answer := template; query_type := value qt; sources := [];
       confidence := "high"; context_used := None |}
  else
    {| answer := not_understood_answer; query_type := value qt; sources := [];
       confidence := "low"; context_used := None |}.

Section Agent.

Context (U : unicode).

(** Of a similarity score only its rendering with three decimals enters
    the context. *)
Context {score : Type} (fmt_score : score → pystr).

(** The two collaborators of a query, and the session's time stamp. *)
Record collab := {
  vs_search : pystr → nat → gmap string (option pystr) → outcome (list (hit score));
  llm_invoke : pystr → outcome pystr;
  session_timestamp : pystr
}.

Context (C : collab).

(** What a query does to the outside, in order. *)
Inductive event :=
| EvSearch (query : pystr) (k : nat) (filters : gmap string (option pystr))
| EvInvoke (prompt : pystr)
| EvStError (e : exn).

Record agent := { conversation_history : list entry; trace : list event }.

Definition M (A : Type) : Type := agent → outcome A * agent.

Definition ret {A} (a : A) : M A := λ σ, (Ret a, σ).

Definition bind {A B} (m : M A) (f : A → M B) : M B :=
  λ σ, match m σ with
       | (Ret a, σ') => f a σ'
       | (Raise e, σ') => (Raise e, σ')
       end.

Definition lift {A} (o : outcome A) : M A := λ σ, (o, σ).

Definition emit (ev : event) : M unit :=
  λ σ, (Ret (), {| conversation_history := conversation_history σ;
                   trace := trace σ ++ [ev] |}).

(** [try: m except Exception as e: h e]. *)
Definition try_except {A} (m : M A) (h : exn → M A) : M A :=
  λ σ, match m σ with
       | (Ret a, σ') => (Ret a, σ')
       | (Raise e, σ') => h e σ'
       end.

Local Instance M_ret : MRet M := @ret.
Local Instance M_bind : MBind M := λ A B f m, bind m f.

Definition vector_store_search (query : pystr) (k : nat)
    (filters : gmap string (option pystr)) : M (list (hit score)) :=
  _ ← emit (EvSearch query k filters); lift (vs_search C query k filters).

Definition invoke (prompt : pystr) : M pystr :=
  _ ← emit (EvInvoke prompt); lift (llm_invoke C prompt).

Definition append_history (e : entry) : M unit :=
  λ σ, (Ret (), {| conversation_history := conversation_history σ ++ [e];
                   trace := trace σ |}).

Definition context_part (i : nat) (result : hit score) : pystr :=
  let content := take 500 (content result) in
  let metadata := hit_metadata result in
  [10] ++ py "DOCUMENTO " ++ dec i ++ py ":" ++ [10]
  ++ py "Archivo: " ++ default (py "Desconocido") (md_filename metadata) ++ [10]
  ++ py "Estudiante: " ++ default (py "Desconocido") (md_student_name metadata) ++ [10]
  ++ py "Contenido: " ++ content ++ [10]
  ++ py "Puntuación: " ++ fmt_score (hit_score result) ++ [10]
  ++ py "---".

Definition _build_context (search_results : list (hit score)) : pystr :=
  join [10] (imap (λ i result, context_part (S i) result) search_results).

(** [list(set(sources))]: Python leaves the order open, the model takes
    the order in which the set enumerates. *)
Definition _extract_sources_from_context (context : pystr) : outcome (list pystr) :=
  file_matches ← re_findall U "Archivo:\s*([^\n]+)" context;
  Ret (elements (list_to_set (file_matches : list pystr) : gset pystr)).

Definition _generate_response (question context : pystr) (qt : QueryType)
    (search_strategy : strategy) : M response :=
  try_except
    (prompt ← lift (format system_prompt
                      (kwargs [ ("context", context); ("question", question);
                                ("query_type", py (value qt)) ]));
     answer ← invoke prompt;
     let template_type := response_template search_strategy in
     answer ←
       (if decide (template_type ≠ "default") then
          let template := get_template template_type in
          if pyin (py "{context}") template then
            lift (format template
                    (kwargs (("context", answer)
                             :: ((λ kv, (kv.1, py_str kv.2))
                                   <$> map_to_list (search_filters search_strategy)))))
          else ret answer
        else ret answer);
     sources ← lift (_extract_sources_from_context context);
     let confidence := _calculate_confidence context answer in
     ret {| answer := answer; query_type := value qt; sources := sources;
            confidence := confidence;
            context_used := Some (bool_decide (0 < length context)%nat) |})
    (λ e,
       _ ← emit (EvStError e);
       ret {| answer := error_answer; query_type := value qt; sources := [];
              confidence := "error"; context_used := None |}).

Definition query (user_question : pystr) : M response :=
  analysis ← lift (analyze_query U user_question);
  let qt := analysis.1 in
  let extracted_info := analysis.2 in
  let search_strategy := get_search_strategy qt extracted_info in
  if negb (should_use_rag qt) then ret (_handle_non_rag_query qt user_question)
  else
    search_results ← vector_store_search user_question (max_results search_strategy)
                       (search_filters search_strategy);
    match search_results with
    | [] =>
        ret {| answer := no_results_answer; query_type := value qt; sources := [];
               confidence := "low"; context_used := None |}
    | _ :: _ =>
        let context := _build_context search_results in
        response ← _generate_response user_question context qt search_strategy;
        _ ← append_history {| e_question := user_question; e_answer := answer response;
                              e_query_type := value qt;
                              e_timestamp := session_timestamp C |};
        ret response
    end.

End Agent.

(** ** Notions in which the properties are stated *)

(** Every match sets group 1. *)
Fixpoint sets_group (r : regex) : bool :=
  match r with
  | RGroup _ => true
  | RSeq a b => sets_group a || sets_group b
  | RAlt a b => sets_group a && sets_group b
  | _ => false
  end.

(** Every group is [(\w+)]. *)
Fixpoint word_groups (r : regex) : bool :=
  match r with
  | RGroup (RPlus AWord) => true
  | RGroup _ => false
  | RSeq a b | RAlt a b => word_groups a && word_groups b
  | ROpt a => word_groups a
  | _ => true
  end.

(** The pattern is in the supported fragment. *)
Definition compiles (src : string) : bool :=
  bool_decide (is_Some (re_compile src)).

(** The pattern has exactly one group, which every match sets and which
    is [(\w+)]. *)
Definition capturing (src : string) : bool :=
  match re_compile src with
  | Some p => bool_decide (pat_groups p = 1%nat) && sets_group (pat_re p)
              && word_groups (pat_re p)
  | None => false
  end.

(** The order in which [analyze_query] tries the categories. *)
Definition priority : list QueryType :=
  [GREETING; STUDENT_SEARCH; SKILL_QUERY; EXPERIENCE_QUERY; EDUCATION_QUERY; CONTACT_QUERY].

Section Notions.

Context (U : unicode).

(** A non-empty run of word characters. *)
Definition wordy (g : pystr) : Prop := g ≠ [] ∧ Forall (λ c, u_isword U c = true) g.

(** Group 1, where set, is such a run. *)
Definition grp_ok (s : mstate) : Prop := ∀ g, ms_grp s = Some g → wordy g.

(** [re.search(src, s, re.IGNORECASE)] finds a match. *)
Definition src_matches (src : string) (s : pystr) : bool :=
  match re_compile src with
  | Some p => bool_decide (is_Some (leftmost U true p s))
  | None => false
  end.

(** Some rule of the category matches the normalised text. *)
Definition rule_matches (t : QueryType) (s : pystr) : bool :=
  existsb (λ src, src_matches src s) (patterns t).

(** The lower-cased, trimmed input. *)
Definition normalized (q : pystr) : pystr := strip U (u_lower U q).

(** The first category, in priority order, one of whose rules matches;
    [GENERAL_INFO] when there is none. *)
Definition first_matching (s : pystr) : QueryType :=
  default GENERAL_INFO (List.find (λ t, rule_matches t s) priority).

End Notions.

(** What every table of the interpreter does on ASCII. *)
Record ascii_compatible (U : unicode) : Prop := {
  ac_lower : ∀ s, Forall (λ c, c < 128) s → u_lower U s = latin1_lower_cp <$> s;
  ac_isspace : ∀ c, c < 128 → u_isspace U c = uni_isspace c;
  ac_isword : ∀ c, c < 128 → u_isword U c = latin1_isword c;
  ac_ieq : ∀ p c, p < 128 → c < 128 → u_ieq U p c = latin1_ieq p c
}.

(** The item mentions ASCII characters only. *)
Definition ascii_atom (a : atom) : bool :=
  match a with
  | ALit p => p <? 128
  | ASet _ cs => forallb (λ p, p <? 128) cs
  | _ => true
  end.

Definition ascii_letter (c : cp) : bool := between 65 90 c || between 97 122 c.

(** What the proofs use of a lower-cased ASCII letter. *)
Definition lower_letter (y : cp) : Prop :=
  y < 128 ∧ uni_isspace y = false ∧ latin1_isword y = true.

(** [n] occurs in [h]. *)
Definition substring (n h : pystr) : Prop := ∃ pre post, h = pre ++ n ++ post.

(** One row of the specification's table: retrieval flag, result count,
    filter (the filter key and the entity slot it is read from) and
    template; a dash is [None]. *)
Record table_row := {
  row_uses_retrieval : bool;
  row_result_count : option nat;
  row_filter : option (string * string);
  row_template : string
}.

(** The table of the specification. *)
Definition mapping_table (c : QueryType) : table_row :=
  match c with
  | GREETING =>
      {| row_uses_retrieval := false; row_result_count := None;
         row_filter := None; row_template := "greeting" |}
  | STUDENT_SEARCH =>
      {| row_uses_retrieval := true; row_result_count := Some 1%nat;
         row_filter := Some ("student_name", "student_name");
         row_template := "student_profile" |}
  | SKILL_QUERY =>
      {| row_uses_retrieval := true; row_result_count := Some 3%nat;
         row_filter := Some ("skill", "skill"); row_template := "skill_focused" |}
  | EXPERIENCE_QUERY =>
      {| row_uses_retrieval := true; row_result_count := Some 5%nat;
         row_filter := None; row_template := "experience_focused" |}
  | EDUCATION_QUERY =>
      {| row_uses_retrieval := true; row_result_count := Some 5%nat;
         row_filter := None; row_template := "education_focused" |}
  | CONTACT_QUERY =>
      {| row_uses_retrieval := true; row_result_count := Some 3%nat;
         row_filter := None; row_template := "contact_focused" |}
  | GENERAL_INFO | UNKNOWN =>
      {| row_uses_retrieval := true; row_result_count := Some 5%nat;
         row_filter := None; row_template := "default" |}
  end.

(** The filter that a row prescribes for a set of entities. *)
Definition row_filters (row : table_row) (entities : gmap string pystr)
    : gmap string (option pystr) :=
  match row_filter row with
  | Some (key, slot) => {[ key := entities !! slot ]}
  | None => ∅
  end.

(** The filter for the name [maria], as the classifier extracts it from
    "Busca información de Maria", and a stored passage of Maria's CV. *)
Definition maria_filter : gmap string (option pystr) :=
  search_filters (get_search_strategy STUDENT_SEARCH {["student_name" := py "maria"]}).

Definition maria_record : metadata :=
  {| md_filename := Some (py "cv_maria.pdf");
     md_student_name := Some (py "Maria");
     md_chunk_id := Some (py "cv_maria.pdf_0");
     md_skills := Some [py "Python"; py "SQL"];
     md_education := Some [];
     md_experience := Some [] |}.

Definition maria_doc : document :=
  {| page_content := py "Maria"; doc_metadata := maria_record |}.

(** The replies of [query] that do not depend on the synthesizer. *)
Definition greeting_reply : response :=
  {| answer := get_template "greeting"; query_type := "greeting"; sources := [];
     confidence := "high"; context_used := None |}.

Definition no_results_reply (c : QueryType) : response :=
  {| answer := no_results_answer; query_type := value c; sources := [];
     confidence := "low"; context_used := None |}.

Definition error_reply (c : QueryType) : response :=
  {| answer := error_answer; query_type := value c; sources := [];
     confidence := "error"; context_used := None |}.

(** The agent after one more event. *)
Definition logged (ev : event) (σ : agent) : agent :=
  {| conversation_history := conversation_history σ; trace := trace σ ++ [ev] |}.

(** A gateway that is down, and a synthesizer that is not. *)
Definition gateway_down : collab (score := unit) :=
  {| vs_search := λ _ _ _, Raise (Failure (py "connection refused"));
     llm_invoke := λ _, Ret (py "ok");
     session_timestamp := [] |}.

(** A gateway that finds nothing. *)
Definition gateway_empty : collab (score := unit) :=
  {| vs_search := λ _ _ _, Ret [];
     llm_invoke := λ _, Ret (py "ok");
     session_timestamp := [] |}.

(** ** Notions for the local search, the synthesis and the replies *)

(** The least number of characters a match consumes. *)
Fixpoint min_len (r : regex) : nat :=
  match r with
  | RAtom _ | RPlus _ => 1
  | RBol | REps | ROpt _ | RStar _ => 0
  | RSeq a b => min_len a + min_len b
  | RAlt a b => min_len a `min` min_len b
  | RGroup a => min_len a
  end.

(** The pattern is in the supported fragment and matches no empty text. *)
Definition consuming (src : string) : bool :=
  match re_compile src with
  | Some p => bool_decide (1 ≤ min_len (pat_re p))%nat
  | None => false
  end.

(** The pattern is in the supported fragment and starts with [^]. *)
Definition anchored (src : string) : bool :=
  match re_compile src with
  | Some {| pat_re := RSeq RBol _ |} => true
  | _ => false
  end.

(** [l[i]] is defined. *)
Definition valid_index {A} (l : list A) (i : Z) : Prop :=
  (- Z.of_nat (length l) ≤ i < Z.of_nat (length l))%Z.

(** A candidate of the index that the loop of [_search_faiss] can read. *)
Definition readable (documents : list document) (document_metadata : list metadata)
    {score : Type} (cand : score * Z) : Prop :=
  cand.2 = (-1)%Z ∨ (valid_index documents cand.2 ∧ valid_index document_metadata cand.2).

(** The two ways in which [_generate_response] ends, as a relation between
    the reply and the events of the step: the apology after the exception of
    the step was reported, or a reply assembled from the synthesizer's
    answer. Either way the synthesizer was called once. *)
Definition synthesized (c : QueryType) (context : pystr) (r : response)
    (evs : list event) : Prop :=
  (r = error_reply c ∧ ∃ p x, evs = [EvInvoke p; EvStError x])
  ∨ ((∃ p, evs = [EvInvoke p])
     ∧ query_type r = value c
     ∧ context_used r = Some (bool_decide (0 < length context)%nat)
     ∧ confidence r = _calculate_confidence context (answer r)
     ∧ NoDup (sources r)).

(** What every reply holds besides its category. *)
Definition reply_shape (r : response) : Prop :=
  confidence r ∈ ["high"; "medium"; "low"; "error"]
  ∧ NoDup (sources r)
  ∧ context_used r ≠ Some false
  ∧ (confidence r = "error" → answer r = error_answer ∧ sources r = []).

(** The entry that [query] appends to the history. *)
Definition history_entry {score : Type} (C : collab (score := score)) (q : pystr)
    (c : QueryType) (r : response) : entry :=
  {| e_question := q; e_answer := answer r; e_query_type := value c;
     e_timestamp := session_timestamp C |}.

Definition fresh_agent : agent :=
  {| conversation_history := []; trace := [] |}.

(** ** config.py *)

(** The values of the attributes of [Config]: a string or [None], an
    integer, a float with one decimal, a class method. *)
Inductive cfg_value :=
| CStr (s : option pystr)
| CInt (n : nat)
| CFloat (tenths : nat)
| CMethod.

Global Instance cfg_value_eq_dec : EqDecision cfg_value.
Proof. solve_decision. Defined.

(** [logger.info] and [logger.error]: the level and the message. *)
Definition log_record : Type := string * pystr.

Section Config.

Context (U : unicode).

(** [os.getenv], after [load_dotenv()]. *)
Context (getenv : string → option pystr).

(** The attributes that the body of [class Config] defines, in order. *)
Definition Config : list (string * cfg_value) :=
  [ ("GROQ_API_KEY", CStr (getenv "GROQ_API_KEY"));
    ("PINECONE_API_KEY", CStr (getenv "PINECONE_API_KEY"));
    ("PINECONE_ENV", CStr (Some (default (py "us-east-1-aws") (getenv "PINECONE_ENV"))));
    ("PINECONE_INDEX_NAME",
       CStr (Some (default (py "student-cv-index") (getenv "PINECONE_INDEX_NAME"))));
    ("OPENAI_API_KEY", CStr (getenv "OPENAI_API_KEY"));
    ("EMBEDDING_MODEL", CStr (Some (py "sentence-transformers/all-MiniLM-L6-v2")));
    ("CHUNK_SIZE", CInt 1000);
    ("CHUNK_OVERLAP", CInt 200);
    ("TOP_K_RETRIEVAL", CInt 3);
    ("SIMILARITY_THRESHOLD", CFloat 7);
    ("PDF_DIRECTORY", CStr (Some (py "cvs_estudiantes")));
    ("VECTOR_STORE_PATH", CStr (Some (py "vector_store")));
    ("MODEL_NAME", CStr (Some (py "llama3-70b-8192")));
    ("TEMPERATURE", CFloat 1);
    ("MAX_TOKENS", CInt 1024);
    ("validate_config", CMethod);
    ("print_config", CMethod) ].

(** [Config.<name>] and [getattr(cls, name)]. *)
Definition getattr (name : string) : outcome cfg_value :=
  match assoc name Config with
  | Some v => Ret v
  | None => Raise AttributeError
  end.

(** [not value or value.strip() == ""]; only strings have [strip]. *)
Definition blank (value : cfg_value) : outcome bool :=
  match value with
  | CStr None => Ret true
  | CStr (Some s) => Ret (negb (truthy (Some s)) || bool_decide (strip U s = []))
  | CInt n | CFloat n => if bool_decide (n = 0%nat) then Ret true else Raise AttributeError
  | CMethod => Raise AttributeError
  end.

Fixpoint missing_keys (required_keys : list string) : outcome (list string) :=
  match required_keys with
  | [] => Ret []
  | key :: required_keys' =>
      value ← getattr key;
      b ← blank value;
      rest ← missing_keys required_keys';
      Ret (if b : bool then key :: rest else rest)
  end.

(** [validate_config]: what it returns or raises, and what it logs. *)
Definition validate_config : outcome bool * list log_record :=
  let required_keys := ["GROQ_API_KEY"; "PINECONE_API_KEY"]%string in
  match missing_keys required_keys with
  | Raise x => (Raise x, [])
  | Ret [] => (Ret true, [("info"%string, py "✅ Configuración validada correctamente")])
  | Ret (k :: ks) =>
      let error_msg :=
        py "Faltan las siguientes variables de entorno: "
        ++ join (py ", ") (py <$> (k :: ks)) in
      (Raise ValueError, [("error"%string, error_msg)])
  end.

End Config.

(** ** vector_store.py: the manager *)

(** [range(start, stop, step)] for a positive step. *)
Definition py_range (start stop step : nat) : list nat :=
  (λ j, start + j * step)%nat <$> seq 0 ((stop - start + step - 1) / step)%nat.

(** [zip]: as long as the shorter list. *)
Fixpoint zip_lists {A B} (l : list A) (k : list B) : list (A * B) :=
  match l, k with
  | a :: l', b :: k' => (a, b) :: zip_lists l' k'
  | _, _ => []
  end.

(** What [get_stats] returns, by its three shapes. *)
Inductive stats :=
| StatsPinecone (total_vectors : nat) (dimension : nat)
| StatsPineconeError
| StatsFaiss (total_vectors total_documents dimension : nat).

Section Manager.

Context (U : unicode).

(** Embeddings stay abstract. *)
Context {vector : Type}.

(** One vector of an upsert: id, values, metadata. *)
Definition upsert_vector : Type := pystr * vector * gmap string pystr.

(** Calls to what lies outside the repository, as the manager makes them. *)
Inductive call :=
| CallLoadModel (name : cfg_value)
| CallEncode (texts : list pystr)
| CallPineconeInit (api_key environment : cfg_value)
| CallListIndexes
| CallCreateIndex (name : cfg_value) (dimension : nat)
| CallSleep (seconds : nat)
| CallIndex (name : cfg_value)
| CallUpsert (vectors : list upsert_vector)
| CallDeleteAll
| CallDescribeStats
| CallMakedirs (path : pystr)
| CallWriteIndex (path : pystr) (rows : list vector)
| CallDumpDocuments (path : pystr) (docs : list document)
| CallDumpMetadata (path : pystr) (mds : list metadata)
| CallExists (path : pystr)
| CallReadIndex (path : pystr)
| CallLoad (path : pystr)
| CallSt (kind : string) (message : pystr).

(** How the outside answers. *)
Record world := {
  w_load_model : cfg_value → outcome nat;       (* the embedding dimension *)
  w_encode : list pystr → outcome (list vector);
  w_normalize : vector → vector;                (* a row divided by its norm *)
  w_time : nat → nat;                           (* int(time.time()) at the i-th vector *)
  w_str : exn → pystr;                          (* str(e) *)
  w_str_of_list : list pystr → pystr;           (* str(list) *)
  w_init : cfg_value → cfg_value → outcome unit;
  w_list_indexes : outcome (list pystr);
  w_create_index : cfg_value → nat → outcome unit;
  w_index : cfg_value → outcome pystr;
  w_upsert : list upsert_vector → outcome unit;
  w_delete_all : outcome unit;
  w_describe_index_stats : outcome (option nat); (* the entry 'total_vector_count' of the stats *)
  w_makedirs : pystr → outcome unit;
  w_write : pystr → outcome unit;               (* writing the file at a path *)
  w_exists : pystr → bool;                      (* os.path.exists *)
  w_read_index : pystr → outcome (list vector); (* faiss.read_index *)
  w_load_documents : pystr → outcome (list document);  (* pickle.load, of a list of documents *)
  w_load_metadata : pystr → outcome (list metadata)    (* pickle.load, of a list of records *)
}.

Context (W : world) (getenv : string → option pystr).

(** The attributes of a [VectorStoreManager]. An [IndexFlatIP] is the rows
    added to it, in order; [ntotal] is their number. *)
Record manager := {
  use_pinecone : bool;
  embedding_dimension : nat;
  faiss_index : option (list vector);
  documents : list document;
  document_metadata : list metadata;
  pinecone_index : option pystr
}.

Definition V (A : Type) : Type := manager * list call → outcome A * (manager * list call).

Definition vret {A} (a : A) : V A := λ s, (Ret a, s).

Definition vbind {A B} (m : V A) (f : A → V B) : V B :=
  λ s, match m s with
       | (Ret a, s') => f a s'
       | (Raise e, s') => (Raise e, s')
       end.

Definition vlift {A} (o : outcome A) : V A := λ s, (o, s).

Definition vget : V manager := λ s, (Ret s.1, s).

Definition vput (m : manager) : V unit := λ s, (Ret (), (m, s.2)).

(** A call to the outside and its answer. *)
Definition vcall {A} (c : call) (o : outcome A) : V A := λ s, (o, (s.1, s.2 ++ [c])).

Definition st (kind : string) (message : pystr) : V unit := vcall (CallSt kind message) (Ret ()).

(** [try: m except Exception as e: h e]. *)
Definition vtry {A} (m : V A) (h : exn → V A) : V A :=
  λ s, match m s with
       | (Ret a, s') => (Ret a, s')
       | (Raise e, s') => h e s'
       end.

Local Instance V_ret : MRet V := @vret.
Local Instance V_bind : MBind V := λ A B f m, vbind m f.

Definition _initialize_faiss : V unit :=
  m ← vget;
  _ ← vput {| use_pinecone := use_pinecone m;
              embedding_dimension := embedding_dimension m;
              faiss_index := Some [];
              documents := documents m;
              document_metadata := document_metadata m;
              pinecone_index := pinecone_index m |};
  st "info" (py "📁 Usando almacenamiento vectorial local (FAISS)").

Definition _initialize_pinecone : V unit :=
  vtry
    (api_key ← vlift (getattr getenv "PINECONE_API_KEY");
     environment ← vlift (getattr getenv "PINECONE_ENVIRONMENT");
     _ ← vcall (CallPineconeInit api_key environment) (w_init W api_key environment);
     name ← vlift (getattr getenv "PINECONE_INDEX_NAME");
     indexes ← vcall CallListIndexes (w_list_indexes W);
     _ ← (if negb (bool_decide (name ∈ (λ i, CStr (Some i)) <$> indexes)) then
            name ← vlift (getattr getenv "PINECONE_INDEX_NAME");
            m ← vget;
            _ ← vcall (CallCreateIndex name (embedding_dimension m))
                  (w_create_index W name (embedding_dimension m));
            vcall (CallSleep 10) (Ret ())
          else vret ());
     name ← vlift (getattr getenv "PINECONE_INDEX_NAME");
     handle ← vcall (CallIndex name) (w_index W name);
     m ← vget;
     _ ← vput {| use_pinecone := use_pinecone m;
                 embedding_dimension := embedding_dimension m;
                 faiss_index := faiss_index m;
                 documents := documents m;
                 document_metadata := document_metadata m;
                 pinecone_index := Some handle |};
     st "success" (py "✅ Conectado a Pinecone correctamente"))
    (λ e,
       _ ← st "error" (py "❌ Error al conectar con Pinecone: " ++ w_str W e);
       _ ← st "info" (py "🔄 Usando almacenamiento local FAISS como respaldo");
       m ← vget;
       _ ← vput {| use_pinecone := false;
                   embedding_dimension := embedding_dimension m;
                   faiss_index := faiss_index m;
                   documents := documents m;
                   document_metadata := document_metadata m;
                   pinecone_index := pinecone_index m |};
       _initialize_faiss).

(** [VectorStoreManager(use_pinecone)]: the object is the manager of the
    final state; when the constructor raises there is no object. *)
Definition VectorStoreManager (flag : bool) : outcome unit * (manager * list call) :=
  (name ← vlift (getattr getenv "EMBEDDING_MODEL");
   dimension ← vcall (CallLoadModel name) (w_load_model W name);
   _ ← vput {| use_pinecone := flag;
               embedding_dimension := dimension;
               faiss_index := None;
               documents := [];
               document_metadata := [];
               pinecone_index := None |};
   if flag then _initialize_pinecone else _initialize_faiss)
  ({| use_pinecone := flag; embedding_dimension := 0; faiss_index := None;
      documents := []; document_metadata := []; pinecone_index := None |}, []).

(** The vectors that [_add_to_pinecone] builds, numbered from [i]. *)
Fixpoint vectors_to_upsert (i : nat) (pairs : list (document * vector))
    : list upsert_vector :=
  match pairs with
  | [] => []
  | (doc, embedding) :: pairs' =>
      let vector_id := py "doc_" ++ dec (w_time W i) ++ py "_" ++ dec i in
      (vector_id, embedding, pinecone_metadata (w_str_of_list W) doc)
        :: vectors_to_upsert (S i) pairs'
  end.

(** [self.pinecone_index.upsert(vectors=batch)], batch after batch. *)
Fixpoint upsert_batches (batches : list (list upsert_vector)) : V unit :=
  match batches with
  | [] => vret ()
  | batch :: batches' =>
      m ← vget;
      _ ← match pinecone_index m with
          | Some _ => vcall (CallUpsert batch) (w_upsert W batch)
          | None => vlift (Raise AttributeError)
          end;
      upsert_batches batches'
  end.

(** The batches of the loop of [_add_to_pinecone]. *)
Definition batches (batch_size : nat) (vectors : list upsert_vector)
    : list (list upsert_vector) :=
  (λ i, take batch_size (drop i vectors)) <$> py_range 0 (length vectors) batch_size.

Definition _add_to_pinecone (docs : list document) (embeddings : list vector) : V unit :=
  let vectors := vectors_to_upsert 0 (zip_lists docs embeddings) in
  let batch_size := 100%nat in
  upsert_batches (batches batch_size vectors).

Definition _add_to_faiss (docs : list document) (embeddings : list vector) : V unit :=
  let embeddings := w_normalize W <$> embeddings in
  m ← vget;
  match faiss_index m with
  | None => vlift (Raise AttributeError)
  | Some rows =>
      vput {| use_pinecone := use_pinecone m;
              embedding_dimension := embedding_dimension m;
              faiss_index := Some (rows ++ embeddings);
              documents := documents m ++ docs;
              document_metadata := document_metadata m ++ (doc_metadata <$> docs);
              pinecone_index := pinecone_index m |}
  end.

Definition add_documents (docs : list document) : V unit :=
  match docs with
  | [] => vret ()
  | _ :: _ =>
      let texts := page_content <$> docs in
      _ ← st "info" (py "🔄 Generando embeddings...");
      embeddings ← vcall (CallEncode texts) (w_encode W texts);
      m ← vget;
      _ ← (if use_pinecone m then _add_to_pinecone docs embeddings
           else _add_to_faiss docs embeddings);
      st "success" (py "✅ " ++ dec (length docs)
                    ++ py " documentos agregados al almacén vectorial")
  end.

Definition get_stats : V stats :=
  m ← vget;
  if use_pinecone m then
    vtry
      (total ← match pinecone_index m with
               | Some _ => vcall CallDescribeStats (w_describe_index_stats W)
               | None => vlift (Raise AttributeError)
               end;
       vret (StatsPinecone (default 0%nat total) (embedding_dimension m)))
      (λ _, vret StatsPineconeError)
  else
    vret (StatsFaiss (match faiss_index m with Some rows => length rows | None => 0%nat end)
            (length (documents m)) (embedding_dimension m)).

Definition clear_index : V unit :=
  m ← vget;
  if use_pinecone m then
    vtry
      (_ ← match pinecone_index m with
           | Some _ => vcall CallDeleteAll (w_delete_all W)
           | None => vlift (Raise AttributeError)
           end;
       st "success" (py "✅ Índice Pinecone limpiado"))
      (λ e, st "error" (py "❌ Error al limpiar Pinecone: " ++ w_str W e))
  else
    _ ← vput {| use_pinecone := use_pinecone m;
                embedding_dimension := embedding_dimension m;
                faiss_index := Some [];
                documents := [];
                document_metadata := [];
                pinecone_index := pinecone_index m |};
    st "success" (py "✅ Índice FAISS local limpiado").

(** [os.path.join(path, name)] for a relative [name]. *)
Definition path_join (path name : pystr) : pystr :=
  match last path with
  | None => name
  | Some c => if c =? chr "/" then path ++ name else path ++ py "/" ++ name
  end.

Definition save_local_index (path : pystr) : V unit :=
  m ← vget;
  match (if use_pinecone m then None else faiss_index m) with
  | Some rows =>
      _ ← vcall (CallMakedirs path) (w_makedirs W path);
      let index_file := path_join path (py "faiss_index.bin") in
      _ ← vcall (CallWriteIndex index_file rows) (w_write W index_file);
      let documents_file := path_join path (py "documents.pkl") in
      _ ← vcall (CallDumpDocuments documents_file (documents m)) (w_write W documents_file);
      let metadata_file := path_join path (py "metadata.pkl") in
      _ ← vcall (CallDumpMetadata metadata_file (document_metadata m))
            (w_write W metadata_file);
      st "success" (py "✅ Índice guardado en " ++ path)
  | None => vret ()
  end.

Definition load_local_index (path : pystr) : V bool :=
  m ← vget;
  if use_pinecone m then vret false
  else
    vtry
      (let index_path := path_join path (py "faiss_index.bin") in
       found ← vcall (CallExists index_path) (Ret (w_exists W index_path));
       if found : bool then
         rows ← vcall (CallReadIndex index_path) (w_read_index W index_path);
         m ← vget;
         _ ← vput {| use_pinecone := use_pinecone m;
                     embedding_dimension := embedding_dimension m;
                     faiss_index := Some rows;
                     documents := documents m;
                     document_metadata := document_metadata m;
                     pinecone_index := pinecone_index m |};
         let docs_path := path_join path (py "documents.pkl") in
         found ← vcall (CallExists docs_path) (Ret (w_exists W docs_path));
         if found : bool then
           docs ← vcall (CallLoad docs_path) (w_load_documents W docs_path);
           m ← vget;
           _ ← vput {| use_pinecone := use_pinecone m;
                       embedding_dimension := embedding_dimension m;
                       faiss_index := faiss_index m;
                       documents := docs;
                       document_metadata := document_metadata m;
                       pinecone_index := pinecone_index m |};
           let metadata_path := path_join path (py "metadata.pkl") in
           found ← vcall (CallExists metadata_path) (Ret (w_exists W metadata_path));
           if found : bool then
             mds ← vcall (CallLoad metadata_path) (w_load_metadata W metadata_path);
             m ← vget;
             _ ← vput {| use_pinecone := use_pinecone m;
                         embedding_dimension := embedding_dimension m;
                         faiss_index := faiss_index m;
                         documents := documents m;
                         document_metadata := mds;
                         pinecone_index := pinecone_index m |};
             _ ← st "success" (py "✅ Índice cargado desde " ++ path);
             vret true
           else vret false
         else vret false
       else vret false)
      (λ e,
         _ ← st "error" (py "❌ Error al cargar índice: " ++ w_str W e);
         vret false).

(** One call of a method of the manager by its user, whatever it returns
    or raises. *)
Inductive uses : manager * list call → manager * list call → Prop :=
| uses_add_documents docs o s s' : add_documents docs s = (o, s') → uses s s'
| uses_get_stats o s s' : get_stats s = (o, s') → uses s s'
| uses_clear_index o s s' : clear_index s = (o, s') → uses s s'
| uses_save_local_index path o s s' : save_local_index path s = (o, s') → uses s s'.

(** The local store is in step: one document and one metadata record per
    row of the index, the record being the one of the document. *)
Definition in_step (m : manager) : Prop :=
  use_pinecone m = false
  ∧ ∃ rows, faiss_index m = Some rows
      ∧ length rows = length (documents m)
      ∧ document_metadata m = doc_metadata <$> documents m.

(** The encoder returns one row for each text. *)
Definition row_per_text : Prop :=
  ∀ texts rows, w_encode W texts = Ret rows → length rows = length texts.

(** The world reads back what the calls wrote: the files exist and hold
    the rows, the documents and the records that were written. *)
Definition reads_back (calls : list call) : Prop :=
  ∀ c, c ∈ calls →
    match c with
    | CallWriteIndex path rows => w_exists W path = true ∧ w_read_index W path = Ret rows
    | CallDumpDocuments path docs =>
        w_exists W path = true ∧ w_load_documents W path = Ret docs
    | CallDumpMetadata path mds => w_exists W path = true ∧ w_load_metadata W path = Ret mds
    | _ => True
    end.

(** The calls to Pinecone. *)
Definition pinecone_call (c : call) : bool :=
  match c with
  | CallPineconeInit _ _ | CallListIndexes | CallCreateIndex _ _ | CallIndex _
  | CallUpsert _ | CallDeleteAll | CallDescribeStats => true
  | _ => false
  end.

End Manager.

(** A world in which every call succeeds, with one-dimensional unit
    embeddings, and an index that proposes the rows in order. *)
Definition calm_world : world (vector := unit) :=
  {| w_load_model := λ _, Ret 384%nat;
     w_encode := λ texts, Ret ((λ _, ()) <$> texts);
     w_normalize := λ v, v;
     w_time := λ _, 0%nat;
     w_str := λ _, [];
     w_str_of_list := join (py ", ");
     w_init := λ _ _, Ret ();
     w_list_indexes := Ret [];
     w_create_index := λ _ _, Ret ();
     w_index := λ _, Ret (py "student-cv-index");
     w_upsert := λ _, Ret ();
     w_delete_all := Ret ();
     w_describe_index_stats := Ret (Some 0%nat);
     w_makedirs := λ _, Ret ();
     w_write := λ _, Ret ();
     w_exists := λ _, false;
     w_read_index := λ _, Raise (Failure (py "no such file"));
     w_load_documents := λ _, Raise (Failure (py "no such file"));
     w_load_metadata := λ _, Raise (Failure (py "no such file")) |}.

Definition no_env : string → option pystr := λ _, None.

(** A variable of the environment is provided: set, and not blank. *)
Definition provided (U : unicode) (o : option pystr) : Prop :=
  ∃ s, o = Some s ∧ Exists (λ c, u_isspace U c = false) s.

(** A world whose disk holds one saved store, under any directory. *)
Definition disk_world : world (vector := unit) :=
  {| w_load_model := λ _, Ret 384%nat;
     w_encode := λ texts, Ret ((λ _, ()) <$> texts);
     w_normalize := λ v, v;
     w_time := λ _, 0%nat;
     w_str := λ _, [];
     w_str_of_list := join (py ", ");
     w_init := λ _ _, Ret ();
     w_list_indexes := Ret [];
     w_create_index := λ _ _, Ret ();
     w_index := λ _, Ret (py "student-cv-index");
     w_upsert := λ _, Ret ();
     w_delete_all := Ret ();
     w_describe_index_stats := Ret (Some 0%nat);
     w_makedirs := λ _, Ret ();
     w_write := λ _, Ret ();
     w_exists := λ _, true;
     w_read_index := λ _, Ret [()];
     w_load_documents := λ _, Ret [maria_doc];
     w_load_metadata := λ _, Ret [maria_record] |}.

(** A world whose disk holds an index and nothing else. *)
Definition torn_world : world (vector := unit) :=
  {| w_load_model := λ _, Ret 384%nat;
     w_encode := λ texts, Ret ((λ _, ()) <$> texts);
     w_normalize := λ v, v;
     w_time := λ _, 0%nat;
     w_str := λ _, [];
     w_str_of_list := join (py ", ");
     w_init := λ _ _, Ret ();
     w_list_indexes := Ret [];
     w_create_index := λ _ _, Ret ();
     w_index := λ _, Ret (py "student-cv-index");
     w_upsert := λ _, Ret ();
     w_delete_all := Ret ();
     w_describe_index_stats := Ret (Some 0%nat);
     w_makedirs := λ _, Ret ();
     w_write := λ _, Ret ();
     w_exists := λ path, bool_decide (path = py "vector_store/faiss_index.bin");
     w_read_index := λ _, Ret [()];
     w_load_documents := λ _, Raise (Failure (py "no such file"));
     w_load_metadata := λ _, Raise (Failure (py "no such file")) |}.

Definition maria_store : manager (vector := unit) :=
  {| use_pinecone := false; embedding_dimension := 384;
     faiss_index := Some [()]; documents := [maria_doc];
     document_metadata := [maria_record]; pinecone_index := None |}.

Definition empty_store : manager (vector := unit) :=
  {| use_pinecone := false; embedding_dimension := 384;
     faiss_index := Some []; documents := [];
     document_metadata := []; pinecone_index := None |}.

(** ** document_processor.py: the statistics *)

(** The dictionary that [get_processed_stats] returns for a list of
    documents that is not empty. *)
Record processed_stats := {
  total_documents : nat;
  total_files : nat;
  total_students : nat;
  students_list : list pystr;
  top_skills : list (pystr * nat)
}.

(** [skill_counts[skill] = skill_counts.get(skill, 0) + 1] on a dictionary,
    which keeps its keys in the order of their first insertion. *)
Fixpoint count_skill (skill : pystr) (skill_counts : list (pystr * nat))
    : list (pystr * nat) :=
  match skill_counts with
  | [] => [(skill, 1%nat)]
  | (k, n) :: rest =>
      if decide (k = skill) then (k, S n) :: rest else (k, n) :: count_skill skill rest
  end.

(** [sorted(items, key=lambda x: x[1], reverse=True)]: the sort is stable,
    items with equal counts keep their order. *)
Fixpoint insert_sorted (x : pystr * nat) (l : list (pystr * nat)) : list (pystr * nat) :=
  match l with
  | [] => [x]
  | y :: r => if (y.2 <=? x.2)%nat then x :: y :: r else y :: insert_sorted x r
  end.

Definition sorted_by_count (items : list (pystr * nat)) : list (pystr * nat) :=
  foldr insert_sorted [] items.

(** The skills of all documents, in order. *)
Definition all_skills (documents : list document) : list pystr :=
  documents ≫= λ doc, default [] (md_skills (doc_metadata doc)).

Definition skill_counts (documents : list document) : list (pystr * nat) :=
  foldl (λ counts skill, count_skill skill counts) [] (all_skills documents).

(** [None] is the empty dictionary; [list(set(...))] enumerates in the
    order of the set. *)
Definition get_processed_stats (documents : list document) : option processed_stats :=
  match documents with
  | [] => None
  | _ :: _ =>
      let unique_files : gset pystr :=
        list_to_set ((λ doc, default [] (md_filename (doc_metadata doc))) <$> documents) in
      let unique_students : gset pystr :=
        list_to_set ((λ doc, default [] (md_student_name (doc_metadata doc))) <$> documents) in
      Some {| total_documents := length documents;
              total_files := size unique_files;
              total_students := size unique_students;
              students_list := elements unique_students;
              top_skills := take 10 (sorted_by_count (skill_counts documents)) |}
  end.

(** ** rag_agent.py: the suggestions *)

Definition base_suggestions : list pystr :=
  [ py "¿Qué estudiantes tienes en la base de datos?";
    py "Busca estudiantes con experiencia en Python";
    py "¿Quién tiene conocimientos en Machine Learning?";
    py "Muéstrame información sobre experiencia laboral";
    py "¿Qué estudiantes han estudiado Ingeniería?" ].

(** [documents_stats] is [None], the empty dictionary (both [None] here) or
    the statistics. *)
Definition suggest_queries (documents_stats : option processed_stats) : list pystr :=
  let base_suggestions1 :=
    match documents_stats with
    | Some stats =>
        match students_list stats with
        | [] => base_suggestions
        | _ :: _ =>
            let student_suggestions :=
              (λ name, py "Busca información de " ++ name)
                <$> filter (λ name, name ≠ py "Desconocido") (take 3 (students_list stats)) in
            base_suggestions ++ student_suggestions
        end
    | None => base_suggestions
    end in
  match documents_stats with
  | Some stats =>
      match top_skills stats with
      | [] => base_suggestions1
      | _ :: _ =>
          let skill_suggestions :=
            (λ skill : pystr * nat, py "¿Quién tiene experiencia en " ++ skill.1 ++ py "?")
              <$> take 2 (top_skills stats) in
          base_suggestions1 ++ skill_suggestions
      end
  | None => base_suggestions1
  end.

(** ** app.py: the suggestions on display *)

(** The queries that the buttons of [show_suggested_queries] send;
    [ready] is [rag_agent and documents_processed]. *)
Definition show_suggested_queries (ready : bool)
    (document_stats : option processed_stats) : list pystr :=
  if negb ready then []
  else take 6 (suggest_queries document_stats).

(** How often a text occurs in a list, and how often the documents list a
    skill. *)
Definition occurrences (s : pystr) (l : list pystr) : nat := length (filter (λ x, x = s) l).

(** The count that a dictionary of counts holds for a skill. *)
Fixpoint count_of (counts : list (pystr * nat)) (s : pystr) : option nat :=
  match counts with
  | [] => None
  | (k, n) :: rest => if decide (k = s) then Some n else count_of rest s
  end.

Definition mentions (skill : pystr) (documents : list document) : nat :=
  occurrences skill (all_skills documents).

(** * Properties *)

(** ** The matcher: what a match consumes and captures *)

Section MatcherFacts.

Context (U : unicode).

Lemma plus_from_inv ic a pos rest g e :
  e ∈ plus_from U ic a pos rest g →
  ∃ w, w ≠ [] ∧ Forall (λ c, atom_ok U ic a c = true) w
       ∧ rest = w ++ ms_rest e ∧ ms_pos e = (pos + length w)%nat ∧ ms_grp e = g.
Proof.
  revert pos. induction rest as [|c rest IH]; intros pos; simpl.
  - by intros ?%elem_of_nil.
  - destruct (atom_ok U ic a c) eqn:Hc; [|by intros ?%elem_of_nil].
    rewrite elem_of_app, list_elem_of_singleton. intros [He| ->].
    + destruct (IH _ He) as (w & Hw & Hall & -> & Hpos & Hg).
      exists (c :: w). split_and!; simpl; auto with lia.
    + exists [c]. split_and!; simpl; auto with lia.
Qed.

(** A match consumes a prefix of what is left and moves the position by
    its length. *)
Lemma rmatch_consumes ic r s e :
  e ∈ rmatch U ic r s →
  ∃ w, ms_rest s = w ++ ms_rest e ∧ ms_pos e = (ms_pos s + length w)%nat.
Proof.
  revert s e. induction r as [a| | |a IHa b IHb|a IHa b IHb|a IHa|a|a|a IHa];
    intros s e; simpl.
  - unfold eat. destruct (ms_rest s) as [|c rest] eqn:Hr; [by intros ?%elem_of_nil|].
    destruct (atom_ok U ic a c); [|by intros ?%elem_of_nil].
    intros ->%list_elem_of_singleton. exists [c]. simpl. auto with lia.
  - case_bool_decide; [|by intros ?%elem_of_nil].
    intros ->%list_elem_of_singleton. exists []. auto with lia.
  - intros ->%list_elem_of_singleton. exists []. auto with lia.
  - intros (m & He & Hm)%list_elem_of_bind.
    destruct (IHa _ _ Hm) as (w1 & H1 & P1), (IHb _ _ He) as (w2 & H2 & P2).
    exists (w1 ++ w2). rewrite H1, H2, length_app, <-(assoc_L app). auto with lia.
  - rewrite elem_of_app. intros [?|?]; eauto.
  - rewrite elem_of_app, list_elem_of_singleton. intros [?| ->]; eauto.
    exists []. auto with lia.
  - intros (w & _ & _ & ? & ? & _)%plus_from_inv. eauto.
  - rewrite elem_of_app, list_elem_of_singleton.
    intros [(w & _ & _ & ? & ? & _)%plus_from_inv| ->]; eauto.
    exists []. auto with lia.
  - intros (m & -> & Hm)%list_elem_of_fmap. simpl. eauto.
Qed.

(** Group 1, once set, stays set. *)
Lemma rmatch_grp_mono ic r s e :
  e ∈ rmatch U ic r s → is_Some (ms_grp s) → is_Some (ms_grp e).
Proof.
  revert s e. induction r as [a| | |a IHa b IHb|a IHa b IHb|a IHa|a|a|a IHa];
    intros s e; simpl.
  - unfold eat. destruct (ms_rest s) as [|c rest]; [by intros ?%elem_of_nil|].
    destruct (atom_ok U ic a c); [|by intros ?%elem_of_nil].
    by intros ->%list_elem_of_singleton.
  - case_bool_decide; [|by intros ?%elem_of_nil]. by intros ->%list_elem_of_singleton.
  - by intros ->%list_elem_of_singleton.
  - intros (m & He & Hm)%list_elem_of_bind ?. eauto.
  - rewrite elem_of_app. intros [?|?]; eauto.
  - rewrite elem_of_app, list_elem_of_singleton. intros [?| ->]; eauto.
  - intros (w & _ & _ & _ & _ & ->)%plus_from_inv. done.
  - rewrite elem_of_app, list_elem_of_singleton.
    intros [(w & _ & _ & _ & _ & ->)%plus_from_inv| ->]; done.
  - intros (m & -> & Hm)%list_elem_of_fmap _. simpl. eauto.
Qed.

Lemma rmatch_sets_group ic r s e :
  sets_group r = true → e ∈ rmatch U ic r s → is_Some (ms_grp e).
Proof.
  revert s e. induction r as [a| | |a IHa b IHb|a IHa b IHb|a IHa|a|a|a IHa];
    intros s e; simpl; try done.
  - intros [Ha|Hb]%orb_true_iff (m & He & Hm)%list_elem_of_bind.
    + eapply rmatch_grp_mono; eauto.
    + eauto.
  - intros [Ha Hb]%andb_true_iff. rewrite elem_of_app. intros [?|?]; eauto.
  - intros _ (m & -> & Hm)%list_elem_of_fmap. simpl. eauto.
Qed.

Lemma rmatch_word_groups ic r s e :
  word_groups r = true → e ∈ rmatch U ic r s → grp_ok U s → grp_ok U e.
Proof.
  revert s e. induction r as [a| | |a IHa b IHb|a IHa b IHb|a IHa|a|a|a IHa];
    intros s e; simpl.
  - intros _. unfold eat. destruct (ms_rest s) as [|c rest]; [by intros ?%elem_of_nil|].
    destruct (atom_ok U ic a c); [|by intros ?%elem_of_nil].
    by intros ->%list_elem_of_singleton.
  - intros _. case_bool_decide; [|by intros ?%elem_of_nil].
    by intros ->%list_elem_of_singleton.
  - by intros _ ->%list_elem_of_singleton.
  - intros [Ha Hb]%andb_true_iff (m & He & Hm)%list_elem_of_bind ?. eauto.
  - intros [Ha Hb]%andb_true_iff. rewrite elem_of_app. intros [?|?]; eauto.
  - intros Ha. rewrite elem_of_app, list_elem_of_singleton. intros [?| ->]; eauto.
  - intros _ (w & _ & _ & _ & _ & Hg)%plus_from_inv Hs g. rewrite Hg. apply Hs.
  - intros _. rewrite elem_of_app, list_elem_of_singleton.
    intros [(w & _ & _ & _ & _ & Hg)%plus_from_inv| ->]; [|done].
    intros Hs g. rewrite Hg. apply Hs.
  - destruct a as [| | | | | |[| | |]| |]; try done.
    intros _ (m & -> & Hm)%list_elem_of_fmap _ g. simpl in *.
    apply plus_from_inv in Hm as (w & Hw & Hall & Hr & Hp & _).
    rewrite Hr, Hp. intros [= <-].
    replace (ms_pos s + length w - ms_pos s)%nat with (length w) by lia.
    rewrite take_app_length. done.
Qed.

End MatcherFacts.

(** ** The loops of the decision engine *)

Section EngineFacts.

Context (U : unicode).

Lemma lstrip_keep c r : u_isspace U c = false → lstrip U (c :: r) = c :: r.
Proof. intros H. simpl. by rewrite H. Qed.

Lemma lstrip_spaces s : Forall (λ c, u_isspace U c = true) s → lstrip U s = [].
Proof. induction 1 as [|c s Hc _ IH]; simpl; [done|]. by rewrite Hc. Qed.

(** A string that neither starts nor ends with white space is its own
    [strip()]. *)
Lemma strip_keep s a b :
  head s = Some a → last s = Some b →
  u_isspace U a = false → u_isspace U b = false → strip U s = s.
Proof.
  intros Ha Hb Hsa Hsb. unfold strip, rstrip.
  apply head_Some in Ha as [r ->]. rewrite lstrip_keep by done.
  rewrite <-head_reverse in Hb. apply head_Some in Hb as [r' Hr'].
  rewrite Hr', lstrip_keep by done. by rewrite <-Hr', reverse_involutive.
Qed.

Lemma strip_spaces s : Forall (λ c, u_isspace U c = true) s → strip U s = [].
Proof. intros H. unfold strip, rstrip. rewrite (lstrip_spaces s) by done. reflexivity. Qed.

Lemma strip_wordy g :
  (∀ c, u_isword U c = true → u_isspace U c = false) →
  wordy U g → strip U g = g.
Proof.
  intros Hws [Hne Hall].
  destruct (head g) as [a|] eqn:Ha; [|by apply head_None in Ha].
  destruct (last g) as [b|] eqn:Hb; [|by apply last_None in Hb].
  apply (strip_keep _ a b); auto.
  - apply Hws. apply head_Some_elem_of in Ha. by eapply Forall_forall in Hall.
  - apply Hws. apply last_Some_elem_of in Hb. by eapply Forall_forall in Hall.
Qed.

Lemma match_at_inv ic p pos rest m :
  match_at U ic p pos rest = Some m →
  mt_groups m = pat_groups p ∧
  ∃ e, e ∈ rmatch U ic (pat_re p) {| ms_pos := pos; ms_rest := rest; ms_grp := None |}
       ∧ mt_grp m = ms_grp e.
Proof.
  unfold match_at. intros H. apply bind_Some in H as (e & He & [= <-]).
  split; [done|]. exists e. split; [|done]. by apply head_Some_elem_of.
Qed.

Lemma search_from_inv ic p pos rest m :
  search_from U ic p pos rest = Some m →
  ∃ pos' rest', match_at U ic p pos' rest' = Some m.
Proof.
  revert pos. induction rest as [|c rest IH]; intros pos; simpl;
    destruct (match_at U ic p pos _) eqn:Hm; intros H; simplify_eq; eauto.
Qed.

(** What a match of a capturing pattern carries. *)
Lemma leftmost_capturing ic p s m :
  pat_groups p = 1%nat → sets_group (pat_re p) = true → word_groups (pat_re p) = true →
  leftmost U ic p s = Some m →
  mt_groups m = 1%nat ∧ ∃ g, mt_grp m = Some g ∧ wordy U g.
Proof.
  intros Hg Hs Hw (pos & rest & Hm)%search_from_inv.
  apply match_at_inv in Hm as (Hgm & e & He & Hge).
  split; [congruence|].
  destruct (rmatch_sets_group U _ _ _ _ Hs He) as [g Hgrp].
  exists g. split; [congruence|].
  eapply (rmatch_word_groups U _ _ _ _ Hw He); [|done]. by intros ? [=].
Qed.

Lemma any_match_spec pats s :
  forallb compiles pats = true →
  any_match U pats s = Ret (existsb (λ src, src_matches U src s) pats).
Proof.
  induction pats as [|src pats IH]; simpl; [done|].
  intros [Hc Hp]%andb_true_iff. unfold re_search, src_matches.
  apply bool_decide_eq_true in Hc as [p Hp']. rewrite Hp'. simpl.
  case_bool_decide; simpl; auto.
Qed.

Lemma first_group_spec pats s :
  forallb capturing pats = true →
  if existsb (λ src, src_matches U src s) pats
  then ∃ g, wordy U g ∧ first_group U pats s = Ret (Some (strip U g))
  else first_group U pats s = Ret None.
Proof.
  induction pats as [|src pats IH]; simpl; [done|].
  intros [Hc Hp]%andb_true_iff. specialize (IH Hp).
  unfold re_search, src_matches at 1. unfold capturing in Hc.
  destruct (re_compile src) as [p|]; [|done]. simpl.
  apply andb_true_iff in Hc as [[Hg%bool_decide_eq_true Hs]%andb_true_iff Hw].
  destruct (leftmost U true p s) as [m|] eqn:Hm; simpl; [|done].
  destruct (leftmost_capturing _ _ _ _ Hg Hs Hw Hm) as (Hgm & g & Hgrp & Hwordy).
  exists g. split; [done|]. unfold group1. rewrite Hgm, Hgrp. done.
Qed.

Lemma patterns_compile t : forallb compiles (patterns t) = true.
Proof. destruct t; vm_compute; reflexivity. Qed.

Lemma student_patterns_capture : forallb capturing (patterns STUDENT_SEARCH) = true.
Proof. vm_compute; reflexivity. Qed.

Lemma skill_patterns_capture : forallb capturing skill_patterns = true.
Proof. vm_compute; reflexivity. Qed.

Lemma match_patterns_spec s t : _match_patterns U s t = Ret (rule_matches U t s).
Proof. apply any_match_spec, patterns_compile. Qed.

Lemma extract_student_name_spec s :
  if rule_matches U STUDENT_SEARCH s
  then ∃ g, wordy U g ∧ _extract_student_name U s = Ret (Some (strip U g))
  else _extract_student_name U s = Ret None.
Proof. apply first_group_spec, student_patterns_capture. Qed.

Lemma extract_skill_total s : ∃ o, _extract_skill U s = Ret o.
Proof.
  pose proof (first_group_spec skill_patterns s skill_patterns_capture) as H.
  unfold _extract_skill. destruct (existsb _ _); [destruct H as (g & _ & ->)|rewrite H]; eauto.
Qed.

End EngineFacts.

Lemma bind_Ret {A B} (a : A) (f : A → outcome B) : (Ret a ≫= f) = f a.
Proof. reflexivity. Qed.

Arguments rule_matches : simpl never.

(** ** [analyze_query] as a cascade over the rules *)

Section Classifier.

Context (U : unicode).

Lemma analyze_query_unfold q :
  analyze_query U q =
  let s := normalized U q in
  if rule_matches U GREETING s then Ret (GREETING, ∅)
  else
    match _extract_student_name U s with
    | Ret student_match =>
        if truthy student_match
        then Ret (STUDENT_SEARCH, {["student_name" := default [] student_match]})
        else if rule_matches U SKILL_QUERY s then
          match _extract_skill U s with
          | Ret skill_match =>
              Ret (SKILL_QUERY,
                   if truthy skill_match
                   then {["skill" := default [] skill_match]} else ∅)
          | Raise e => Raise e
          end
        else if rule_matches U EXPERIENCE_QUERY s then Ret (EXPERIENCE_QUERY, ∅)
        else if rule_matches U EDUCATION_QUERY s then Ret (EDUCATION_QUERY, ∅)
        else if rule_matches U CONTACT_QUERY s then Ret (CONTACT_QUERY, ∅)
        else Ret (GENERAL_INFO, ∅)
    | Raise e => Raise e
    end.
Proof.
  unfold analyze_query. cbv zeta. fold (normalized U q).
  rewrite !match_patterns_spec. reflexivity.
Qed.

Lemma analyze_query_greeting q :
  rule_matches U GREETING (normalized U q) = true →
  analyze_query U q = Ret (GREETING, ∅).
Proof. intros H. rewrite analyze_query_unfold. cbv zeta. by rewrite H. Qed.

Lemma analyze_query_total q :
  ∃ c e, analyze_query U q = Ret (c, e) ∧ c ≠ UNKNOWN.
Proof.
  rewrite analyze_query_unfold. cbv zeta. set (s := normalized U q).
  pose proof (extract_student_name_spec U s) as Hst.
  destruct (extract_skill_total U s) as [o ->].
  destruct (rule_matches U GREETING s);
    [eexists _, _; split; [reflexivity|discriminate]|].
  assert (∃ o', _extract_student_name U s = Ret o') as [o' ->].
  { destruct (rule_matches U STUDENT_SEARCH s); [destruct Hst as (g & _ & ->)|]; eauto. }
  destruct (truthy o');
    [eexists _, _; split; [reflexivity|discriminate]|].
  destruct (rule_matches U SKILL_QUERY s);
    [eexists _, _; split; [reflexivity|discriminate]|].
  destruct (rule_matches U EXPERIENCE_QUERY s);
    [eexists _, _; split; [reflexivity|discriminate]|].
  destruct (rule_matches U EDUCATION_QUERY s);
    [eexists _, _; split; [reflexivity|discriminate]|].
  destruct (rule_matches U CONTACT_QUERY s);
    eexists _, _; (split; [reflexivity|discriminate]).
Qed.

Lemma analyze_query_no_match q :
  (∀ t, rule_matches U t (normalized U q) = false) →
  analyze_query U q = Ret (GENERAL_INFO, ∅).
Proof.
  intros H. rewrite analyze_query_unfold. cbv zeta.
  pose proof (extract_student_name_spec U (normalized U q)) as Hst.
  rewrite (H STUDENT_SEARCH) in Hst. by rewrite !H, Hst.
Qed.

Lemma analyze_query_first_matching q :
  (∀ c, u_isword U c = true → u_isspace U c = false) →
  ∃ e, analyze_query U q = Ret (first_matching U (normalized U q), e).
Proof.
  intros Hws. rewrite analyze_query_unfold. unfold first_matching, priority. cbv zeta.
  set (s := normalized U q). cbn [List.find].
  pose proof (extract_student_name_spec U s) as Hst.
  destruct (extract_skill_total U s) as [o ->].
  destruct (rule_matches U GREETING s); [by eexists|].
  destruct (rule_matches U STUDENT_SEARCH s).
  { destruct Hst as (g & Hg & ->). rewrite (strip_wordy U g Hws Hg).
    destruct Hg as [Hne _]. destruct g; [done|]. by eexists. }
  rewrite Hst. cbn [truthy].
  destruct (rule_matches U SKILL_QUERY s); [by eexists|].
  destruct (rule_matches U EXPERIENCE_QUERY s); [by eexists|].
  destruct (rule_matches U EDUCATION_QUERY s); [by eexists|].
  destruct (rule_matches U CONTACT_QUERY s); by eexists.
Qed.

End Classifier.

(** ** Running the matcher on a known prefix *)

Lemma list_bind_assoc {A B C} (f : A → list B) (g : B → list C) (l : list A) :
  (l ≫= f) ≫= g = l ≫= (λ x, f x ≫= g).
Proof. induction l as [|x l IH]; csimpl; [done|]. by rewrite bind_app, IH. Qed.

Lemma busca_prefix :
  py "busca estudiante llamado "
  = [98; 117; 115; 99; 97; 32; 101; 115; 116; 117; 100; 105; 97; 110; 116; 101; 32;
     108; 108; 97; 109; 97; 100; 111; 32].
Proof. vm_compute. reflexivity. Qed.

(** A property of code points below a bound, checked on each of them. *)
Lemma bounded_forall (n : nat) (P : cp → bool) :
  forallb P (N.of_nat <$> seq 0 n) = true → ∀ c, c < N.of_nat n → P c = true.
Proof.
  intros H c Hc. rewrite forallb_forall in H. apply H.
  apply list_elem_of_In, list_elem_of_fmap. exists (N.to_nat c).
  split; [lia|]. apply elem_of_seq. lia.
Qed.

Lemma ascii_letter_lower c :
  ascii_letter c = true →
  c < 128 ∧ latin1_lower_cp c < 128 ∧ uni_isspace (latin1_lower_cp c) = false
  ∧ latin1_isword (latin1_lower_cp c) = true.
Proof.
  intros Hc.
  assert (c < 128) as Hlt.
  { unfold ascii_letter, between in Hc.
    rewrite orb_true_iff, !andb_true_iff, !N.leb_le in Hc. lia. }
  pose proof (bounded_forall 128
    (λ c, implb (ascii_letter c)
            ((latin1_lower_cp c <? 128) && negb (uni_isspace (latin1_lower_cp c))
             && latin1_isword (latin1_lower_cp c)))) as H.
  specialize (H ltac:(vm_compute; reflexivity) c Hlt). cbv beta in H.
  rewrite Hc in H. simpl in H.
  apply andb_true_iff in H as [[H1%N.ltb_lt H2%negb_true_iff]%andb_true_iff H3]. done.
Qed.

(** The matcher followed by a continuation, one construct at a time. *)
Section Stepping.

Context (U : unicode).
Context {A : Type}.
Implicit Types (k : mstate → list A).

Lemma step_seq ic a b s k :
  rmatch U ic (RSeq a b) s ≫= k = rmatch U ic a s ≫= (λ s', rmatch U ic b s' ≫= k).
Proof. simpl. apply list_bind_assoc. Qed.

Lemma step_alt ic a b s k :
  rmatch U ic (RAlt a b) s ≫= k = (rmatch U ic a s ≫= k) ++ (rmatch U ic b s ≫= k).
Proof. simpl. apply bind_app. Qed.

Lemma step_opt ic a s k :
  rmatch U ic (ROpt a) s ≫= k = (rmatch U ic a s ≫= k) ++ k s.
Proof. simpl. by rewrite bind_app, bind_singleton. Qed.

Lemma step_bol ic rest g k :
  rmatch U ic RBol {| ms_pos := 0; ms_rest := rest; ms_grp := g |} ≫= k
  = k {| ms_pos := 0; ms_rest := rest; ms_grp := g |}.
Proof. simpl. apply bind_singleton. Qed.

Lemma step_atom ic a pos c t g k :
  rmatch U ic (RAtom a) {| ms_pos := pos; ms_rest := c :: t; ms_grp := g |} ≫= k
  = if atom_ok U ic a c
    then k {| ms_pos := S pos; ms_rest := t; ms_grp := g |} else [].
Proof. simpl. unfold eat. simpl. destruct (atom_ok _ _ _ _); [apply bind_singleton|done]. Qed.

Lemma step_plus ic a pos c t g k :
  rmatch U ic (RPlus a) {| ms_pos := pos; ms_rest := c :: t; ms_grp := g |} ≫= k
  = if atom_ok U ic a c
    then (rmatch U ic (RPlus a) {| ms_pos := S pos; ms_rest := t; ms_grp := g |} ≫= k)
         ++ k {| ms_pos := S pos; ms_rest := t; ms_grp := g |}
    else [].
Proof.
  simpl. destruct (atom_ok _ _ _ _); [|done]. by rewrite bind_app, bind_singleton.
Qed.

Lemma step_group ic a s k :
  rmatch U ic (RGroup a) s ≫= k = rmatch U ic a s ≫= (λ e, k (capture s e)).
Proof. simpl. induction (rmatch U ic a s); csimpl; [done|]. by f_equal. Qed.

(** A repetition whose first character does not fit yields nothing. *)
Lemma plus_from_stop ic a pos c t g :
  atom_ok U ic a c = false → plus_from U ic a pos (c :: t) g = [].
Proof. intros H. simpl. by rewrite H. Qed.

(** A repetition that fits the whole rest of the subject takes all of it
    first. *)
Lemma plus_from_all ic a pos w g :
  w ≠ [] → Forall (λ c, atom_ok U ic a c = true) w →
  ∃ l, plus_from U ic a pos w g
       = {| ms_pos := (pos + length w)%nat; ms_rest := []; ms_grp := g |} :: l.
Proof.
  intros Hne Hall. revert pos. induction Hall as [|c w Hc Hall IH]; [done|].
  intros pos. simpl. rewrite Hc. destruct w as [|c' w].
  - simpl. exists []. do 2 f_equal. lia.
  - destruct (IH ltac:(done) (S pos)) as [l ->]. eexists. simpl.
    do 2 f_equal. lia.
Qed.

End Stepping.

(** The query "busca estudiante llamado X" under tables that agree with
    ASCII. *)
Section Symbolic.
Context (U : unicode) (HU : ascii_compatible U).

(** On ASCII the tables decide an item as [latin1] does. *)
Lemma atom_ok_ascii a c :
  ascii_atom a = true → c < 128 → atom_ok U true a c = atom_ok latin1 true a c.
Proof.
  intros Ha Hc. destruct a as [p|neg cs| |]; simpl in *.
  - apply (ac_ieq U HU); [by apply N.ltb_lt|done].
  - f_equal. induction cs as [|p cs IH]; simpl in *; [done|].
    apply andb_true_iff in Ha as [Hp Hcs]. rewrite IH by done. f_equal.
    apply (ac_ieq U HU); [by apply N.ltb_lt|done].
  - by apply (ac_isspace U HU).
  - by apply (ac_isword U HU).
Qed.

(** A pattern anchored with [^] matches at the start of the subject only. *)
Lemma search_from_bol ic r g rest pos :
  search_from U ic {| pat_re := RSeq RBol r; pat_groups := g |} (S pos) rest = None.
Proof.
  revert pos. induction rest as [|c rest IH]; intros pos; simpl; auto.
Qed.

Lemma leftmost_bol ic r g s :
  leftmost U ic {| pat_re := RSeq RBol r; pat_groups := g |} s =
  match_at U ic {| pat_re := RSeq RBol r; pat_groups := g |} 0 s.
Proof.
  unfold leftmost. destruct s; simpl.
  - by destruct (match_at _ _ _ _ _).
  - destruct (match_at _ _ _ _ _); [done|]. apply search_from_bol.
Qed.

Ltac decide_atoms :=
  repeat match goal with
  | |- context [atom_ok U true ?a ?c] =>
      rewrite (atom_ok_ascii a c) by reflexivity;
      let b := eval vm_compute in (atom_ok latin1 true a c) in
      change (atom_ok latin1 true a c) with b
  end; cbv iota.

Ltac step :=
  first [ rewrite step_seq | rewrite step_alt | rewrite step_opt | rewrite step_bol
        | rewrite step_atom | rewrite step_plus | rewrite step_group ];
  cbv beta; decide_atoms; rewrite ?app_nil_l, ?app_nil_r.

Ltac compile_pattern :=
  match goal with |- context [re_compile ?s] =>
    let c := eval vm_compute in (re_compile s) in change (re_compile s) with c
  end; cbv beta iota.

Lemma rmatch_bind_ret ic r s : rmatch U ic r s = rmatch U ic r s ≫= λ e, [e].
Proof. induction (rmatch U ic r s); csimpl; [done|]. by f_equal. Qed.

(** No greeting rule matches a text that starts with "bus". *)
Lemma greeting_not_bus t : rule_matches U GREETING (98 :: 117 :: 115 :: t) = false.
Proof.
  unfold rule_matches, patterns, existsb, src_matches.
  repeat (compile_pattern; rewrite leftmost_bol; unfold match_at; cbn [pat_re];
          rewrite rmatch_bind_ret; repeat step; cbn [head mbind option_bind]).
  done.
Qed.

(** The first student rule matches the whole text, with the name in
    group 1, and this is the first match the engine finds. *)
Lemma student_rule_1 p Y :
  re_compile "busca[r]?\s+estudiante[s]?\s+(?:llamado[s]?|de nombre|que se llam[ae])\s+(\w+)" = Some p →
  Y ≠ [] → Forall lower_letter Y →
  ∃ l, rmatch U true (pat_re p)
         {| ms_pos := 0; ms_rest := py "busca estudiante llamado " ++ Y; ms_grp := None |}
       = {| ms_pos := 25 + length Y; ms_rest := []; ms_grp := Some Y |} :: l.
Proof.
  intros Hp Hne HY. vm_compute in Hp. injection Hp as <-.
  rewrite busca_prefix. cbn [pat_re app]. rewrite rmatch_bind_ret. repeat step.
  cbn [rmatch ms_pos ms_rest ms_grp].
  assert (Forall (λ c, atom_ok U true AWord c = true) Y) as Hword.
  { eapply Forall_impl; [exact HY|]. intros y (Hy & _ & Hw). simpl.
    by rewrite (ac_isword U HU). }
  destruct (plus_from_all U true AWord 25 Y None Hne Hword) as [l ->].
  destruct Y as [|y Y']; [done|].
  rewrite plus_from_stop.
  2:{ apply Forall_cons in HY as [(Hy & Hs & _) _]. simpl.
      by rewrite (ac_isspace U HU). }
  csimpl. eexists. f_equal. unfold capture. simpl. f_equal.
  replace (S (25 + length Y') - 25)%nat with (S (length Y')) by lia.
  simpl. by rewrite take_ge.
Qed.

Lemma first_group_cons src pats s :
  first_group U (src :: pats) s
  = re_search U src s true ≫= λ m,
      match m with
      | Some mt => g ← group1 mt; x ← strip_method U g; Ret (Some x)
      | None => first_group U pats s
      end.
Proof. reflexivity. Qed.

Lemma extract_student_name_busca Y :
  Y ≠ [] → Forall lower_letter Y →
  _extract_student_name U (py "busca estudiante llamado " ++ Y) = Ret (Some (strip U Y)).
Proof.
  intros Hne HY. unfold _extract_student_name, patterns.
  rewrite first_group_cons. unfold re_search at 1.
  destruct (re_compile "busca[r]?\s+estudiante[s]?\s+(?:llamado[s]?|de nombre|que se llam[ae])\s+(\w+)")
    as [p|] eqn:Hp; [|by vm_compute in Hp].
  destruct (student_rule_1 p Y Hp Hne HY) as [l Hl].
  assert (pat_groups p = 1%nat) as Hg by (vm_compute in Hp; by injection Hp as <-).
  rewrite bind_Ret. unfold leftmost.
  assert (match_at U true p 0 (py "busca estudiante llamado " ++ Y)
          = Some {| mt_start := 0; mt_end := 25 + length Y; mt_grp := Some Y;
                    mt_groups := 1 |}) as Hm.
  { unfold match_at. rewrite Hl, Hg. done. }
  rewrite busca_prefix in *. cbn [app] in *. cbn [search_from]. rewrite Hm. done.
Qed.

Lemma strip_wordy_letters Y :
  Y ≠ [] → Forall lower_letter Y → strip U Y = Y.
Proof.
  intros Hne HY.
  destruct (head Y) as [a|] eqn:Ha; [|by apply head_None in Ha].
  destruct (last Y) as [b|] eqn:Hb; [|by apply last_None in Hb].
  apply (strip_keep U _ a b); auto.
  - apply head_Some_elem_of in Ha.
    eapply Forall_forall in HY as (? & ? & ?); [|done]. by rewrite (ac_isspace U HU).
  - apply last_Some_elem_of in Hb.
    eapply Forall_forall in HY as (? & ? & ?); [|done]. by rewrite (ac_isspace U HU).
Qed.

(** Lower-cased ASCII letters neither are white space nor fall outside \w. *)
Lemma lowered_letters X :
  Forall (λ c, ascii_letter c = true) X →
  Forall (λ c, c < 128) X ∧ Forall lower_letter (latin1_lower_cp <$> X).
Proof.
  induction 1 as [|c X Hc _ [IH1 IH2]]; [by split; constructor|].
  destruct (ascii_letter_lower c Hc) as (? & ? & ? & ?).
  split; constructor; done.
Qed.

Lemma normalized_busca X :
  X ≠ [] → Forall (λ c, ascii_letter c = true) X →
  normalized U (py "busca estudiante llamado " ++ X)
  = py "busca estudiante llamado " ++ (latin1_lower_cp <$> X).
Proof.
  intros Hne HX. destruct (lowered_letters X HX) as [Hlt HY].
  unfold normalized. rewrite (ac_lower U HU).
  2:{ apply Forall_app. split; [|done].
      assert (forallb (λ c, c <? 128) (py "busca estudiante llamado ") = true) as Hb
        by (by vm_compute).
      rewrite forallb_forall in Hb. apply Forall_forall.
      intros c Hin%list_elem_of_In. by apply N.ltb_lt, Hb. }
  rewrite fmap_app.
  replace (latin1_lower_cp <$> py "busca estudiante llamado ")
    with (py "busca estudiante llamado ") by (by vm_compute).
  assert (∃ b, last (latin1_lower_cp <$> X) = Some b) as [b Hb].
  { apply last_is_Some. by destruct X. }
  rewrite busca_prefix.
  apply (strip_keep U _ 98 b).
  - done.
  - by rewrite last_app, Hb.
  - by rewrite (ac_isspace U HU).
  - apply last_Some_elem_of in Hb.
    eapply Forall_forall in HY as (? & ? & ?); [|done].
    by rewrite (ac_isspace U HU).
Qed.

Lemma greeting_busca Y :
  rule_matches U GREETING (py "busca estudiante llamado " ++ Y) = false.
Proof. rewrite busca_prefix. apply greeting_not_bus. Qed.

Lemma analyze_query_busca X :
  X ≠ [] → Forall (λ c, ascii_letter c = true) X →
  analyze_query U (py "busca estudiante llamado " ++ X)
  = Ret (STUDENT_SEARCH, {["student_name" := latin1_lower_cp <$> X]}).
Proof.
  intros Hne HX. destruct (lowered_letters X HX) as [Hlt HY].
  assert (latin1_lower_cp <$> X ≠ []) as HneY by (by destruct X).
  rewrite analyze_query_unfold, normalized_busca by done. cbv zeta.
  rewrite extract_student_name_busca by done.
  rewrite greeting_busca, (strip_wordy_letters _ HneY HY).
  destruct (latin1_lower_cp <$> X); done.
Qed.
End Symbolic.

(** ** The tables of [latin1] *)

Lemma latin1_ascii_compatible : ascii_compatible latin1.
Proof. by split. Qed.

Lemma latin1_word_not_space c : latin1_isword c = true → uni_isspace c = false.
Proof.
  intros Hw.
  assert (c < 256) as Hlt.
  { unfold latin1_isword, between in Hw.
    rewrite !orb_true_iff, !andb_true_iff, !N.leb_le, !N.eqb_eq in Hw. lia. }
  pose proof (bounded_forall 256 (λ c, implb (latin1_isword c) (negb (uni_isspace c)))) as H.
  specialize (H ltac:(vm_compute; reflexivity) c Hlt). cbv beta in H.
  rewrite Hw in H. by apply negb_true_iff in H.
Qed.

Lemma latin1_lower_space s :
  Forall (λ c, uni_isspace c = true) s →
  Forall (λ c, uni_isspace c = true) (latin1_lower_cp <$> s).
Proof.
  intros H. apply Forall_fmap. eapply Forall_impl; [exact H|].
  intros c Hc. simpl.
  assert (latin1_lower_cp c = c) as ->; [|done].
  unfold latin1_lower_cp, uni_isspace, between in *.
  rewrite !orb_true_iff, !andb_true_iff, !N.leb_le, !N.eqb_eq in Hc.
  destruct (_ || _) eqn:Hb; [|done].
  rewrite !orb_true_iff, !andb_true_iff, !N.leb_le in Hb. lia.
Qed.

(** ** Substrings *)

Lemma is_prefix_spec n h : is_prefix n h = true ↔ ∃ post, h = n ++ post.
Proof.
  revert h. induction n as [|a n IH]; intros h; simpl.
  - split; eauto.
  - destruct h as [|b h].
    + split; [done|]. by intros [? ?].
    + rewrite andb_true_iff, N.eqb_eq, IH. split.
      * intros [-> [post ->]]. eauto.
      * intros [post [= -> ->]]. eauto.
Qed.

Lemma pyin_spec n h : pyin n h = true ↔ substring n h.
Proof.
  unfold substring. induction h as [|b h IH]; simpl.
  - rewrite orb_false_r, is_prefix_spec. split.
    + intros [post ->]. by exists [], post.
    + intros (pre & post & H). symmetry in H.
      apply app_eq_nil in H as [-> [-> ->]%app_eq_nil]. by exists [].
  - rewrite orb_true_iff, is_prefix_spec, IH. split.
    + intros [[post ->]|(pre & post & ->)].
      * by exists [], post.
      * by exists (b :: pre), post.
    + intros ([|c pre] & post & H).
      * left. by exists post.
      * right. injection H as -> ->. eauto.
Qed.

(** ** Strategy resolver *)

(** C2. For every category and entity set the resolver returns the row of
    the mapping table: the retrieval flag and the template always, and the
    result count and the filter wherever the table gives them. *)
Theorem get_search_strategy_table (c : QueryType) (entities : gmap string pystr) :
  let s := get_search_strategy c entities in
  let row := mapping_table c in
  use_vector_search s = row_uses_retrieval row
  ∧ response_template s = row_template row
  ∧ (∀ n, row_result_count row = Some n → max_results s = n)
  ∧ (row_uses_retrieval row = true → search_filters s = row_filters row entities).
Proof.
  destruct c; simpl; split_and!; try done; by intros n [= <-].
Qed.

(** ** The local filter *)

Lemma filters_get_truthy (filters : gmap string (option pystr)) k :
  truthy (filters_get filters k) = true
  ↔ ∃ v, filters !! k = Some (Some v) ∧ v ≠ [].
Proof.
  unfold filters_get. destruct (filters !! k) as [[[|a v]|]|]; simpl; split;
    try done; try (by intros (? & [= <-] & ?)); eauto.
Qed.

(** C3, as the code has it. The local filter accepts a record exactly when
    both conditions hold: a non-empty [student_name] filter occurs, case
    folded, inside the record's name, and a non-empty [skill] filter occurs,
    case folded, inside the record's skills joined by spaces. *)
Theorem apply_filters_conjunction (U : unicode) (md : metadata)
    (filters : gmap string (option pystr)) :
  _apply_filters U md filters = true ↔
    (∀ n, filters !! "student_name" = Some (Some n) → n ≠ [] →
          substring (u_lower U n) (u_lower U (default [] (md_student_name md))))
    ∧ (∀ k, filters !! "skill" = Some (Some k) → k ≠ [] →
          substring (u_lower U k)
                    (u_lower U (join (py " ") (default [] (md_skills md))))).
Proof.
  unfold _apply_filters. case_bool_decide as Hempty.
  { subst. split; [|done]. intros _. split; intros ? H; by rewrite lookup_empty in H. }
  destruct (truthy (filters_get filters "student_name")) eqn:Hn.
  - apply filters_get_truthy in Hn as (n & Hn & Hne).
    assert (filters_get filters "student_name" = Some n) as ->
      by (unfold filters_get; by rewrite Hn).
    simpl. destruct (pyin (u_lower U n) _) eqn:Hin; simpl.
    + apply pyin_spec in Hin.
      destruct (truthy (filters_get filters "skill")) eqn:Hk.
      * apply filters_get_truthy in Hk as (k & Hk & Hke).
        assert (filters_get filters "skill" = Some k) as ->
          by (unfold filters_get; by rewrite Hk).
        simpl. destruct (pyin (u_lower U k) _) eqn:Hin'; simpl.
        -- apply pyin_spec in Hin'. split; [|done]. intros _.
           split; intros ? H; rewrite ?Hn, ?Hk in H; by injection H as <-.
        -- split; [done|]. intros [_ H]. apply (H k Hk) in Hke.
           apply pyin_spec in Hke. congruence.
      * simpl. split; [|done]. intros _. split.
        -- intros ? H. rewrite Hn in H. by injection H as <-.
        -- intros k H Hke. assert (truthy (filters_get filters "skill") = true)
             by (apply filters_get_truthy; eauto). congruence.
    + split; [done|]. intros [H _]. apply (H n Hn) in Hne.
      apply pyin_spec in Hne. congruence.
  - simpl. assert (∀ n, filters !! "student_name" = Some (Some n) → n ≠ [] → False) as Hno.
    { intros n H Hne. assert (truthy (filters_get filters "student_name") = true)
        by (apply filters_get_truthy; eauto). congruence. }
    destruct (truthy (filters_get filters "skill")) eqn:Hk.
    + apply filters_get_truthy in Hk as (k & Hk & Hke).
      assert (filters_get filters "skill" = Some k) as ->
        by (unfold filters_get; by rewrite Hk).
      simpl. destruct (pyin (u_lower U k) _) eqn:Hin'; simpl.
      * apply pyin_spec in Hin'. split; [|done]. intros _. split.
        -- intros n H Hne. by destruct (Hno n).
        -- intros ? H. rewrite Hk in H. by injection H as <-.
      * split; [done|]. intros [_ H]. apply (H k Hk) in Hke.
        apply pyin_spec in Hke. congruence.
    + simpl. split; [|done]. intros _. split.
      * intros n H Hne. by destruct (Hno n).
      * intros k H Hke. assert (truthy (filters_get filters "skill") = true)
          by (apply filters_get_truthy; eauto). congruence.
Qed.

(** C3 as stated fails: the filter that the resolver builds for the name
    [maria] accepts a record whose name is [Maria], which is not equal to
    it. *)
Lemma name_filter_is_not_equality :
  _apply_filters latin1 maria_record maria_filter = true
  ∧ md_student_name maria_record ≠ Some (py "maria").
Proof. split; [by vm_compute|]. vm_compute. discriminate. Qed.

(** A filter and a record on which the local post-filter and a comparison
    of the names for equality part: with the record as the only stored
    passage the local search returns it, and the condition built for the
    managed index, an [$eq] on the name, does not hold of it when [$eq] is
    read as equality of values, as [pinecone_cond_ok] reads it. What the
    managed index itself does with the condition is outside the
    repository. *)
Lemma backends_disagree_on_name
    (str_of_list : list pystr → pystr) (regex_op : pystr → pystr → bool) :
  _apply_filters latin1 (doc_metadata maria_doc) maria_filter = true
  ∧ _search_faiss latin1 (λ _, [((), 0%Z)]) 1 [maria_doc] [maria_record] 1 maria_filter
    = Ret [ {| content := py "Maria"; hit_metadata := maria_record; hit_score := () |} ]
  ∧ pinecone_filters maria_filter = Some {["student_name" := PcEq (py "maria")]}
  ∧ pinecone_accepts regex_op (pinecone_filters maria_filter)
      (pinecone_metadata str_of_list maria_doc) = false.
Proof. split_and!; by vm_compute. Qed.

(** ** Confidence *)

(** C9. The label is "high" exactly when the context is longer than 1000
    and the answer does not contain the marker; otherwise "medium" exactly
    when the context is longer than 500; otherwise "low". *)
Theorem calculate_confidence_spec (context answer : pystr) :
  let high := (1000 < length context)%nat ∧ ¬ substring (py "Desconocido") answer in
  let medium := (500 < length context)%nat in
  (_calculate_confidence context answer = "high" ↔ high)
  ∧ (_calculate_confidence context answer = "medium" ↔ ¬ high ∧ medium)
  ∧ (_calculate_confidence context answer = "low" ↔ ¬ high ∧ ¬ medium).
Proof.
  cbv zeta. unfold _calculate_confidence. rewrite <-pyin_spec.
  destruct (pyin (py "Desconocido") answer) eqn:Hm;
    repeat case_bool_decide; subst; simpl in *;
    split_and!; (split; [try done|]); try (intros [? ?]); try done; try lia;
    try (intros _; split; [|done || lia]; intros [? ?]; done || lia).
  all: try (split; [done || lia|done || lia]).
Qed.

(** ** The branches of [query] *)

Section AgentFacts.

Context (U : unicode) {score : Type} (fmt : score → pystr) (C : collab (score := score)).

Lemma query_non_rag q c e σ :
  analyze_query U q = Ret (c, e) → should_use_rag c = false →
  query U fmt C q σ = (Ret (_handle_non_rag_query c q), σ).
Proof.
  intros Ha Hr. unfold query, mbind, M_bind, bind, lift. rewrite Ha. simpl.
  by rewrite Hr.
Qed.

Lemma query_search_outcome q c e σ :
  analyze_query U q = Ret (c, e) → should_use_rag c = true →
  let s := get_search_strategy c e in
  let σ' := logged (EvSearch q (max_results s) (search_filters s)) σ in
  match vs_search C q (max_results s) (search_filters s) with
  | Raise x => query U fmt C q σ = (Raise x, σ')
  | Ret [] => query U fmt C q σ = (Ret (no_results_reply c), σ')
  | Ret (_ :: _) => True
  end.
Proof.
  intros Ha Hr. cbv zeta.
  unfold query, mbind, M_bind, bind, lift. rewrite Ha. simpl. rewrite Hr. simpl.
  unfold vector_store_search, mbind, M_bind, bind, lift, emit. simpl.
  destruct (vs_search C q _ _) as [[|h l]|x]; done.
Qed.

(** The synthesis step catches whatever is raised inside it. *)
Lemma generate_response_returns question context c s σ :
  ∃ r σ', _generate_response U C question context c s σ = (Ret r, σ').
Proof.
  unfold _generate_response, try_except.
  match goal with |- context [match ?m σ with _ => _ end] =>
    destruct (m σ) as [[r|x] σ'] end; [by eauto|].
  unfold mbind, M_bind, bind, emit, ret. simpl. eauto.
Qed.

Lemma generate_response_llm_down question context c s σ :
  (∀ prompt, ∃ x, llm_invoke C prompt = Raise x) →
  ∃ σ', _generate_response U C question context c s σ = (Ret (error_reply c), σ').
Proof.
  intros Hdown. unfold _generate_response, try_except.
  unfold mbind at 1. unfold M_bind, bind, lift.
  destruct (format system_prompt _) as [prompt|x]; simpl.
  - unfold invoke, mbind, M_bind, bind, lift, emit. simpl.
    destruct (Hdown prompt) as [x ->]. simpl. eauto.
  - eauto.
Qed.

End AgentFacts.

(** ** The classifier and the orchestration *)

Section Claims.

Context (U : unicode).

(** C1. The category is the first one, in the order greeting, student,
    skill, experience, education, contact, with a rule that matches the
    normalised input, and general-info when there is none; an input that
    matches a greeting rule is classified as a greeting with no entities,
    and the query then returns the canned reply and leaves the agent as it
    was: nothing is sent to the gateway. *)
Theorem classify_priority (q : pystr) :
  (∀ c, u_isword U c = true → u_isspace U c = false) →
  (∃ e, analyze_query U q = Ret (first_matching U (normalized U q), e))
  ∧ (rule_matches U GREETING (normalized U q) = true →
     analyze_query U q = Ret (GREETING, ∅)
     ∧ ∀ (score : Type) (fmt : score → pystr) (C : collab (score := score)) σ,
         query U fmt C q σ = (Ret greeting_reply, σ)).
Proof.
  intros Hws. split; [by apply analyze_query_first_matching|].
  intros Hg. pose proof (analyze_query_greeting U q Hg) as Ha.
  split; [done|]. intros score fmt C σ.
  by rewrite (query_non_rag U fmt C q GREETING ∅ σ Ha).
Qed.

(** C5. Classification always returns; it returns general-info with no
    entities when no rule matches, and in particular on input that is
    empty or white space only. *)
Theorem classify_total (q : pystr) :
  (∃ c e, analyze_query U q = Ret (c, e))
  ∧ ((∀ t, rule_matches U t (normalized U q) = false) →
     analyze_query U q = Ret (GENERAL_INFO, ∅))
  ∧ ((∀ s, Forall (λ c, u_isspace U c = true) s →
           Forall (λ c, u_isspace U c = true) (u_lower U s)) →
     Forall (λ c, u_isspace U c = true) q →
     analyze_query U q = Ret (GENERAL_INFO, ∅)).
Proof.
  split_and!.
  - destruct (analyze_query_total U q) as (c & e & H & _). eauto.
  - apply analyze_query_no_match.
  - intros Hlow Hq. apply analyze_query_no_match. intros t.
    unfold normalized. rewrite strip_spaces by auto.
    destruct t; by vm_compute.
Qed.

(** C10. The category is one of the seven, never [UNKNOWN]; so when the
    query takes the branch without retrieval the category is the greeting
    and the reply is the canned greeting, not the fallback. *)
Theorem classify_never_unknown (q : pystr) :
  ∃ c e, analyze_query U q = Ret (c, e)
    ∧ c ∈ [GREETING; STUDENT_SEARCH; SKILL_QUERY; EXPERIENCE_QUERY;
           EDUCATION_QUERY; CONTACT_QUERY; GENERAL_INFO]
    ∧ c ≠ UNKNOWN
    ∧ (should_use_rag c = false →
       c = GREETING
       ∧ ∀ (score : Type) (fmt : score → pystr) (C : collab (score := score)) σ,
           query U fmt C q σ = (Ret greeting_reply, σ)
           ∧ answer greeting_reply ≠ not_understood_answer).
Proof.
  destruct (analyze_query_total U q) as (c & e & Ha & Hne).
  exists c, e. split_and!; [done| |done|].
  { apply list_elem_of_In. destruct c; simpl; tauto. }
  intros Hr. assert (c = GREETING) as ->.
  { destruct c; try done; by vm_compute in Hr. }
  split; [done|]. intros score fmt C σ. split.
  - by rewrite (query_non_rag U fmt C q GREETING e σ Ha).
  - by vm_compute.
Qed.

(** C8. When retrieval is used and the gateway returns no passage, the
    query returns the fixed reply, which is not empty, with confidence
    "low" and no sources; nothing is raised. *)
Theorem empty_retrieval_reply {score : Type} (fmt : score → pystr)
    (C : collab (score := score)) (q : pystr) (c : QueryType)
    (e : gmap string pystr) (σ : agent) :
  analyze_query U q = Ret (c, e) → should_use_rag c = true →
  vs_search C q (max_results (get_search_strategy c e))
    (search_filters (get_search_strategy c e)) = Ret [] →
  ∃ σ', query U fmt C q σ = (Ret (no_results_reply c), σ')
    ∧ confidence (no_results_reply c) = "low"
    ∧ sources (no_results_reply c) = []
    ∧ answer (no_results_reply c) ≠ [].
Proof.
  intros Ha Hr Hs. pose proof (query_search_outcome U fmt C q c e σ Ha Hr) as H.
  cbv zeta in H. rewrite Hs in H. eexists. split_and!; [exact H|done|done|].
  by vm_compute.
Qed.

(** C6, as the code has it. On "busca estudiante llamado X", with X a
    non-empty word of ASCII letters, the category is student-lookup and
    the name is X in lower case. *)
Theorem classify_busca_estudiante (X : pystr) :
  ascii_compatible U → X ≠ [] → Forall (λ c, ascii_letter c = true) X →
  analyze_query U (py "busca estudiante llamado " ++ X)
  = Ret (STUDENT_SEARCH, {["student_name" := latin1_lower_cp <$> X]})
  ∧ u_lower U X = latin1_lower_cp <$> X.
Proof.
  intros HU Hne HX. split; [by apply analyze_query_busca|].
  apply (ac_lower U HU). by apply lowered_letters.
Qed.

End Claims.

(** C6 as stated fails: the name that comes back for [Maria] is [maria]. *)
Lemma busca_estudiante_Maria :
  analyze_query latin1 (py "busca estudiante llamado " ++ py "Maria")
  = Ret (STUDENT_SEARCH, {["student_name" := py "maria"]})
  ∧ py "maria" ≠ py "Maria".
Proof. split; [by vm_compute|]. vm_compute. discriminate. Qed.

(** C4. A failure of the gateway is not contained: the exception raised by
    the search leaves [query]. *)
Theorem gateway_failure_propagates (σ : agent) :
  query latin1 (λ _, []) gateway_down (py "asdkjhasd") σ
  = (Raise (Failure (py "connection refused")),
     logged (EvSearch (py "asdkjhasd") 5 ∅) σ).
Proof.
  assert (analyze_query latin1 (py "asdkjhasd") = Ret (GENERAL_INFO, ∅)) as Ha
    by (by vm_compute).
  exact (query_search_outcome latin1 (λ _, []) gateway_down _ _ _ σ Ha eq_refl).
Qed.

Lemma classify_priority_witness :
  analyze_query latin1 (py "Hola") = Ret (GREETING, ∅).
Proof.
  destruct (classify_priority latin1 (py "Hola") latin1_word_not_space) as [_ H].
  apply H. vm_compute. reflexivity.
Defined.

Lemma classify_total_witness :
  analyze_query latin1 (py "   ") = Ret (GENERAL_INFO, ∅).
Proof.
  destruct (classify_total latin1 (py "   ")) as (_ & _ & H).
  apply H.
  - exact latin1_lower_space.
  - vm_compute. repeat constructor.
Defined.

Lemma empty_retrieval_reply_witness :
  ∃ σ', query latin1 (λ _, []) gateway_empty (py "asdkjhasd")
          {| conversation_history := []; trace := [] |}
        = (Ret (no_results_reply GENERAL_INFO), σ').
Proof.
  destruct (empty_retrieval_reply latin1 (λ _, []) gateway_empty (py "asdkjhasd")
              GENERAL_INFO ∅ {| conversation_history := []; trace := [] |})
    as (σ' & H & _).
  - vm_compute. reflexivity.
  - reflexivity.
  - reflexivity.
  - exists σ'. exact H.
Defined.

Lemma classify_busca_estudiante_witness :
  analyze_query latin1 (py "busca estudiante llamado " ++ py "Maria")
  = Ret (STUDENT_SEARCH, {["student_name" := latin1_lower_cp <$> py "Maria"]}).
Proof.
  apply (classify_busca_estudiante latin1 (py "Maria")).
  - exact latin1_ascii_compatible.
  - vm_compute. discriminate.
  - vm_compute. repeat constructor.
Defined.

Lemma classify_never_unknown_witness :
  ∃ c e, analyze_query latin1 (py "Hola") = Ret (c, e) ∧ c ≠ UNKNOWN.
Proof.
  destruct (classify_never_unknown latin1 (py "Hola")) as (c & e & H & _ & Hne & _).
  by exists c, e.
Defined.

Lemma get_search_strategy_table_witness :
  max_results (get_search_strategy STUDENT_SEARCH {["student_name" := py "maria"]}) = 1%nat.
Proof.
  destruct (get_search_strategy_table STUDENT_SEARCH {["student_name" := py "maria"]})
    as (_ & _ & H & _).
  apply H. reflexivity.
Defined.

Lemma apply_filters_conjunction_witness :
  substring (u_lower latin1 (py "maria"))
            (u_lower latin1 (default [] (md_student_name maria_record))).
Proof.
  destruct (apply_filters_conjunction latin1 maria_record maria_filter) as [H _].
  destruct H as [H _]; [by vm_compute|].
  apply H; [by vm_compute|]. vm_compute. discriminate.
Defined.

Lemma calculate_confidence_spec_witness :
  _calculate_confidence (py "contexto") (py "respuesta") = "low".
Proof.
  destruct (calculate_confidence_spec (py "contexto") (py "respuesta")) as (_ & _ & [_ H]).
  apply H. vm_compute. split; [intros [? _]|]; lia.
Defined.

(** * Further properties of the code *)

Section EntityFacts.

Context (U : unicode).

Lemma extract_skill_spec s :
  ∃ o, _extract_skill U s = Ret o
       ∧ (∀ k, o = Some k → ∃ g, wordy U g ∧ k = strip U g).
Proof.
  pose proof (first_group_spec U skill_patterns s skill_patterns_capture) as H.
  unfold _extract_skill. destruct (existsb _ _).
  - destruct H as (g & Hg & ->). eexists. split; [done|]. intros k [= <-]. eauto.
  - rewrite H. eexists. split; [done|]. by intros k [=].
Qed.

Lemma truthy_Some o : truthy o = true → ∃ n, o = Some n ∧ n ≠ [].
Proof. destruct o as [[|c n]|]; try done. intros _. by eexists. Qed.

(** X1. The entities go with the category: a student lookup carries exactly
    a non-empty [student_name], a skill lookup carries nothing or exactly a
    non-empty [skill], every other category carries nothing. *)
Theorem entities_by_category (q : pystr) (c : QueryType) (e : gmap string pystr) :
  analyze_query U q = Ret (c, e) →
  match c with
  | STUDENT_SEARCH => ∃ n, n ≠ [] ∧ e = {["student_name" := n]}
  | SKILL_QUERY => e = ∅ ∨ ∃ k, k ≠ [] ∧ e = {["skill" := k]}
  | _ => e = ∅
  end.
Proof.
  rewrite analyze_query_unfold. cbv zeta. set (s := normalized U q).
  destruct (extract_skill_spec s) as (o & -> & _).
  destruct (rule_matches U GREETING s); [by intros [= <- <-]|].
  destruct (_extract_student_name U s) as [o'|x]; [|done].
  destruct (truthy o') eqn:Ho'.
  { apply truthy_Some in Ho' as (n & -> & Hn). intros [= <- <-]. by exists n. }
  destruct (rule_matches U SKILL_QUERY s).
  { destruct (truthy o) eqn:Ho; intros [= <- <-]; [|by left].
    apply truthy_Some in Ho as (k & -> & Hk). right. by exists k. }
  destruct (rule_matches U EXPERIENCE_QUERY s); [by intros [= <- <-]|].
  destruct (rule_matches U EDUCATION_QUERY s); [by intros [= <- <-]|].
  destruct (rule_matches U CONTACT_QUERY s); by intros [= <- <-].
Qed.

(** X2. Every extracted entity is a single token: a non-empty run of word
    characters, so it holds no white space. *)
Theorem entities_are_tokens (q : pystr) (c : QueryType) (e : gmap string pystr) :
  (∀ ch, u_isword U ch = true → u_isspace U ch = false) →
  analyze_query U q = Ret (c, e) →
  ∀ key v, e !! key = Some v →
    wordy U v ∧ Forall (λ ch, u_isspace U ch = false) v.
Proof.
  intros Hws.
  assert (∀ v, wordy U v → wordy U v ∧ Forall (λ ch, u_isspace U ch = false) v) as Hw.
  { intros v Hv. split; [done|]. destruct Hv as [_ Hv].
    eapply Forall_impl; [exact Hv|]. auto. }
  rewrite analyze_query_unfold. cbv zeta. set (s := normalized U q).
  destruct (extract_skill_spec s) as (o & -> & Ho).
  destruct (rule_matches U GREETING s).
  { intros [= <- <-] key v H. by rewrite lookup_empty in H. }
  pose proof (extract_student_name_spec U s) as Hst.
  assert (∃ o', _extract_student_name U s = Ret o'
                ∧ ∀ n, o' = Some n → ∃ g, wordy U g ∧ n = strip U g) as (o' & -> & Ho').
  { destruct (rule_matches U STUDENT_SEARCH s).
    - destruct Hst as (g & Hg & ->). eexists. split; [done|]. intros n [= <-]. eauto.
    - rewrite Hst. eexists. split; [done|]. by intros n [=]. }
  clear Hst.
  destruct (truthy o') eqn:Ht.
  { apply truthy_Some in Ht as (n & -> & Hn). intros [= <- <-] key v H.
    apply lookup_singleton_Some in H as [_ <-]. simpl.
    destruct (Ho' n eq_refl) as (g & Hg & ->). rewrite (strip_wordy U g Hws Hg). auto. }
  destruct (rule_matches U SKILL_QUERY s).
  { destruct (truthy o) eqn:Ht'; intros [= <- <-] key v H;
      [|by rewrite lookup_empty in H].
    apply truthy_Some in Ht' as (k & -> & Hk).
    apply lookup_singleton_Some in H as [_ <-]. simpl.
    destruct (Ho k eq_refl) as (g & Hg & ->). rewrite (strip_wordy U g Hws Hg). auto. }
  destruct (rule_matches U EXPERIENCE_QUERY s);
    [intros [= <- <-] key v H; by rewrite lookup_empty in H|].
  destruct (rule_matches U EDUCATION_QUERY s);
    [intros [= <- <-] key v H; by rewrite lookup_empty in H|].
  destruct (rule_matches U CONTACT_QUERY s);
    intros [= <- <-] key v H; by rewrite lookup_empty in H.
Qed.

Lemma plus_from_advances ic a pos rest g e :
  e ∈ plus_from U ic a pos rest g → (pos + 1 ≤ ms_pos e)%nat.
Proof.
  intros (w & Hw & _ & _ & -> & _)%plus_from_inv. destruct w; [done|]. simpl. lia.
Qed.

Lemma rmatch_min_len ic r s e :
  e ∈ rmatch U ic r s → (ms_pos s + min_len r ≤ ms_pos e)%nat.
Proof.
  revert s e. induction r as [a| | |a IHa b IHb|a IHa b IHb|a IHa|a|a|a IHa];
    intros s e; simpl.
  - unfold eat. destruct (ms_rest s) as [|c rest]; [by intros ?%elem_of_nil|].
    destruct (atom_ok U ic a c); [|by intros ?%elem_of_nil].
    intros ->%list_elem_of_singleton. simpl. lia.
  - case_bool_decide; [|by intros ?%elem_of_nil].
    intros ->%list_elem_of_singleton. lia.
  - intros ->%list_elem_of_singleton. lia.
  - intros (m & He & Hm)%list_elem_of_bind.
    specialize (IHa _ _ Hm). specialize (IHb _ _ He). lia.
  - rewrite elem_of_app. intros [H|H]; [specialize (IHa _ _ H)|specialize (IHb _ _ H)]; lia.
  - rewrite elem_of_app, list_elem_of_singleton. intros [H| ->]; [|lia].
    destruct (rmatch_consumes U _ _ _ _ H) as (w & _ & ->). lia.
  - intros H%plus_from_advances. lia.
  - rewrite elem_of_app, list_elem_of_singleton.
    intros [H%plus_from_advances| ->]; lia.
  - intros (m & -> & Hm)%list_elem_of_fmap. simpl. by apply IHa.
Qed.

Lemma search_from_span ic p pos rest m :
  search_from U ic p pos rest = Some m →
  (pos ≤ mt_start m)%nat ∧ (mt_start m + min_len (pat_re p) ≤ mt_end m)%nat.
Proof.
  revert pos. induction rest as [|c rest IH]; intros pos; simpl;
    destruct (match_at U ic p pos _) as [m'|] eqn:Hm; intros H; simplify_eq.
  1,2: unfold match_at in Hm; apply bind_Some in Hm as (e & He & [= <-]); simpl;
       apply head_Some_elem_of, rmatch_min_len in He; simpl in He; lia.
  destruct (IH _ H). lia.
Qed.

(** X3. No rule matches an empty text: whatever a pattern of the engine
    matches, in any category or in the skill extraction, has at least one
    character. *)
Theorem rules_match_nonempty (src : string) (s : pystr) (m : pymatch) :
  (∃ t, src ∈ patterns t) ∨ src ∈ skill_patterns →
  re_search U src s true = Ret (Some m) →
  (mt_start m < mt_end m)%nat.
Proof.
  intros Hin. assert (consuming src = true) as Hc.
  { assert (forallb consuming skill_patterns = true) as Hs by (by vm_compute).
    assert (∀ t, forallb consuming (patterns t) = true) as Hp
      by (intros t; destruct t; by vm_compute).
    destruct Hin as [[t Hin]|Hin]; apply list_elem_of_In in Hin;
      [specialize (Hp t); rewrite forallb_forall in Hp; auto
      |rewrite forallb_forall in Hs; auto]. }
  unfold consuming, re_search in *. destruct (re_compile src) as [p|]; [|done].
  apply bool_decide_eq_true in Hc. intros [= H].
  apply search_from_span in H. lia.
Qed.

(** X4. The greeting rules are anchored: what they match starts at the
    first character of the normalised text. *)
Theorem greeting_matches_at_start (src : string) (s : pystr) (m : pymatch) :
  src ∈ patterns GREETING →
  re_search U src s true = Ret (Some m) →
  mt_start m = 0%nat.
Proof.
  intros Hin. assert (anchored src = true) as Ha.
  { assert (forallb anchored (patterns GREETING) = true) as Hp by (by vm_compute).
    rewrite forallb_forall in Hp. by apply Hp, list_elem_of_In. }
  unfold anchored, re_search in *.
  destruct (re_compile src) as [[r g]|]; [|done].
  destruct r as [| | |[| | | | | | | |] r2| | | | |]; try done.
  intros [= H]. rewrite leftmost_bol in H.
  unfold match_at in H. apply bind_Some in H as (e & _ & [= <-]). done.
Qed.

(** X5. The gate of [query] and the flag of the strategy agree on every
    category that the classifier returns; they differ on [UNKNOWN] only,
    where the strategy asks for retrieval and the gate refuses it. *)
Theorem rag_gate_agrees_with_strategy (q : pystr) (c : QueryType) (e : gmap string pystr) :
  analyze_query U q = Ret (c, e) →
  should_use_rag c = use_vector_search (get_search_strategy c e)
  ∧ ∀ c' e', should_use_rag c' ≠ use_vector_search (get_search_strategy c' e')
             ↔ c' = UNKNOWN.
Proof.
  intros Ha. split.
  - destruct (analyze_query_total U q) as (c0 & e0 & Ha' & Hne).
    rewrite Ha in Ha'. injection Ha' as <- <-. by destruct c.
  - intros c' e'. destruct c'; (split; [|discriminate || (intros _; vm_compute; discriminate)]);
      first [reflexivity | intros H; exfalso; apply H; reflexivity].
Qed.

End EntityFacts.

Lemma entities_by_category_witness :
  ∃ n, n ≠ [] ∧ ({["student_name" := py "maria"]} : gmap string pystr) = {["student_name" := n]}.
Proof.
  apply (entities_by_category latin1 (py "quien es Maria Garcia") STUDENT_SEARCH).
  vm_compute. reflexivity.
Defined.

Lemma entities_are_tokens_witness :
  wordy latin1 (py "maria") ∧ Forall (λ ch, uni_isspace ch = false) (py "maria").
Proof.
  assert (analyze_query latin1 (py "quien es Maria Garcia")
          = Ret (STUDENT_SEARCH, {["student_name" := py "maria"]})) as Ha
    by (vm_compute; reflexivity).
  apply (entities_are_tokens latin1 _ _ _ latin1_word_not_space Ha "student_name").
  vm_compute. reflexivity.
Defined.

Lemma rules_match_nonempty_witness : (0 < 14)%nat.
Proof.
  apply (rules_match_nonempty latin1 "quien es\s+(\w+)" (py "quien es Maria")
           {| mt_start := 0; mt_end := 14; mt_grp := Some (py "Maria"); mt_groups := 1 |}).
  - left. exists STUDENT_SEARCH. apply list_elem_of_In. simpl. tauto.
  - vm_compute. reflexivity.
Defined.

Lemma greeting_matches_at_start_witness :
  mt_start {| mt_start := 0; mt_end := 4; mt_grp := None; mt_groups := 0 |} = 0%nat.
Proof.
  apply (greeting_matches_at_start latin1
           "^(?:hola|buenos?\s+días?|buenas?\s+tardes?|buenas?\s+noches?)"
           (py "hola a todos")).
  - apply list_elem_of_In. simpl. tauto.
  - vm_compute. reflexivity.
Defined.

Lemma rag_gate_agrees_with_strategy_witness :
  should_use_rag GREETING = use_vector_search (get_search_strategy GREETING ∅).
Proof.
  apply (rag_gate_agrees_with_strategy latin1 (py "Hola") GREETING ∅).
  vm_compute. reflexivity.
Defined.

Lemma substring_here (n post : pystr) : substring n (n ++ post).
Proof. by exists [], post. Qed.

Lemma substring_cons (n h : pystr) c : substring n h → substring n (c :: h).
Proof. intros (pre & post & ->). by exists (c :: pre), post. Qed.

Lemma substring_app_r (n a h : pystr) : substring n h → substring n (a ++ h).
Proof. intros (pre & post & ->). exists (a ++ pre), post. by rewrite <-(assoc_L app). Qed.

Lemma substring_refl (n : pystr) : substring n n.
Proof. exists [], []. by rewrite app_nil_r. Qed.

Lemma substring_nil_r (n : pystr) : substring n [] → n = [].
Proof.
  intros (pre & post & H). symmetry in H.
  by apply app_eq_nil in H as [_ [? _]%app_eq_nil].
Qed.

Ltac find_substring :=
  repeat first [ apply substring_here | apply substring_cons | apply substring_app_r ].

Lemma template_format_returns (c : QueryType) (e : gmap string pystr) (ans : pystr) :
  let s := get_search_strategy c e in
  let template := get_template (response_template s) in
  pyin (py "{context}") template = true →
  ∃ r, format template
         (kwargs (("context", ans)
                  :: ((λ kv, (kv.1, py_str kv.2)) <$> map_to_list (search_filters s))))
       = Ret r
     ∧ substring ans r.
Proof.
  cbv zeta. destruct c.
  - change (search_filters (get_search_strategy STUDENT_SEARCH e))
      with (<["student_name" := e !! "student_name"]> (∅ : gmap string (option pystr))).
    rewrite insert_empty, map_to_list_singleton. generalize (e !! "student_name").
    intros v _. eexists. split; [vm_compute; reflexivity|]. find_substring.
  - change (search_filters (get_search_strategy SKILL_QUERY e))
      with (<["skill" := e !! "skill"]> (∅ : gmap string (option pystr))).
    rewrite insert_empty, map_to_list_singleton. generalize (e !! "skill").
    intros v _. eexists. split; [vm_compute; reflexivity|]. find_substring.
  - intros _. eexists. split; [vm_compute; reflexivity|]. find_substring.
  - intros _. eexists. split; [vm_compute; reflexivity|]. find_substring.
  - intros _. eexists. split; [vm_compute; reflexivity|]. find_substring.
  - intros _. eexists. split; [vm_compute; reflexivity|]. find_substring.
  - intros H. by vm_compute in H.
  - intros _. eexists. split; [vm_compute; reflexivity|]. find_substring.
Qed.

(** X6. The templating step of the synthesis never fails on what the
    resolver produces: the template of every category but the greeting has
    the field [{context}], and formatting it with the answer and the filters
    of the strategy returns a text that holds the answer. *)
Theorem template_step_returns (c : QueryType) (e : gmap string pystr) (ans : pystr) :
  c ≠ GREETING →
  let s := get_search_strategy c e in
  let template := get_template (response_template s) in
  pyin (py "{context}") template = true
  ∧ ∃ r, format template
           (kwargs (("context", ans)
                    :: ((λ kv, (kv.1, py_str kv.2)) <$> map_to_list (search_filters s))))
         = Ret r
       ∧ substring ans r.
Proof.
  intros Hc. cbv zeta.
  assert (pyin (py "{context}")
            (get_template (response_template (get_search_strategy c e))) = true) as Hin.
  { destruct c; try (vm_compute; reflexivity). by destruct Hc. }
  split; [exact Hin|]. exact (template_format_returns c e ans Hin).
Qed.

Lemma template_step_returns_witness :
  pyin (py "{context}") (get_template "skill_focused") = true
  ∧ ∃ r, format (get_template "skill_focused")
           (kwargs (("context", py "respuesta")
                    :: ((λ kv, (kv.1, py_str kv.2))
                          <$> map_to_list (search_filters (get_search_strategy SKILL_QUERY ∅)))))
         = Ret r
       ∧ substring (py "respuesta") r.
Proof.
  apply (template_step_returns SKILL_QUERY ∅ (py "respuesta")). discriminate.
Defined.

(** ** Filters across the two backends *)

Lemma pyin_refl (n : pystr) : pyin n n = true.
Proof. apply pyin_spec, substring_refl. Qed.

Lemma pinecone_filters_none (f : gmap string (option pystr)) :
  truthy (filters_get f "student_name") = false →
  truthy (filters_get f "skill") = false →
  pinecone_filters f = None.
Proof. intros H1 H2. unfold pinecone_filters. by rewrite H1, H2. Qed.

Lemma apply_filters_none (U : unicode) md (f : gmap string (option pystr)) :
  truthy (filters_get f "student_name") = false →
  truthy (filters_get f "skill") = false →
  _apply_filters U md f = true.
Proof.
  intros H1 H2. unfold _apply_filters. rewrite H1, H2. by case_bool_decide.
Qed.

(** X7. Where the classifier extracted no entity there is no filtering: for
    a category without filter, and for a student or skill lookup whose name
    or skill is missing or empty, both backends keep every passage. *)
Theorem no_entity_no_filtering (U : unicode) (regex_op : pystr → pystr → bool)
    (c : QueryType) (e : gmap string pystr) (md : metadata) (stored : gmap string pystr) :
  (c = STUDENT_SEARCH → truthy (e !! "student_name") = false) →
  (c = SKILL_QUERY → truthy (e !! "skill") = false) →
  let f := search_filters (get_search_strategy c e) in
  _apply_filters U md f = true
  ∧ pinecone_filters f = None
  ∧ pinecone_accepts regex_op (pinecone_filters f) stored = true.
Proof.
  intros Hst Hsk. cbv zeta.
  assert (truthy (filters_get (search_filters (get_search_strategy c e)) "student_name") = false
          ∧ truthy (filters_get (search_filters (get_search_strategy c e)) "skill") = false)
    as [H1 H2].
  { destruct c; try (split; reflexivity).
    - change (search_filters (get_search_strategy STUDENT_SEARCH e))
        with (<["student_name" := e !! "student_name"]> (∅ : gmap string (option pystr))).
      unfold filters_get. rewrite lookup_insert_eq, lookup_insert_ne by done.
      rewrite lookup_empty. simpl. auto.
    - change (search_filters (get_search_strategy SKILL_QUERY e))
        with (<["skill" := e !! "skill"]> (∅ : gmap string (option pystr))).
      unfold filters_get. rewrite lookup_insert_eq, lookup_insert_ne by done.
      rewrite lookup_empty. simpl. auto. }
  split_and!.
  - by apply apply_filters_none.
  - by apply pinecone_filters_none.
  - by rewrite pinecone_filters_none.
Qed.

Lemma no_entity_no_filtering_witness :
  _apply_filters latin1 maria_record (search_filters (get_search_strategy SKILL_QUERY ∅)) = true.
Proof.
  apply (no_entity_no_filtering latin1 (λ _ _, false) SKILL_QUERY ∅ maria_record ∅);
    [discriminate|reflexivity].
Defined.

Lemma pinecone_stored_name (str_of_list : list pystr → pystr) (doc : document) :
  pinecone_metadata str_of_list doc !! "student_name"
  = Some (default [] (md_student_name (doc_metadata doc))).
Proof.
  unfold pinecone_metadata. cbv zeta.
  rewrite lookup_insert_ne by done. rewrite lookup_insert_ne by done.
  by rewrite lookup_insert_eq.
Qed.

Lemma pinecone_filters_name (f : gmap string (option pystr)) n :
  filters_get f "student_name" = Some n → n ≠ [] →
  truthy (filters_get f "skill") = false →
  pinecone_filters f = Some {["student_name" := PcEq n]}.
Proof.
  intros Hn Hne Hk. unfold pinecone_filters. rewrite Hn, Hk.
  destruct n; [done|]. simpl. rewrite insert_empty.
  rewrite bool_decide_eq_false_2; [done|]. apply map_non_empty_singleton.
Qed.

(** X8. For a filter on the name alone the managed index is the stricter
    backend: a passage that its equality condition keeps is kept by the local
    filter too. *)
Theorem pinecone_name_match_is_local_match (U : unicode)
    (str_of_list : list pystr → pystr) (regex_op : pystr → pystr → bool)
    (f : gmap string (option pystr)) (n : pystr) (doc : document) :
  filters_get f "student_name" = Some n → n ≠ [] →
  truthy (filters_get f "skill") = false →
  pinecone_accepts regex_op (pinecone_filters f) (pinecone_metadata str_of_list doc) = true →
  _apply_filters U (doc_metadata doc) f = true.
Proof.
  intros Hn Hne Hk. rewrite (pinecone_filters_name f n Hn Hne Hk).
  unfold pinecone_accepts. rewrite map_to_list_singleton. simpl.
  unfold pinecone_cond_ok. rewrite pinecone_stored_name, andb_true_r.
  intros Heq%bool_decide_eq_true.
  unfold _apply_filters. rewrite Hn, Hk, Heq, pyin_refl.
  destruct n; [done|]. simpl. by case_bool_decide.
Qed.

Lemma pinecone_name_match_is_local_match_witness :
  _apply_filters latin1
    {| md_filename := None; md_student_name := Some (py "maria"); md_chunk_id := None;
       md_skills := None; md_education := None; md_experience := None |}
    maria_filter = true.
Proof.
  apply (pinecone_name_match_is_local_match latin1 (λ _, []) (λ _ _, false)
           maria_filter (py "maria")
           {| page_content := [];
              doc_metadata :=
                {| md_filename := None; md_student_name := Some (py "maria");
                   md_chunk_id := None; md_skills := None; md_education := None;
                   md_experience := None |} |}).
  - vm_compute. reflexivity.
  - vm_compute. discriminate.
  - vm_compute. reflexivity.
  - vm_compute. reflexivity.
Defined.

(** X9. A passage whose metadata has no name passes no name filter, on
    either backend. *)
Theorem nameless_record_rejected (U : unicode)
    (str_of_list : list pystr → pystr) (regex_op : pystr → pystr → bool)
    (f : gmap string (option pystr)) (n : pystr) (doc : document) :
  u_lower U [] = [] → u_lower U n ≠ [] →
  filters_get f "student_name" = Some n →
  md_student_name (doc_metadata doc) = None →
  _apply_filters U (doc_metadata doc) f = false
  ∧ pinecone_accepts regex_op (pinecone_filters f) (pinecone_metadata str_of_list doc) = false.
Proof.
  intros Hnil Hlow Hn Hmd.
  assert (n ≠ []) as Hne by (intros ->; by rewrite Hnil in Hlow).
  assert (truthy (Some n) = true) as Ht by (by destruct n).
  split.
  - unfold _apply_filters. rewrite Hn, Hmd, Ht. simpl. rewrite Hnil.
    assert (pyin (u_lower U n) [] = false) as ->.
    { destruct (pyin (u_lower U n) []) eqn:Hp; [|done].
      by apply pyin_spec, substring_nil_r in Hp. }
    simpl. case_bool_decide as Hf; [|done].
    subst f. unfold filters_get in Hn. by rewrite lookup_empty in Hn.
  - unfold pinecone_filters. rewrite Hn, Ht. cbv zeta.
    set (f1 := <["student_name" := PcEq (default [] (Some n))]> (∅ : gmap string pinecone_cond)).
    assert (∃ f2 : gmap string pinecone_cond,
               f2 !! "student_name" = Some (PcEq n)
               ∧ (if truthy (filters_get f "skill")
                  then <["skills" := PcRegex (py ".*" ++ default [] (filters_get f "skill") ++ py ".*")]> f1
                  else f1) = f2) as (f2 & Hf2 & ->).
    { eexists. split; [|done]. destruct (truthy (filters_get f "skill")).
      - rewrite lookup_insert_ne by done. apply lookup_insert_eq.
      - apply lookup_insert_eq. }
    rewrite bool_decide_eq_false_2 by (intros ->; by rewrite lookup_empty in Hf2).
    unfold pinecone_accepts. apply not_true_is_false. intros Hall.
    rewrite forallb_forall in Hall.
    apply elem_of_map_to_list, list_elem_of_In, Hall in Hf2. simpl in Hf2.
    unfold pinecone_cond_ok in Hf2. rewrite pinecone_stored_name, Hmd in Hf2.
    apply bool_decide_eq_true in Hf2. simpl in Hf2. congruence.
Qed.

Lemma nameless_record_rejected_witness :
  _apply_filters latin1
    {| md_filename := None; md_student_name := None; md_chunk_id := None;
       md_skills := None; md_education := None; md_experience := None |}
    maria_filter = false.
Proof.
  apply (nameless_record_rejected latin1 (λ _, []) (λ _ _, false) maria_filter (py "maria")
           {| page_content := [];
              doc_metadata :=
                {| md_filename := None; md_student_name := None; md_chunk_id := None;
                   md_skills := None; md_education := None; md_experience := None |} |}).
  - reflexivity.
  - vm_compute. discriminate.
  - vm_compute. reflexivity.
  - reflexivity.
Defined.

(** ** The local search *)

Lemma py_index_valid {A} (l : list A) (i : Z) :
  valid_index l i → ∃ x, py_index l i = Ret x ∧ x ∈ l.
Proof.
  unfold valid_index, py_index. intros Hi. cbv zeta.
  set (j := if (i <? 0)%Z then (i + Z.of_nat (length l))%Z else i).
  assert (0 ≤ j < Z.of_nat (length l))%Z as Hj.
  { unfold j. destruct (Z.ltb_spec i 0); lia. }
  destruct (Z.leb_spec 0 j); [|lia].
  destruct (l !! Z.to_nat j) as [x|] eqn:Hx.
  - exists x. split; [done|]. by eapply list_elem_of_lookup_2.
  - apply lookup_ge_None in Hx. lia.
Qed.

Lemma py_index_invalid {A} (l : list A) (i : Z) :
  ¬ valid_index l i → py_index l i = Raise IndexError.
Proof.
  unfold valid_index, py_index. intros Hi. cbv zeta.
  set (j := if (i <? 0)%Z then (i + Z.of_nat (length l))%Z else i).
  destruct (Z.leb_spec 0 j); [|done].
  destruct (l !! Z.to_nat j) as [x|] eqn:Hx; [|done].
  apply lookup_lt_Some in Hx. unfold j in *. destruct (Z.ltb_spec i 0); lia.
Qed.

Lemma valid_index_dec {A} (l : list A) (i : Z) : valid_index l i ∨ ¬ valid_index l i.
Proof. unfold valid_index. lia. Qed.

Section LocalSearch.

Context (U : unicode) {score : Type}.

Lemma faiss_results_inv (cands : list (score * Z)) docs mds f res :
  faiss_results U cands docs mds f = Ret res →
  Forall (λ h, _apply_filters U (hit_metadata h) f = true
               ∧ ∃ idx doc, (hit_score h, idx) ∈ cands ∧ idx ≠ (-1)%Z
                   ∧ py_index docs idx = Ret doc
                   ∧ py_index mds idx = Ret (hit_metadata h)
                   ∧ content h = page_content doc) res.
Proof.
  revert res. induction cands as [|[sc idx] cands IH]; intros res; simpl.
  { by intros [= <-]. }
  assert (∀ res', Forall (λ h, _apply_filters U (hit_metadata h) f = true
               ∧ ∃ idx doc, (hit_score h, idx) ∈ cands ∧ idx ≠ (-1)%Z
                   ∧ py_index docs idx = Ret doc
                   ∧ py_index mds idx = Ret (hit_metadata h)
                   ∧ content h = page_content doc) res' →
          Forall (λ h, _apply_filters U (hit_metadata h) f = true
               ∧ ∃ idx' doc, (hit_score h, idx') ∈ (sc, idx) :: cands ∧ idx' ≠ (-1)%Z
                   ∧ py_index docs idx' = Ret doc
                   ∧ py_index mds idx' = Ret (hit_metadata h)
                   ∧ content h = page_content doc) res') as Hmono.
  { intros res' Hres'. eapply Forall_impl; [exact Hres'|].
    intros h (? & i & d & ? & ?). split; [done|].
    exists i, d. split; [by right|done]. }
  destruct (Z.eqb_spec idx (-1)); [by eauto|].
  destruct (py_index docs idx) as [doc|] eqn:Hd; [|done].
  destruct (py_index mds idx) as [md|] eqn:Hm; [|done].
  destruct (faiss_results U cands docs mds f) as [res0|]; [|done]. simpl.
  specialize (IH res0 eq_refl). apply Hmono in IH.
  destruct (_apply_filters U md f) eqn:Hf; intros [= <-]; [|done].
  constructor; [|done]. simpl. split; [done|].
  exists idx, doc. split_and!; try done. by left.
Qed.

(** X10. What the local search returns: at most [k] hits, each of which
    passes the filter and pairs the content and the metadata stored under
    one and the same index that the similarity search proposed. *)
Theorem search_faiss_results (index_search : nat → list (score * Z)) (ntotal : nat)
    (docs : list document) (mds : list metadata) (k : nat)
    (f : gmap string (option pystr)) (res : list (hit score)) :
  _search_faiss U index_search ntotal docs mds k f = Ret res →
  (length res ≤ k)%nat
  ∧ Forall (λ h, _apply_filters U (hit_metadata h) f = true
                 ∧ ∃ idx doc, (hit_score h, idx) ∈ index_search (Nat.min (k * 2) ntotal)
                     ∧ idx ≠ (-1)%Z
                     ∧ py_index docs idx = Ret doc
                     ∧ py_index mds idx = Ret (hit_metadata h)
                     ∧ content h = page_content doc) res.
Proof.
  unfold _search_faiss. case_bool_decide.
  { intros [= <-]. split; [simpl; lia|constructor]. }
  destruct (faiss_results U _ docs mds f) as [res0|] eqn:Hres; [|done].
  intros [= <-]. split.
  - rewrite length_take. lia.
  - apply Forall_take. by eapply faiss_results_inv.
Qed.

Lemma faiss_results_readable (cands : list (score * Z)) docs mds f :
  Forall (readable docs mds) cands → ∃ res, faiss_results U cands docs mds f = Ret res.
Proof.
  induction 1 as [|[sc idx] cands Hc _ [res IH]]; simpl; [by eauto|].
  destruct (Z.eqb_spec idx (-1)); [by eauto|].
  destruct Hc as [?|[Hd Hm]]; [done|]. simpl in *.
  destruct (py_index_valid docs idx Hd) as (doc & -> & _).
  destruct (py_index_valid mds idx Hm) as (md & -> & _).
  rewrite IH. simpl. eauto.
Qed.

Lemma faiss_results_unreadable (cands : list (score * Z)) docs mds f :
  ¬ Forall (readable docs mds) cands → faiss_results U cands docs mds f = Raise IndexError.
Proof.
  induction cands as [|[sc idx] cands IH]; intros Hn; simpl.
  { destruct Hn. constructor. }
  destruct (Z.eqb_spec idx (-1)) as [->|Hne].
  { apply IH. intros Hall. apply Hn. constructor; [by left|done]. }
  destruct (valid_index_dec docs idx) as [Hd|Hd];
    [|by rewrite (py_index_invalid docs idx Hd)].
  destruct (py_index_valid docs idx Hd) as (doc & -> & _). simpl.
  destruct (valid_index_dec mds idx) as [Hm|Hm];
    [|by rewrite (py_index_invalid mds idx Hm)].
  destruct (py_index_valid mds idx Hm) as (md & -> & _). simpl.
  rewrite IH; [done|]. intros Hall. apply Hn. constructor; [by right|done].
Qed.

(** X11. When the local search fails: on an empty index it returns no hit
    without searching; otherwise it returns exactly when every index that
    the similarity search proposes is [-1] or within both stored lists, and
    raises [IndexError] as soon as one is not. *)
Theorem search_faiss_raises (index_search : nat → list (score * Z)) (ntotal : nat)
    (docs : list document) (mds : list metadata) (k : nat)
    (f : gmap string (option pystr)) :
  let cands := index_search (Nat.min (k * 2) ntotal) in
  (ntotal = 0%nat → _search_faiss U index_search ntotal docs mds k f = Ret [])
  ∧ (ntotal ≠ 0%nat → Forall (readable docs mds) cands →
     ∃ res, _search_faiss U index_search ntotal docs mds k f = Ret res)
  ∧ (ntotal ≠ 0%nat → ¬ Forall (readable docs mds) cands →
     _search_faiss U index_search ntotal docs mds k f = Raise IndexError).
Proof.
  cbv zeta. unfold _search_faiss. split_and!.
  - intros ->. done.
  - intros Hn Hall. rewrite bool_decide_eq_false_2 by done.
    destruct (faiss_results_readable _ docs mds f Hall) as [res ->]. simpl. eauto.
  - intros Hn Hall. rewrite bool_decide_eq_false_2 by done.
    by rewrite faiss_results_unreadable.
Qed.

End LocalSearch.

Lemma search_faiss_results_witness :
  (length [ {| content := py "Maria"; hit_metadata := maria_record; hit_score := () |} ] ≤ 1)%nat.
Proof.
  apply (search_faiss_results latin1 (λ _, [((), 0%Z)]) 1 [maria_doc] [maria_record] 1
           maria_filter).
  vm_compute. reflexivity.
Defined.

Lemma search_faiss_raises_witness :
  _search_faiss latin1 (λ _, [((), 3%Z)]) 1 [maria_doc] [maria_record] 1 maria_filter
  = Raise IndexError.
Proof.
  apply (search_faiss_raises latin1 (λ _, [((), 3%Z)]) 1 [maria_doc] [maria_record] 1
           maria_filter).
  - done.
  - intros H. apply Forall_cons in H as [[H|[H _]] _]; [done|].
    unfold valid_index in H. simpl in H. lia.
Defined.

(** ** Replies *)

Ltac in_list := repeat first [apply list_elem_of_here | apply list_elem_of_further].

Lemma value_classified c : c ≠ UNKNOWN → value c ≠ "unknown".
Proof. by destruct c. Qed.

Lemma should_use_rag_classified c :
  c ≠ UNKNOWN → should_use_rag c = if decide (c = GREETING) then false else true.
Proof. by destruct c. Qed.

Lemma max_results_values c e : max_results (get_search_strategy c e) ∈ [1; 3; 5]%nat.
Proof. destruct c; simpl; in_list. Qed.

Lemma calculate_confidence_values context a :
  _calculate_confidence context a ∈ ["high"; "medium"; "low"]
  ∧ _calculate_confidence context a ≠ "error".
Proof.
  unfold _calculate_confidence.
  repeat (match goal with |- context [if ?b then _ else _] => destruct b end);
    (split; [in_list|discriminate]).
Qed.

Lemma fixed_reply_shape (a : pystr) (qt conf : string) :
  conf ∈ ["high"; "low"; "error"] → (conf = "error" → a = error_answer) →
  reply_shape {| answer := a; query_type := qt; sources := []; confidence := conf;
                 context_used := None |}.
Proof.
  intros Hc He. unfold reply_shape. cbn [answer sources confidence context_used].
  split_and!.
  - revert Hc. rewrite !elem_of_cons. tauto.
  - constructor.
  - discriminate.
  - intros H. split; [by apply He|reflexivity].
Qed.

Lemma synthesized_shape c (context : pystr) r evs :
  context ≠ [] → synthesized c context r evs →
  query_type r = value c ∧ reply_shape r.
Proof.
  intros Hne [[-> _]|(_ & Hqt & Hcu & Hco & Hnd)].
  - split; [reflexivity|]. apply fixed_reply_shape; [in_list|done].
  - split; [exact Hqt|]. destruct (calculate_confidence_values context (answer r)) as [H1 H2].
    unfold reply_shape. rewrite Hco, Hcu. split_and!.
    + revert H1. rewrite !elem_of_cons. tauto.
    + exact Hnd.
    + intros [= Hb]. apply bool_decide_eq_false in Hb. destruct context; [done|].
      simpl in Hb. lia.
    + intros H. by destruct H2.
Qed.

(** ** The synthesis step and the whole query *)

Section QueryFacts.

Context (U : unicode) {score : Type} (fmt : score → pystr) (C : collab (score := score)).

Lemma extract_sources_nodup context l :
  _extract_sources_from_context U context = Ret l → NoDup l.
Proof.
  unfold _extract_sources_from_context.
  destruct (re_findall U _ context) as [ms|x]; [|done].
  intros [= <-]. apply NoDup_elements.
Qed.

Lemma build_context_nonempty (h : hit score) l : _build_context fmt (h :: l) ≠ [].
Proof. unfold _build_context. simpl. by destruct (imap _ l). Qed.

Lemma bind_lift {A B} (o : outcome A) (f : A → M B) σ :
  bind (lift o) f σ = match o with Ret a => f a σ | Raise x => (Raise x, σ) end.
Proof. reflexivity. Qed.

Lemma bind_emit {B} ev (f : unit → M B) σ : bind (emit ev) f σ = f () (logged ev σ).
Proof. reflexivity. Qed.

Lemma bind_ret {A B} (a : A) (f : A → M B) σ : bind (ret a) f σ = f a σ.
Proof. reflexivity. Qed.

Lemma bind_returned {A B} (m : M A) (f : A → M B) σ a σ' :
  m σ = (Ret a, σ') → bind m f σ = f a σ'.
Proof. intros H. unfold bind. by rewrite H. Qed.

Lemma bind_bind {A B D} (m : M A) (g : A → M B) (f : B → M D) σ :
  bind (bind m g) f σ = bind m (λ a, bind (g a) f) σ.
Proof. unfold bind. by destruct (m σ) as [[a|x] σ']. Qed.

Lemma extract_sources_returns context :
  ∃ l, _extract_sources_from_context U context = Ret l ∧ NoDup l.
Proof.
  destruct (_extract_sources_from_context U context) as [l|x] eqn:H.
  - exists l. split; [done|]. by eapply extract_sources_nodup.
  - exfalso. revert H. unfold _extract_sources_from_context, re_findall.
    destruct (re_compile "Archivo:\s*([^\n]+)") eqn:E; [done|].
    by vm_compute in E.
Qed.

(** The prompt always forms, and holds the context and the question. *)
Lemma prompt_forms (context question : pystr) c :
  ∃ prompt,
    format system_prompt
      (kwargs [ ("context", context); ("question", question);
                ("query_type", py (value c)) ]) = Ret prompt
    ∧ substring context prompt ∧ substring question prompt.
Proof.
  generalize (py (value c)). intros v. eexists. split; [vm_compute; reflexivity|].
  split; find_substring.
Qed.

(** The templating step never fails on what the resolver produces, and
    keeps the answer in the text. *)
Lemma template_step (c : QueryType) (e : gmap string pystr) (ans : pystr) σ :
  let s := get_search_strategy c e in
  ∃ ans',
    (if decide (response_template s ≠ "default") then
       if pyin (py "{context}") (get_template (response_template s)) then
         lift (format (get_template (response_template s))
                 (kwargs (("context", ans)
                          :: ((λ kv, (kv.1, py_str kv.2))
                                <$> map_to_list (search_filters s)))))
       else ret ans
     else ret ans) σ = (Ret ans', σ)
    ∧ substring ans ans'
    ∧ (response_template s = "default" → ans' = ans).
Proof.
  cbv zeta. destruct (decide _) as [Hd|Hd].
  - destruct (pyin _ _) eqn:Hin.
    + destruct (template_format_returns c e ans Hin) as (r & -> & Hr).
      exists r. split_and!; [done|done|]. by intros ?.
    + exists ans. split_and!; [done|apply substring_refl|done].
  - exists ans. split_and!; [done|apply substring_refl|done].
Qed.

(** What [_generate_response] does, in full: it returns; either with the
    apology, after an exception was reported, or with a reply assembled from
    one call of the synthesizer. *)
Lemma generate_response_cases question context c s σ :
  ∃ r σ' evs,
    _generate_response U C question context c s σ = (Ret r, σ')
    ∧ conversation_history σ' = conversation_history σ
    ∧ trace σ' = trace σ ++ evs
    ∧ synthesized c context r evs.
Proof.
  assert (∀ x prompt, ∃ r σ' evs,
    bind (emit (EvStError x)) (λ _, ret (error_reply c)) (logged (EvInvoke prompt) σ)
      = (Ret r, σ')
    ∧ conversation_history σ' = conversation_history σ
    ∧ trace σ' = trace σ ++ evs
    ∧ synthesized c context r evs) as Hfail.
  { intros x prompt. eexists _, _, [EvInvoke prompt; EvStError x].
    split; [reflexivity|]. simpl. rewrite <-(assoc_L app). split_and!; try done.
    left. split; [done|]. by exists prompt, x. }
  destruct (prompt_forms context question c) as (prompt & Hp & _).
  unfold _generate_response, try_except, invoke, mbind, M_bind.
  fold (error_reply c).
  rewrite bind_lift, Hp.
  rewrite bind_bind, bind_emit, bind_lift.
  destruct (llm_invoke C prompt) as [ans|x]; [|by apply Hfail].
  match goal with
  | |- context [bind ?m _ (logged (EvInvoke prompt) σ)] =>
      assert (∃ o : outcome pystr, m = lift o) as [o ->]
  end.
  { destruct (decide _); [|by exists (Ret ans)].
    destruct (pyin _ _); [by eexists|by exists (Ret ans)]. }
  rewrite bind_lift. destruct o as [ans'|x]; [|by apply Hfail].
  rewrite bind_lift.
  destruct (extract_sources_returns context) as (srcs & -> & Hnd).
  eexists _, _, [EvInvoke prompt]. split; [reflexivity|]. simpl. split_and!; try done.
  right. split_and!; try done. by eexists.
Qed.

(** What [query] does, in full, by the classification and the outcome of
    the search. *)
Lemma query_cases q σ :
  ∃ c e, analyze_query U q = Ret (c, e) ∧ c ≠ UNKNOWN ∧
    let s := get_search_strategy c e in
    let ev := EvSearch q (max_results s) (search_filters s) in
    if negb (should_use_rag c) then
      c = GREETING ∧ query U fmt C q σ = (Ret greeting_reply, σ)
    else
      match vs_search C q (max_results s) (search_filters s) with
      | Raise x => query U fmt C q σ = (Raise x, logged ev σ)
      | Ret [] => query U fmt C q σ = (Ret (no_results_reply c), logged ev σ)
      | Ret (h :: l) =>
          ∃ r σ' evs,
            query U fmt C q σ = (Ret r, σ')
            ∧ conversation_history σ' = conversation_history σ ++ [history_entry C q c r]
            ∧ trace σ' = trace σ ++ ev :: evs
            ∧ synthesized c (_build_context fmt (h :: l)) r evs
      end.
Proof.
  destruct (analyze_query_total U q) as (c & e & Ha & Hne).
  exists c, e. split; [done|]. split; [done|]. cbv zeta.
  destruct (should_use_rag c) eqn:Hr; cbn [negb].
  2:{ assert (c = GREETING) as -> by (destruct c; try done; by vm_compute in Hr).
      split; [done|]. by rewrite (query_non_rag U fmt C q GREETING e σ Ha). }
  pose proof (query_search_outcome U fmt C q c e σ Ha Hr) as H. cbv zeta in H.
  destruct (vs_search C q _ _) as [[|h l]|x] eqn:Hs; [done| |done]. clear H.
  destruct (generate_response_cases q (_build_context fmt (h :: l)) c
              (get_search_strategy c e)
              (logged (EvSearch q (max_results (get_search_strategy c e))
                         (search_filters (get_search_strategy c e))) σ))
    as (r & σ1 & evs & Hg & Hh & Ht & Hsy).
  exists r. eexists. exists evs.
  unfold query, mbind, M_bind. rewrite bind_lift, Ha. cbn [fst snd]. rewrite Hr.
  cbn [negb]. unfold vector_store_search, mbind, M_bind.
  rewrite bind_bind, bind_emit, bind_lift, Hs.
  unfold bind at 1. rewrite Hg. unfold bind, append_history, ret.
  split; [reflexivity|]. cbn [conversation_history trace].
  rewrite Hh, Ht. cbn [logged conversation_history trace].
  rewrite <-(assoc_L app). split_and!; [reflexivity|reflexivity|exact Hsy].
Qed.

(** X12. The synthesis step, in full. The prompt always forms and holds the
    context and the question; the synthesizer is called once, with it. If
    the synthesizer answers, the reply holds its answer (as it is for the
    default template, inside the template of the category otherwise), the
    sources found in the context without repetition, and the confidence
    computed from the context and the final text; if it raises, the
    exception is reported and the reply is the apology. *)
Theorem synthesis_step (question context : pystr) (c : QueryType)
    (e : gmap string pystr) (σ : agent) :
  ∃ prompt,
    substring context prompt ∧ substring question prompt
    ∧ match llm_invoke C prompt with
      | Ret ans =>
          ∃ r, _generate_response U C question context c (get_search_strategy c e) σ
               = (Ret r, logged (EvInvoke prompt) σ)
             ∧ substring ans (answer r)
             ∧ (response_template (get_search_strategy c e) = "default" → answer r = ans)
             ∧ query_type r = value c
             ∧ _extract_sources_from_context U context = Ret (sources r)
             ∧ NoDup (sources r)
             ∧ confidence r = _calculate_confidence context (answer r)
             ∧ context_used r = Some (bool_decide (context ≠ []))
      | Raise x =>
          _generate_response U C question context c (get_search_strategy c e) σ
          = (Ret (error_reply c), logged (EvStError x) (logged (EvInvoke prompt) σ))
      end.
Proof.
  destruct (prompt_forms context question c) as (prompt & Hp & Hc & Hq).
  exists prompt. split; [done|]. split; [done|].
  unfold _generate_response, try_except, invoke, mbind, M_bind.
  fold (error_reply c).
  rewrite bind_lift, Hp, bind_bind, bind_emit, bind_lift.
  destruct (llm_invoke C prompt) as [ans|x]; [|reflexivity].
  destruct (template_step c e ans (logged (EvInvoke prompt) σ)) as (ans' & Ht & Hsub & Hdef).
  cbv zeta in Ht, Hdef.
  rewrite (bind_returned _ _ _ _ _ Ht).
  destruct (extract_sources_returns context) as (srcs & Hs & Hnd).
  rewrite bind_lift, Hs. eexists. split; [reflexivity|].
  cbn [answer query_type sources confidence context_used].
  split_and!; try done. f_equal. apply bool_decide_ext.
  destruct context; simpl; split; (done || lia).
Qed.

(** The replies that [query] returns. *)
Lemma query_reply_cases q σ r σ' :
  query U fmt C q σ = (Ret r, σ') →
  ∃ c e, analyze_query U q = Ret (c, e) ∧ c ≠ UNKNOWN
    ∧ (r = no_results_reply c ∨ (c = GREETING ∧ r = greeting_reply)
       ∨ ∃ h l evs, synthesized c (_build_context fmt (h :: l)) r evs).
Proof.
  intros Hq. destruct (query_cases q σ) as (c & e & Ha & Hne & H). cbv zeta in H.
  exists c, e. split; [exact Ha|]. split; [exact Hne|]. clear Ha.
  destruct (negb (should_use_rag c)).
  { destruct H as [Hc H]. rewrite H in Hq. injection Hq as <- <-. right. left.
    split; [exact Hc|reflexivity]. }
  destruct (vs_search C q _ _) as [[|h l]|x].
  - rewrite H in Hq. injection Hq as <- <-. left. reflexivity.
  - destruct H as (r' & σ1 & evs & H & _ & _ & Hsy). rewrite H in Hq.
    injection Hq as <- <-. right. right. exists h, l, evs. exact Hsy.
  - rewrite H in Hq. discriminate Hq.
Qed.

(** X13. The shape of every reply that [query] returns: its category is the
    one the classifier chose, which is never "unknown"; its confidence is
    one of "high", "medium", "low" and "error"; its sources do not repeat;
    the flag [context_used] is absent or true, never false; and the
    confidence "error" comes with the apology and without sources. *)
Theorem query_reply_shape (q : pystr) (σ σ' : agent) (r : response) :
  query U fmt C q σ = (Ret r, σ') →
  (∃ c e, analyze_query U q = Ret (c, e) ∧ query_type r = value c
          ∧ query_type r ≠ "unknown")
  ∧ confidence r ∈ ["high"; "medium"; "low"; "error"]
  ∧ NoDup (sources r)
  ∧ context_used r ≠ Some false
  ∧ (confidence r = "error" → answer r = error_answer ∧ sources r = []).
Proof.
  intros Hq. destruct (query_reply_cases q σ r σ' Hq) as (c & e & Ha & Hne & H).
  clear Hq. pose proof (value_classified c Hne) as Hv.
  assert (query_type r = value c ∧ reply_shape r) as [Hqt Hsh].
  { clear Ha. destruct H as [->|[[-> ->]|(h & l & evs & Hsy)]].
    - split; [reflexivity|]. apply fixed_reply_shape.
      + in_list.
      + intros [=].
    - split; [reflexivity|]. apply fixed_reply_shape.
      + in_list.
      + intros [=].
    - apply (synthesized_shape c (_build_context fmt (h :: l)) r evs); [|exact Hsy].
      apply build_context_nonempty. }
  split; [|exact Hsh]. exists c, e. split; [exact Ha|]. split; [exact Hqt|].
  rewrite Hqt. exact Hv.
Qed.

(** X14. What [query] records. The history grows by exactly one entry, the
    question with the answer of the reply, exactly when the search returned
    a passage: also when the reply is the apology for a failed synthesis;
    the greeting, the reply of an empty retrieval and a failing search
    leave the history as it was. *)
Theorem query_history (q : pystr) (σ : agent) :
  ∃ c e, analyze_query U q = Ret (c, e) ∧
    let s := get_search_strategy c e in
    let found :=
      should_use_rag c
      && match vs_search C q (max_results s) (search_filters s) with
         | Ret (_ :: _) => true
         | _ => false
         end in
    if found then
      ∃ r, (query U fmt C q σ).1 = Ret r
         ∧ conversation_history (query U fmt C q σ).2
           = conversation_history σ ++ [history_entry C q c r]
    else conversation_history (query U fmt C q σ).2 = conversation_history σ.
Proof.
  destruct (query_cases q σ) as (c & e & Ha & Hne & H). cbv zeta in H.
  exists c, e. split; [exact Ha|]. clear Ha. cbv zeta.
  destruct (should_use_rag c); cbn [negb andb] in *.
  2:{ destruct H as [_ ->]. reflexivity. }
  destruct (vs_search C q _ _) as [[|h l]|x].
  - rewrite H. reflexivity.
  - destruct H as (r & σ' & evs & -> & Hh & _). exists r. split; [reflexivity|exact Hh].
  - rewrite H. reflexivity.
Qed.

(** The events of the synthesis step: one call of the synthesizer, and
    the report of its exception when it raises. *)
Lemma generate_response_trace question context c e σ :
  ∃ prompt,
    trace (_generate_response U C question context c (get_search_strategy c e) σ).2
    = trace σ ++ EvInvoke prompt
                   :: match llm_invoke C prompt with
                      | Ret _ => []
                      | Raise x => [EvStError x]
                      end.
Proof.
  destruct (prompt_forms context question c) as (prompt & Hp & _).
  exists prompt.
  unfold _generate_response, try_except, invoke, mbind, M_bind.
  fold (error_reply c).
  rewrite bind_lift, Hp, bind_bind, bind_emit, bind_lift.
  destruct (llm_invoke C prompt) as [ans|x].
  - destruct (template_step c e ans (logged (EvInvoke prompt) σ)) as (ans' & Ht & _).
    cbv zeta in Ht. rewrite (bind_returned _ _ _ _ _ Ht).
    destruct (extract_sources_returns context) as (srcs & Hs & _).
    rewrite bind_lift, Hs. reflexivity.
  - rewrite bind_emit. cbn [ret snd logged trace]. by rewrite <-(assoc_L app).
Qed.

(** After a search that found a passage, the events of [query] are those
    of the search and of the synthesis step. *)
Lemma query_trace_found q c e σ h l :
  analyze_query U q = Ret (c, e) → should_use_rag c = true →
  vs_search C q (max_results (get_search_strategy c e))
    (search_filters (get_search_strategy c e)) = Ret (h :: l) →
  trace (query U fmt C q σ).2
  = trace (_generate_response U C q (_build_context fmt (h :: l)) c
             (get_search_strategy c e)
             (logged (EvSearch q (max_results (get_search_strategy c e))
                        (search_filters (get_search_strategy c e))) σ)).2.
Proof.
  intros Ha Hr Hs.
  destruct (generate_response_returns U C q (_build_context fmt (h :: l)) c
              (get_search_strategy c e)
              (logged (EvSearch q (max_results (get_search_strategy c e))
                         (search_filters (get_search_strategy c e))) σ))
    as (r & σ1 & Hg).
  unfold query, mbind, M_bind. rewrite bind_lift, Ha. cbn [fst snd]. rewrite Hr.
  cbn [negb]. unfold vector_store_search, mbind, M_bind.
  rewrite bind_bind, bind_emit, bind_lift, Hs.
  unfold bind at 1. rewrite Hg. reflexivity.
Qed.

(** X15. What [query] does to the outside, exactly. For a greeting:
    nothing. For every other question: one search, for the question as it
    was typed and for one, three or five passages; when the search raises or
    finds nothing, no more; when it finds a passage, one call of the
    synthesizer, followed by the report of its exception when that call
    raises, and by nothing when it answers. Nothing is retried. *)
Theorem query_effects (q : pystr) (σ : agent) :
  ∃ c e, analyze_query U q = Ret (c, e) ∧
    let s := get_search_strategy c e in
    let search := EvSearch q (max_results s) (search_filters s) in
    max_results s ∈ [1; 3; 5]%nat ∧
    ∃ evs, trace (query U fmt C q σ).2 = trace σ ++ evs ∧
      if decide (c = GREETING) then evs = []
      else
        match vs_search C q (max_results s) (search_filters s) with
        | Ret (_ :: _) =>
            ∃ prompt,
              evs = search :: EvInvoke prompt
                              :: match llm_invoke C prompt with
                                 | Ret _ => []
                                 | Raise x => [EvStError x]
                                 end
        | _ => evs = [search]
        end.
Proof.
  destruct (analyze_query_total U q) as (c & e & Ha & Hne).
  exists c, e. split; [exact Ha|]. cbv zeta. split; [apply max_results_values|].
  pose proof (should_use_rag_classified c Hne) as Hrag.
  destruct (decide (c = GREETING)) as [Hc|Hc].
  { exists []. rewrite (query_non_rag U fmt C q c e σ Ha Hrag).
    split; [|reflexivity]. symmetry. apply app_nil_r. }
  pose proof (query_search_outcome U fmt C q c e σ Ha Hrag) as H. cbv zeta in H.
  destruct (vs_search C q _ _) as [[|h l]|x] eqn:Hs.
  - rewrite H. eexists. split; reflexivity.
  - clear H. rewrite (query_trace_found q c e σ h l Ha Hrag Hs).
    destruct (generate_response_trace q (_build_context fmt (h :: l)) c e
                (logged (EvSearch q (max_results (get_search_strategy c e))
                           (search_filters (get_search_strategy c e))) σ))
      as (prompt & ->).
    eexists. split; [|exists prompt; reflexivity].
    cbn [logged trace]. by rewrite <-(assoc_L app).
  - rewrite H. eexists. split; reflexivity.
Qed.

(** X16. The only exception that escapes [query] is the one of the search:
    if [query] raises, the question was sent to the search, the search
    raised that exception, and nothing else was done. *)
Theorem query_raises_only_from_search (q : pystr) (σ σ' : agent) (x : exn) :
  query U fmt C q σ = (Raise x, σ') →
  ∃ c e, analyze_query U q = Ret (c, e)
    ∧ should_use_rag c = true
    ∧ vs_search C q (max_results (get_search_strategy c e))
        (search_filters (get_search_strategy c e)) = Raise x
    ∧ σ' = logged (EvSearch q (max_results (get_search_strategy c e))
                     (search_filters (get_search_strategy c e))) σ.
Proof.
  intros Hq. destruct (query_cases q σ) as (c & e & Ha & Hne & H). cbv zeta in H.
  exists c, e. split; [exact Ha|]. clear Ha.
  destruct (should_use_rag c); cbn [negb] in H.
  2:{ destruct H as [_ H]. rewrite H in Hq. discriminate Hq. }
  split; [reflexivity|].
  destruct (vs_search C q _ _) as [[|h l]|y].
  - rewrite H in Hq. discriminate Hq.
  - destruct H as (r & σ1 & evs & H & _). rewrite H in Hq. discriminate Hq.
  - rewrite H in Hq. injection Hq as -> <-. split; reflexivity.
Qed.

End QueryFacts.

Lemma query_reply_shape_witness :
  confidence (no_results_reply GENERAL_INFO) ∈ ["high"; "medium"; "low"; "error"]
  ∧ context_used (no_results_reply GENERAL_INFO) ≠ Some false.
Proof.
  destruct (query_reply_shape latin1 (λ _, []) gateway_empty (py "asdkjhasd")
              fresh_agent (logged (EvSearch (py "asdkjhasd") 5 ∅) fresh_agent)
              (no_results_reply GENERAL_INFO)) as (_ & H & _ & H' & _).
  - vm_compute. reflexivity.
  - split; [exact H|exact H'].
Defined.

Lemma query_raises_only_from_search_witness :
  ∃ c e, analyze_query latin1 (py "asdkjhasd") = Ret (c, e)
    ∧ should_use_rag c = true
    ∧ vs_search gateway_down (py "asdkjhasd") (max_results (get_search_strategy c e))
        (search_filters (get_search_strategy c e))
      = Raise (Failure (py "connection refused"))
    ∧ logged (EvSearch (py "asdkjhasd") 5 ∅) fresh_agent
      = logged (EvSearch (py "asdkjhasd") (max_results (get_search_strategy c e))
                  (search_filters (get_search_strategy c e))) fresh_agent.
Proof.
  apply (query_raises_only_from_search latin1 (λ _, []) gateway_down (py "asdkjhasd")
           fresh_agent (logged (EvSearch (py "asdkjhasd") 5 ∅) fresh_agent)
           (Failure (py "connection refused"))).
  vm_compute. reflexivity.
Defined.

(** ** The manager of the vector store *)

Lemma py_index_fmap {A B} (f : A → B) (l : list A) (i : Z) (x : A) :
  py_index l i = Ret x → py_index (f <$> l) i = Ret (f x).
Proof.
  unfold py_index. rewrite length_fmap. cbv zeta.
  destruct (0 <=? _)%Z; [|done]. rewrite list_lookup_fmap.
  destruct (l !! _); [|done]. by intros [= ->].
Qed.

Ltac in_snoc :=
  solve [ apply elem_of_app; right; apply list_elem_of_here
        | apply elem_of_app; left; in_snoc ].

Section ManagerFacts.

Context (U : unicode) {vector : Type} (W : world (vector := vector))
  (getenv : string → option pystr).

Lemma vbind_vlift {A B} (o : outcome A) (f : A → V B) (s : manager (vector := vector) * list call) :
  vbind (vlift o) f s = match o with Ret a => f a s | Raise x => (Raise x, s) end.
Proof. by destruct o. Qed.

Lemma vbind_vcall {A B} c (o : outcome A) (f : A → V B)
    (s : manager (vector := vector) * list call) :
  vbind (vcall c o) f s
  = match o with
    | Ret a => f a (s.1, s.2 ++ [c])
    | Raise x => (Raise x, (s.1, s.2 ++ [c]))
    end.
Proof. by destruct o. Qed.

Lemma vbind_vput {B} m (f : unit → V B) (s : manager (vector := vector) * list call) :
  vbind (vput m) f s = f () (m, s.2).
Proof. reflexivity. Qed.

Lemma vbind_vget {B} (f : manager → V B) (s : manager (vector := vector) * list call) :
  vbind vget f s = f s.1 s.
Proof. reflexivity. Qed.

Lemma vbind_st {B} k msg (f : unit → V B) (s : manager (vector := vector) * list call) :
  vbind (st k msg) f s = f () (s.1, s.2 ++ [CallSt k msg]).
Proof. reflexivity. Qed.

Lemma getattr_PINECONE_ENVIRONMENT :
  getattr getenv "PINECONE_ENVIRONMENT" = Raise AttributeError.
Proof. reflexivity. Qed.

Lemma getattr_EMBEDDING_MODEL :
  getattr getenv "EMBEDDING_MODEL"
  = Ret (CStr (Some (py "sentence-transformers/all-MiniLM-L6-v2"))).
Proof. reflexivity. Qed.

Lemma initialize_faiss_spec (m : manager (vector := vector)) (calls : list call) :
  _initialize_faiss (m, calls)
  = (Ret (),
     ({| use_pinecone := use_pinecone m;
         embedding_dimension := embedding_dimension m;
         faiss_index := Some [];
         documents := documents m;
         document_metadata := document_metadata m;
         pinecone_index := pinecone_index m |},
      calls ++ [CallSt "info" (py "📁 Usando almacenamiento vectorial local (FAISS)")])).
Proof. reflexivity. Qed.

Lemma initialize_pinecone_spec m calls :
  _initialize_pinecone W getenv (m, calls)
  = (Ret (),
     ({| use_pinecone := false;
         embedding_dimension := embedding_dimension m;
         faiss_index := Some [];
         documents := documents m;
         document_metadata := document_metadata m;
         pinecone_index := pinecone_index m |},
      ((calls ++ [CallSt "error" (py "❌ Error al conectar con Pinecone: "
                                   ++ w_str W AttributeError)])
         ++ [CallSt "info" (py "🔄 Usando almacenamiento local FAISS como respaldo")])
        ++ [CallSt "info" (py "📁 Usando almacenamiento vectorial local (FAISS)")])).
Proof.
  unfold _initialize_pinecone, vtry, mbind, V_bind.
  rewrite vbind_vlift. change (getattr getenv "PINECONE_API_KEY")
    with (Ret (A := cfg_value) (CStr (getenv "PINECONE_API_KEY"))). cbv iota beta.
  rewrite vbind_vlift, getattr_PINECONE_ENVIRONMENT.
  reflexivity.
Qed.

(** What the constructor leaves behind, by the flag. *)
Lemma VectorStoreManager_returns (flag : bool) (dimension : nat) :
  w_load_model W (CStr (Some (py "sentence-transformers/all-MiniLM-L6-v2"))) = Ret dimension →
  VectorStoreManager W getenv flag
  = (Ret (),
     ({| use_pinecone := false;
         embedding_dimension := dimension;
         faiss_index := Some [];
         documents := [];
         document_metadata := [];
         pinecone_index := None |},
      if flag then
        ((([] ++ [CallLoadModel (CStr (Some (py "sentence-transformers/all-MiniLM-L6-v2")))])
            ++ [CallSt "error" (py "❌ Error al conectar con Pinecone: "
                                 ++ w_str W AttributeError)])
           ++ [CallSt "info" (py "🔄 Usando almacenamiento local FAISS como respaldo")])
          ++ [CallSt "info" (py "📁 Usando almacenamiento vectorial local (FAISS)")]
      else
        ([] ++ [CallLoadModel (CStr (Some (py "sentence-transformers/all-MiniLM-L6-v2")))])
          ++ [CallSt "info" (py "📁 Usando almacenamiento vectorial local (FAISS)")])).
Proof.
  intros Hd. unfold VectorStoreManager, mbind, V_bind.
  rewrite vbind_vlift, getattr_EMBEDDING_MODEL, vbind_vcall, Hd.
  rewrite vbind_vput. cbn [fst snd].
  destruct flag; [by rewrite initialize_pinecone_spec|by rewrite initialize_faiss_spec].
Qed.

(** X17. The Pinecone backend is never reached. The constructor of the
    manager, asked for Pinecone, fails on the attribute
    [Config.PINECONE_ENVIRONMENT], which the configuration does not define,
    before the first call to Pinecone, and falls back to the local index:
    whatever flag it is given, and whatever Pinecone would answer, it ends
    with the flag off, an empty local index and no call to Pinecone made. *)
Theorem pinecone_is_never_reached (flag : bool) :
  match w_load_model W (CStr (Some (py "sentence-transformers/all-MiniLM-L6-v2"))) with
  | Raise x => (VectorStoreManager W getenv flag).1 = Raise x
  | Ret dimension =>
      ∃ calls,
        VectorStoreManager W getenv flag
        = (Ret (),
           ({| use_pinecone := false;
               embedding_dimension := dimension;
               faiss_index := Some [];
               documents := [];
               document_metadata := [];
               pinecone_index := None |}, calls))
        ∧ Forall (λ c, pinecone_call c = false) calls
  end.
Proof.
  destruct (w_load_model W _) as [d|x] eqn:Hd.
  - rewrite (VectorStoreManager_returns flag d Hd). eexists. split; [reflexivity|].
    destruct flag; repeat (apply Forall_app; split); repeat constructor.
  - unfold VectorStoreManager, mbind, V_bind.
    by rewrite vbind_vlift, getattr_EMBEDDING_MODEL, vbind_vcall, Hd.
Qed.

Lemma add_documents_in_step docs o s s' :
  row_per_text W → add_documents W docs s = (o, s') →
  in_step s.1 → Forall (λ c, pinecone_call c = false) s.2 →
  in_step s'.1 ∧ Forall (λ c, pinecone_call c = false) s'.2.
Proof.
  intros Henc Hadd Hin Hcalls. destruct s as [m calls]. cbn [fst snd] in *.
  destruct docs as [|d docs]; [by injection Hadd as <- <-|].
  revert Hadd. unfold add_documents, mbind, V_bind.
  rewrite vbind_st, vbind_vcall. cbn [fst snd].
  set (calls' := (calls ++ [_]) ++ [_]).
  assert (Forall (λ c, pinecone_call c = false) calls') as Hcalls'.
  { unfold calls'. repeat (apply Forall_app; split); try done; repeat constructor. }
  destruct (w_encode W _) as [embs|x] eqn:He.
  2:{ intros [= <- <-]. done. }
  apply Henc in He. rewrite length_fmap in He.
  destruct Hin as (Hp & rows & Hrows & Hlen & Hmd).
  rewrite vbind_vget. cbn [fst snd].
  rewrite Hp. unfold _add_to_faiss, mbind, V_bind.
  unfold vbind at 1. rewrite vbind_vget. cbn [fst snd].
  rewrite Hrows. unfold vput, st, vcall. cbn [fst snd].
  intros [= <- <-]. cbn [fst snd]. split.
  - split; [done|]. eexists. cbn [faiss_index documents document_metadata].
    split; [reflexivity|]. rewrite !length_app, length_fmap, Hlen, He.
    split; [done|]. by rewrite fmap_app, Hmd.
  - apply Forall_app. split; [done|]. repeat constructor.
Qed.

Lemma get_stats_local m calls :
  use_pinecone m = false →
  get_stats W (m, calls)
  = (Ret (StatsFaiss (match faiss_index m with Some rows => length rows | None => 0%nat end)
            (length (documents m)) (embedding_dimension m)), (m, calls)).
Proof.
  intros Hp. unfold get_stats, mbind, V_bind, vbind, vget. cbn [fst snd].
  by rewrite Hp.
Qed.

Lemma save_local_index_calls path (s s' : manager (vector := vector) * list call) o :
  save_local_index W path s = (o, s') →
  s'.1 = s.1 ∧ ∃ calls, s'.2 = s.2 ++ calls ∧ Forall (λ c, pinecone_call c = false) calls.
Proof.
  destruct s as [m calls]. unfold save_local_index, mbind, V_bind.
  rewrite vbind_vget. cbn [fst snd].
  destruct (if use_pinecone m then None else faiss_index m) as [rows|].
  2:{ intros [= <- <-]. split; [done|]. exists []. by rewrite app_nil_r. }
  rewrite vbind_vcall. cbn [fst snd].
  destruct (w_makedirs W path).
  2:{ intros [= <- <-]. split; [done|]. eexists. split; [reflexivity|]. repeat constructor. }
  rewrite vbind_vcall. cbn [fst snd]. destruct (w_write W _).
  2:{ intros [= <- <-]. split; [done|]. eexists. split; [by rewrite <-(assoc_L app)|].
      repeat constructor. }
  rewrite vbind_vcall. cbn [fst snd]. destruct (w_write W _).
  2:{ intros [= <- <-]. split; [done|]. eexists. split; [by rewrite <-!(assoc_L app)|].
      repeat constructor. }
  rewrite vbind_vcall. cbn [fst snd]. destruct (w_write W _).
  2:{ intros [= <- <-]. split; [done|]. eexists. split; [by rewrite <-!(assoc_L app)|].
      repeat constructor. }
  unfold st, vcall. cbn [fst snd]. intros [= <- <-]. split; [done|]. eexists.
  split; [by rewrite <-!(assoc_L app)|]. repeat constructor.
Qed.

Lemma uses_in_step s s' :
  row_per_text W → uses W s s' →
  in_step s.1 → Forall (λ c, pinecone_call c = false) s.2 →
  in_step s'.1 ∧ Forall (λ c, pinecone_call c = false) s'.2.
Proof.
  intros Henc Hu Hin Hcalls. destruct Hu as [docs o s s' H|o s s' H|o s s' H|path o s s' H].
  4:{ apply save_local_index_calls in H as (-> & calls & -> & Hc). split; [done|].
      by apply Forall_app. }
  - by eapply add_documents_in_step.
  - destruct s as [m calls]. destruct Hin as [Hp Hin].
    rewrite get_stats_local in H by done. injection H as <- <-.
    split; [by split|done].
  - destruct s as [m calls]. destruct Hin as [Hp Hin]. cbn [fst snd] in *.
    revert H. unfold clear_index, mbind, V_bind.
    rewrite vbind_vget. cbn [fst snd]. rewrite Hp.
    rewrite vbind_vput. unfold st, vcall. cbn [fst snd]. intros [= <- <-]. cbn [fst snd].
    split.
    + split; [done|]. exists []. done.
    + apply Forall_app. split; [done|]. repeat constructor.
Qed.

(** X18. The local store stays in step. Whatever sequence of
    [add_documents], [get_stats], [clear_index] and [save_local_index]
    follows the constructor,
    provided the encoder returns one row per text: the store has one
    document and one metadata record per row of the index, the record being
    that of the document; no call to Pinecone is made; and [get_stats]
    reports as many vectors as documents. *)
Theorem store_stays_in_step (flag : bool) (s0 s : manager * list call) :
  row_per_text W →
  VectorStoreManager W getenv flag = (Ret (), s0) →
  rtc (uses W) s0 s →
  in_step s.1
  ∧ Forall (λ c, pinecone_call c = false) s.2
  ∧ get_stats W s
    = (Ret (StatsFaiss (length (documents s.1)) (length (documents s.1))
              (embedding_dimension s.1)), s).
Proof.
  intros Henc Hinit Hrtc.
  assert (in_step s0.1 ∧ Forall (λ c, pinecone_call c = false) s0.2) as H0.
  { destruct (w_load_model W (CStr (Some (py "sentence-transformers/all-MiniLM-L6-v2"))))
      as [d|x] eqn:Hd.
    - rewrite (VectorStoreManager_returns flag d Hd) in Hinit. injection Hinit as <-.
      cbn [fst snd]. split; [split; [done|]; by exists []|].
      destruct flag; repeat (apply Forall_app; split); repeat constructor.
    - revert Hinit. unfold VectorStoreManager, mbind, V_bind.
      by rewrite vbind_vlift, getattr_EMBEDDING_MODEL, vbind_vcall, Hd. }
  assert (in_step s.1 ∧ Forall (λ c, pinecone_call c = false) s.2) as [Hin Hcalls].
  { clear Hinit. induction Hrtc as [|s1 s2 s3 Hu _ IH]; [done|].
    apply IH. destruct H0. by eapply uses_in_step. }
  split; [done|]. split; [done|]. destruct s as [m calls]. cbn [fst snd] in *.
  destruct Hin as (Hp & rows & Hrows & Hlen & _).
  rewrite get_stats_local by done. by rewrite Hrows, Hlen.
Qed.

(** X19. A search on a store in step does not fail, and returns passages
    of the store: if the index proposes only rows it holds (or [-1]), the
    local search returns at most [k] hits, each of which is the text of a
    stored document with the metadata of that same document, which passes
    the filter. *)
Theorem search_on_store_in_step {score : Type} (m : manager) (rows : list vector)
    (index_search : nat → list (score * Z)) (k : nat)
    (f : gmap string (option pystr)) :
  in_step m → faiss_index m = Some rows →
  (∀ n, Forall (λ c, (-1 ≤ c.2 < Z.of_nat (length rows))%Z) (index_search n)) →
  ∃ res,
    _search_faiss U index_search (length rows) (documents m) (document_metadata m) k f
    = Ret res
    ∧ (length res ≤ k)%nat
    ∧ Forall (λ h, ∃ doc, doc ∈ documents m
                     ∧ content h = page_content doc
                     ∧ hit_metadata h = doc_metadata doc
                     ∧ _apply_filters U (doc_metadata doc) f = true) res.
Proof.
  intros (_ & rows' & Hrows' & Hlen & Hmd) Hrows Hidx.
  rewrite Hrows in Hrows'. injection Hrows' as <-.
  unfold _search_faiss. case_bool_decide as Hn.
  { exists []. split; [done|]. split; [simpl; lia|constructor]. }
  destruct (faiss_results_readable U (index_search (Nat.min (k * 2) (length rows)))
              (documents m) (document_metadata m) f) as [res Hres].
  { eapply Forall_impl; [apply Hidx|]. intros [sc idx] Hc. simpl in Hc.
    unfold readable, valid_index. simpl. rewrite Hmd, length_fmap. lia. }
  rewrite Hres. exists (take k res). split; [done|]. split.
  { rewrite length_take. lia. }
  apply Forall_take. apply faiss_results_inv in Hres.
  eapply Forall_impl; [exact Hres|]. intros h (Hf & idx & doc & _ & _ & Hd & Hm & Hc).
  exists doc. rewrite Hmd in Hm. rewrite (py_index_fmap _ _ _ _ Hd) in Hm.
  injection Hm as Hm. split_and!; try done.
  - destruct (valid_index_dec (documents m) idx) as [Hv|Hv].
    + destruct (py_index_valid _ _ Hv) as (x & Hx & Hel). rewrite Hx in Hd.
      by injection Hd as <-.
    + by rewrite py_index_invalid in Hd.
  - by rewrite Hm.
Qed.

(** X25. Loading restores what was saved. If a local store with an index
    was saved under a directory, and the disk reads back what was written,
    then loading from that directory into a local store returns [True] and
    leaves it with the rows, the documents and the metadata of the saved
    store. *)
Theorem load_restores_saved (path : pystr) (m m' : manager (vector := vector))
    (rows : list vector) (calls calls' : list call) (s1 : manager * list call) :
  use_pinecone m = false → faiss_index m = Some rows → use_pinecone m' = false →
  save_local_index W path (m, calls) = (Ret (), s1) →
  reads_back W s1.2 →
  ∃ calls'',
    load_local_index W path (m', calls')
    = (Ret true,
       ({| use_pinecone := false;
           embedding_dimension := embedding_dimension m';
           faiss_index := Some rows;
           documents := documents m;
           document_metadata := document_metadata m;
           pinecone_index := pinecone_index m' |}, calls'')).
Proof.
  intros Hp Hrows Hp' Hsave Hback.
  assert (CallWriteIndex (path_join path (py "faiss_index.bin")) rows ∈ s1.2
          ∧ CallDumpDocuments (path_join path (py "documents.pkl")) (documents m) ∈ s1.2
          ∧ CallDumpMetadata (path_join path (py "metadata.pkl")) (document_metadata m) ∈ s1.2)
    as (H1 & H2 & H3).
  { revert Hsave. unfold save_local_index, mbind, V_bind.
    rewrite vbind_vget. cbn [fst snd]. rewrite Hp, Hrows.
    rewrite vbind_vcall. cbn [fst snd]. destruct (w_makedirs W path); [|done].
    rewrite vbind_vcall. cbn [fst snd]. destruct (w_write W _); [|done].
    rewrite vbind_vcall. cbn [fst snd]. destruct (w_write W _); [|done].
    rewrite vbind_vcall. cbn [fst snd]. destruct (w_write W _); [|done].
    unfold st, vcall. cbn [fst snd]. intros [= <-]. cbn [snd].
    split_and!; in_snoc. }
  apply Hback in H1 as [He1 Hr1]. apply Hback in H2 as [He2 Hr2].
  apply Hback in H3 as [He3 Hr3].
  unfold load_local_index, mbind, V_bind. rewrite vbind_vget. cbn [fst snd].
  rewrite Hp'. unfold vtry.
  rewrite vbind_vcall, He1. cbn [fst snd].
  rewrite vbind_vcall, Hr1. cbn [fst snd].
  rewrite vbind_vget, vbind_vput. cbn [fst snd].
  rewrite vbind_vcall, He2. cbn [fst snd].
  rewrite vbind_vcall, Hr2. cbn [fst snd].
  rewrite vbind_vget, vbind_vput. cbn [fst snd].
  rewrite vbind_vcall, He3. cbn [fst snd].
  rewrite vbind_vcall, Hr3. cbn [fst snd].
  rewrite vbind_vget, vbind_vput. cbn [fst snd].
  rewrite vbind_st. cbn [fst snd use_pinecone embedding_dimension faiss_index documents
                           document_metadata pinecone_index].
  rewrite Hp'. eexists. reflexivity.
Qed.

(** X26. A load that fails can leave the store out of step. If the index
    file is there and the file of the documents is not, [load_local_index]
    returns [False] but has already replaced the index: the store keeps its
    documents and metadata next to the rows that were read. A search on a
    store that had no documents then raises [IndexError] as soon as the
    index proposes a row. *)
Theorem load_without_documents {score : Type} (path : pystr)
    (m : manager (vector := vector)) (calls : list call) (rows : list vector)
    (index_search : nat → list (score * Z)) (k : nat) (f : gmap string (option pystr)) :
  use_pinecone m = false →
  w_exists W (path_join path (py "faiss_index.bin")) = true →
  w_read_index W (path_join path (py "faiss_index.bin")) = Ret rows →
  w_exists W (path_join path (py "documents.pkl")) = false →
  ∃ calls',
    load_local_index W path (m, calls)
    = (Ret false,
       ({| use_pinecone := false;
           embedding_dimension := embedding_dimension m;
           faiss_index := Some rows;
           documents := documents m;
           document_metadata := document_metadata m;
           pinecone_index := pinecone_index m |}, calls'))
    ∧ (documents m = [] → rows ≠ [] →
       Exists (λ c, c.2 ≠ (-1)%Z) (index_search (Nat.min (k * 2) (length rows))) →
       _search_faiss U index_search (length rows) (documents m) (document_metadata m) k f
       = Raise IndexError).
Proof.
  intros Hp He1 Hr1 He2.
  unfold load_local_index, mbind, V_bind. rewrite vbind_vget. cbn [fst snd].
  rewrite Hp. unfold vtry.
  rewrite vbind_vcall, He1. cbn [fst snd].
  rewrite vbind_vcall, Hr1. cbn [fst snd].
  rewrite vbind_vget, vbind_vput. cbn [fst snd].
  rewrite vbind_vcall, He2. cbn [fst snd]. rewrite Hp.
  eexists. split; [reflexivity|]. intros Hd Hne Hex.
  unfold _search_faiss. rewrite bool_decide_eq_false_2 by (by destruct rows).
  rewrite faiss_results_unreadable; [done|]. intros Hall.
  apply Exists_exists in Hex as ([sc idx] & Hin & Hidx).
  rewrite Forall_forall in Hall. destruct (Hall _ Hin) as [?|[Hv _]]; [done|].
  rewrite Hd in Hv. unfold valid_index in Hv. simpl in Hv. lia.
Qed.

End ManagerFacts.

Lemma store_stays_in_step_witness :
  in_step (add_documents calm_world [maria_doc]
             (VectorStoreManager calm_world no_env true).2).2.1.
Proof.
  destruct (store_stays_in_step calm_world no_env true
              (VectorStoreManager calm_world no_env true).2
              (add_documents calm_world [maria_doc]
                 (VectorStoreManager calm_world no_env true).2).2) as (H & _).
  - intros texts rows [= <-]. by rewrite length_fmap.
  - reflexivity.
  - apply rtc_once.
    apply (uses_add_documents calm_world [maria_doc]
             (add_documents calm_world [maria_doc]
                (VectorStoreManager calm_world no_env true).2).1).
    apply surjective_pairing.
  - exact H.
Defined.

Lemma search_on_store_in_step_witness :
  ∃ res,
    _search_faiss latin1 (λ _, [((), 0%Z)]) 1 [maria_doc] [maria_record] 1 ∅ = Ret res
    ∧ (length res ≤ 1)%nat.
Proof.
  destruct (search_on_store_in_step latin1
              {| use_pinecone := false; embedding_dimension := 384;
                 faiss_index := Some [()]; documents := [maria_doc];
                 document_metadata := [maria_record]; pinecone_index := None |}
              [()] (λ _, [((), 0%Z)]) 1 ∅) as (res & H & Hl & _).
  - split; [reflexivity|]. exists [()]. split_and!; reflexivity.
  - reflexivity.
  - intros n. repeat constructor; simpl; lia.
  - exists res. split; [exact H|exact Hl].
Defined.

Lemma load_restores_saved_witness :
  ∃ calls'',
    load_local_index disk_world (py "vector_store") (empty_store, [])
    = (Ret true, (maria_store, calls'')).
Proof.
  destruct (load_restores_saved disk_world (py "vector_store") maria_store empty_store
              [()] [] [] (save_local_index disk_world (py "vector_store") (maria_store, [])).2)
    as [calls'' H].
  - reflexivity.
  - reflexivity.
  - reflexivity.
  - reflexivity.
  - intros c Hc. destruct c; try done; vm_compute in Hc;
      repeat (apply elem_of_cons in Hc as [Hc|Hc]; [by simplify_eq|]);
      by apply elem_of_nil in Hc.
  - exists calls''. exact H.
Defined.

Lemma load_without_documents_witness :
  ∃ calls',
    load_local_index torn_world (py "vector_store") (empty_store, [])
    = (Ret false,
       ({| use_pinecone := false; embedding_dimension := 384; faiss_index := Some [()];
           documents := []; document_metadata := []; pinecone_index := None |}, calls'))
    ∧ _search_faiss latin1 (λ _, [((), 0%Z)]) 1 [] [] 1 ∅ = Raise IndexError.
Proof.
  destruct (load_without_documents latin1 torn_world (py "vector_store") empty_store []
              [()] (λ _, [((), 0%Z)]) 1 ∅) as (calls' & H & Hs).
  - reflexivity.
  - vm_compute. reflexivity.
  - reflexivity.
  - vm_compute. reflexivity.
  - exists calls'. split; [exact H|]. apply Hs.
    + reflexivity.
    + discriminate.
    + left. simpl. lia.
Defined.

(** ** The batches of an upsert *)

Lemma chunks_concat {A} (s k : nat) (v : list A) :
  concat ((λ i, take s (drop i v)) <$> ((λ j, 0 + j * s)%nat <$> seq 0 k))
  = take (k * s) v.
Proof.
  induction k as [|k IH]; [done|].
  rewrite seq_S, !fmap_app, concat_app, IH. simpl. rewrite app_nil_r.
  rewrite take_take_drop. f_equal. lia.
Qed.

Lemma div_up_bounds (n s : nat) :
  (0 < s)%nat →
  (n ≤ (n + s - 1) / s * s)%nat ∧ (∀ j, j < (n + s - 1) / s → j * s < n)%nat.
Proof.
  intros Hs. pose proof (Nat.div_mod_eq (n + s - 1) s) as Hd.
  pose proof (Nat.mod_upper_bound (n + s - 1) s ltac:(lia)) as Hm.
  split; [nia|]. intros j Hj. nia.
Qed.

Lemma batches_partition {A} (s : nat) (v : list A) :
  (0 < s)%nat →
  let bs := (λ i, take s (drop i v)) <$> py_range 0 (length v) s in
  concat bs = v ∧ Forall (λ b, 1 ≤ length b ≤ s)%nat bs.
Proof.
  intros Hs. cbv zeta. unfold py_range. rewrite Nat.sub_0_r.
  destruct (div_up_bounds (length v) s Hs) as [Hup Hlow]. split.
  - rewrite chunks_concat. by apply take_ge.
  - rewrite <-list_fmap_compose. apply Forall_fmap, Forall_forall.
    intros j Hj%elem_of_seq. simpl.
    rewrite length_take, length_drop. specialize (Hlow j). lia.
Qed.

Lemma zip_lists_lookup {A B} (l : list A) (k : list B) i a b :
  l !! i = Some a → k !! i = Some b → zip_lists l k !! i = Some (a, b).
Proof.
  revert k i. induction l as [|x l IH]; intros [|y k] [|i]; simpl; try done.
  - by intros [= ->] [= ->].
  - apply IH.
Qed.

Lemma zip_lists_length {A B} (l : list A) (k : list B) :
  length (zip_lists l k) = (length l `min` length k)%nat.
Proof. revert k. induction l as [|x l IH]; intros [|y k]; simpl; auto. Qed.

Section Upserts.

Context {vector : Type} (W : world (vector := vector)).

Lemma vectors_to_upsert_length i0 pairs :
  length (vectors_to_upsert W i0 pairs) = length pairs.
Proof.
  revert i0. induction pairs as [|[d e] pairs IH]; intros i0; simpl; [done|].
  by rewrite IH.
Qed.

Lemma vectors_to_upsert_lookup i0 pairs i doc emb :
  pairs !! i = Some (doc, emb) →
  vectors_to_upsert W i0 pairs !! i
  = Some (py "doc_" ++ dec (w_time W (i0 + i)) ++ py "_" ++ dec (i0 + i), emb,
          pinecone_metadata (w_str_of_list W) doc).
Proof.
  revert i0 i. induction pairs as [|[d e] pairs IH]; intros i0 [|i]; try done.
  - intros [= -> ->]. cbn [vectors_to_upsert lookup list_lookup].
    by rewrite Nat.add_0_r.
  - intros H. cbn [vectors_to_upsert]. etrans; [exact (IH (S i0) i H)|].
    by replace (S i0 + i)%nat with (i0 + S i)%nat by lia.
Qed.

Lemma upsert_batches_connected bs (m : manager (vector := vector)) calls h :
  pinecone_index m = Some h → (∀ b, w_upsert W b = Ret ()) →
  upsert_batches W bs (m, calls) = (Ret (), (m, calls ++ (CallUpsert <$> bs))).
Proof.
  intros Hh Hup. revert calls. induction bs as [|b bs IH]; intros calls.
  { simpl. by rewrite app_nil_r. }
  cbn [upsert_batches]. unfold mbind, V_bind. rewrite vbind_vget. cbn [fst].
  rewrite Hh. rewrite vbind_vcall, Hup. cbn [fst snd]. rewrite IH.
  by rewrite <-(assoc_L app).
Qed.

(** X20. What [_add_to_pinecone] sends. With an index at hand and upserts
    that succeed, it makes nothing but upserts, whose batches hold between
    one and a hundred vectors and, laid end to end, are one vector for each
    pair of a document and an embedding, in order: the [i]-th has the
    embedding and the stored metadata of the [i]-th document, under the id
    made of the clock and [i]. Without an index it raises
    [AttributeError], unless there is nothing to send. *)
Theorem add_to_pinecone_upserts (docs : list document) (embeddings : list vector)
    (m : manager (vector := vector)) (calls : list call) :
  (∀ b, w_upsert W b = Ret ()) →
  match pinecone_index m with
  | Some _ =>
      ∃ bs,
        _add_to_pinecone W docs embeddings (m, calls)
        = (Ret (), (m, calls ++ (CallUpsert <$> bs)))
        ∧ Forall (λ b, 1 ≤ length b ≤ 100)%nat bs
        ∧ length (concat bs) = (length docs `min` length embeddings)%nat
        ∧ ∀ i doc emb, docs !! i = Some doc → embeddings !! i = Some emb →
            concat bs !! i
            = Some (py "doc_" ++ dec (w_time W i) ++ py "_" ++ dec i, emb,
                    pinecone_metadata (w_str_of_list W) doc)
  | None =>
      _add_to_pinecone W docs embeddings (m, calls)
      = (if bool_decide (docs = [] ∨ embeddings = []) then Ret () else Raise AttributeError,
         (m, calls))
  end.
Proof.
  intros Hup. unfold _add_to_pinecone. cbv zeta.
  destruct (batches_partition 100 (vectors_to_upsert W 0 (zip_lists docs embeddings)))
    as [Hcat Hsz]; [lia|]. cbv zeta in Hcat, Hsz.
  destruct (pinecone_index m) as [h|] eqn:Hh.
  - eexists. split; [by eapply upsert_batches_connected|]. unfold batches.
    split; [exact Hsz|]. rewrite Hcat. split.
    + by rewrite vectors_to_upsert_length, zip_lists_length.
    + intros i doc emb Hd He.
      by rewrite (vectors_to_upsert_lookup 0 _ i doc emb (zip_lists_lookup _ _ _ _ _ Hd He)).
  - destruct docs as [|d docs]; [by rewrite bool_decide_eq_true_2 by auto|].
    destruct embeddings as [|e embs]; [by rewrite bool_decide_eq_true_2 by auto|].
    rewrite bool_decide_eq_false_2 by (by intros [?|?]).
    unfold batches. cbn [zip_lists vectors_to_upsert length].
    unfold py_range.
    destruct ((S (length (vectors_to_upsert W 1 (zip_lists docs embs))) - 0 + 100 - 1) / 100)%nat
      as [|k] eqn:Hk.
    { exfalso. apply Nat.div_small_iff in Hk; lia. }
    cbn [seq fmap list_fmap upsert_batches]. unfold mbind, V_bind.
    rewrite vbind_vget. cbn [fst]. rewrite Hh. reflexivity.
Qed.

End Upserts.

Lemma add_to_pinecone_upserts_witness :
  ∃ bs,
    _add_to_pinecone calm_world [maria_doc] [()]
      ({| use_pinecone := true; embedding_dimension := 384; faiss_index := None;
          documents := []; document_metadata := [];
          pinecone_index := Some (py "student-cv-index") |}, [])
    = (Ret (),
       ({| use_pinecone := true; embedding_dimension := 384; faiss_index := None;
           documents := []; document_metadata := [];
           pinecone_index := Some (py "student-cv-index") |}, [] ++ (CallUpsert <$> bs)))
    ∧ length (concat bs) = 1%nat.
Proof.
  destruct (add_to_pinecone_upserts calm_world [maria_doc] [()]
              {| use_pinecone := true; embedding_dimension := 384; faiss_index := None;
                 documents := []; document_metadata := [];
                 pinecone_index := Some (py "student-cv-index") |} [])
    as (bs & H & _ & Hl & _).
  - reflexivity.
  - exists bs. split; [exact H|exact Hl].
Defined.

(** ** The configuration *)

Section ConfigFacts.

Context (U : unicode).

Lemma lstrip_nil s : lstrip U s = [] ↔ Forall (λ c, u_isspace U c = true) s.
Proof.
  induction s as [|c s IH]; simpl; [done|]. destruct (u_isspace U c) eqn:Hc.
  - rewrite IH. split; [by constructor|by inversion 1].
  - split; [done|]. inversion 1; congruence.
Qed.

Lemma lstrip_only_spaces s :
  Forall (λ c, u_isspace U c = true) (lstrip U s) → Forall (λ c, u_isspace U c = true) s.
Proof.
  induction s as [|c s IH]; simpl; [done|]. destruct (u_isspace U c) eqn:Hc; [|done].
  intros H. constructor; auto.
Qed.

Lemma strip_nil s : strip U s = [] ↔ Forall (λ c, u_isspace U c = true) s.
Proof.
  unfold strip, rstrip. split.
  - intros H. apply (f_equal reverse) in H. rewrite reverse_involutive in H.
    change (reverse []) with (@nil N) in H. apply lstrip_nil in H.
    rewrite Forall_reverse in H. by apply lstrip_only_spaces.
  - intros H. apply lstrip_nil in H. rewrite H. reflexivity.
Qed.

Lemma not_all_spaces s :
  ¬ Forall (λ c, u_isspace U c = true) s → Exists (λ c, u_isspace U c = false) s.
Proof.
  induction s as [|c s IH]; intros H; [by destruct H|].
  destruct (u_isspace U c) eqn:Hc; [|by left].
  right. apply IH. intros H'. apply H. by constructor.
Qed.

Lemma blank_provided (o : option pystr) :
  (provided U o ∧ blank U (CStr o) = Ret false)
  ∨ (¬ provided U o ∧ blank U (CStr o) = Ret true).
Proof.
  destruct o as [s|]; simpl.
  2:{ right. split; [|done]. by intros (s & ? & _). }
  destruct s as [|c s].
  { right. split; [|done]. intros (s & [= <-] & H). by apply Exists_nil in H. }
  cbn [negb orb]. case_bool_decide as Hs.
  - right. split; [|done]. intros (s' & [= <-] & H). apply strip_nil in Hs.
    apply Exists_exists in H as (x & Hx & Hsp).
    rewrite Forall_forall in Hs. specialize (Hs x Hx). congruence.
  - left. split; [|done]. exists (c :: s). split; [done|].
    apply not_all_spaces. intros H. by apply Hs, strip_nil.
Qed.

(** X21. What [validate_config] requires. It returns [True] exactly when
    both GROQ_API_KEY and PINECONE_API_KEY are provided, that is set to
    text that is not blank; otherwise it raises [ValueError] after logging
    one error that names each of the two that is missing. The Pinecone key
    is required whichever backend is used. *)
Theorem validate_config_spec (getenv : string → option pystr) :
  let groq := provided U (getenv "GROQ_API_KEY") in
  let pinecone := provided U (getenv "PINECONE_API_KEY") in
  (groq ∧ pinecone →
   validate_config U getenv
   = (Ret true, [("info"%string, py "✅ Configuración validada correctamente")]))
  ∧ (¬ (groq ∧ pinecone) →
     ∃ msg, validate_config U getenv = (Raise ValueError, [("error"%string, msg)])
       ∧ (¬ groq → substring (py "GROQ_API_KEY") msg)
       ∧ (¬ pinecone → substring (py "PINECONE_API_KEY") msg)).
Proof.
  cbv zeta. unfold validate_config. cbn [missing_keys].
  change (getattr getenv "GROQ_API_KEY") with (Ret (CStr (getenv "GROQ_API_KEY"))).
  change (getattr getenv "PINECONE_API_KEY") with (Ret (CStr (getenv "PINECONE_API_KEY"))).
  cbn [mbind outcome_bind].
  destruct (blank_provided (getenv "GROQ_API_KEY")) as [[Hg ->]|[Hg ->]];
    destruct (blank_provided (getenv "PINECONE_API_KEY")) as [[Hp ->]|[Hp ->]];
    cbn [mbind outcome_bind].
  - split; [done|]. intros []. done.
  - split; [by intros [_ ?]|]. intros _. eexists. split; [reflexivity|].
    split; [done|]. intros _. cbn [fmap list_fmap join].
    apply substring_app_r, substring_refl.
  - split; [by intros [? _]|]. intros _. eexists. split; [reflexivity|].
    split; [|done]. intros _. cbn [fmap list_fmap join].
    apply substring_app_r, substring_refl.
  - split; [by intros [? _]|]. intros _. eexists. split; [reflexivity|].
    cbn [fmap list_fmap join]. split; intros _.
    + apply substring_app_r, substring_here.
    + apply substring_app_r, substring_app_r, substring_app_r, substring_refl.
Qed.

End ConfigFacts.

(** ** The statistics of the processed documents *)

Lemma count_skill_keys skill counts :
  (count_skill skill counts).*1
  = if bool_decide (skill ∈ counts.*1) then counts.*1 else counts.*1 ++ [skill].
Proof.
  induction counts as [|[k n] counts IH]; [done|]. cbn [count_skill].
  destruct (decide (k = skill)) as [->|Hne].
  - rewrite bool_decide_eq_true_2 by (simpl; left). done.
  - cbn [fmap list_fmap fst]. fold (fmap (M := list) (@fst pystr nat)). rewrite IH.
    case_bool_decide as Hin.
    + rewrite bool_decide_eq_true_2; [done|]. by right.
    + rewrite bool_decide_eq_false_2; [done|].
      intros [?|?]%elem_of_cons; [congruence|done].
Qed.

Lemma count_skill_nodup skill counts :
  NoDup counts.*1 → NoDup (count_skill skill counts).*1.
Proof.
  intros Hnd. rewrite count_skill_keys. case_bool_decide as Hin; [done|].
  apply NoDup_app. split_and!; [done| |apply NoDup_singleton].
  intros x Hx ->%list_elem_of_singleton. done.
Qed.

Lemma count_of_count_skill skill counts s :
  count_of (count_skill skill counts) s
  = if decide (s = skill) then Some (S (default 0%nat (count_of counts skill)))
    else count_of counts s.
Proof.
  induction counts as [|[k n] counts IH]; cbn [count_skill count_of].
  - repeat case_decide; simplify_eq/=; done.
  - destruct (decide (k = skill)); cbn [count_of]; [|rewrite IH];
      repeat case_decide; simplify_eq/=; done.
Qed.

Lemma count_of_elem counts s n :
  NoDup counts.*1 → (s, n) ∈ counts ↔ count_of counts s = Some n.
Proof.
  induction counts as [|[k m] counts IH]; intros Hnd; cbn [count_of].
  { split; [by intros ?%elem_of_nil|done]. }
  apply NoDup_cons in Hnd as [Hk Hnd]. rewrite elem_of_cons, (IH Hnd).
  destruct (decide (k = s)) as [->|Hne].
  - split.
    + intros [H|H]; [congruence|]. exfalso. apply Hk. apply list_elem_of_fmap.
      exists (s, n). split; [done|]. by apply IH.
    + intros [= ->]. by left.
  - split.
    + intros [H|H]; [congruence|done].
    + intros H. by right.
Qed.

Lemma occurrences_snoc s l x :
  occurrences s (l ++ [x]) = (occurrences s l + if decide (x = s) then 1 else 0)%nat.
Proof.
  unfold occurrences. rewrite filter_app, length_app. f_equal.
  rewrite filter_cons. destruct (decide (x = s)); done.
Qed.

(** The dictionary of counts holds, for each skill mentioned, the number
    of its mentions, under distinct keys. *)
Lemma occurrences_pos s l : (1 ≤ occurrences s l)%nat ↔ s ∈ l.
Proof.
  unfold occurrences. induction l as [|x l IH]; simpl.
  { split; [lia|by intros ?%elem_of_nil]. }
  rewrite filter_cons, elem_of_cons. destruct (decide (x = s)) as [->|Hne]; simpl.
  - split; [by left|lia].
  - rewrite IH. split; [by right|]. intros [?|?]; [congruence|done].
Qed.

(** The dictionary of counts holds, for each skill mentioned, the number
    of its mentions, under distinct keys. *)
Lemma foldl_count_skill l :
  let counts := foldl (λ counts skill, count_skill skill counts) [] l in
  NoDup counts.*1
  ∧ ∀ s n, (s, n) ∈ counts ↔ (n = occurrences s l ∧ 1 ≤ n)%nat.
Proof.
  cbv zeta.
  assert (NoDup (foldl (λ counts skill, count_skill skill counts) [] l).*1
          ∧ ∀ s, count_of (foldl (λ counts skill, count_skill skill counts) [] l) s
                 = if decide (occurrences s l = 0%nat) then None
                   else Some (occurrences s l)) as [Hnd H].
  { induction l as [|x l [Hnd IH]] using rev_ind.
    { split; [constructor|]. intros s. reflexivity. }
    rewrite foldl_app. cbn [foldl]. split; [by apply count_skill_nodup|].
    intros s. rewrite count_of_count_skill, occurrences_snoc, !IH.
    repeat case_decide; simplify_eq/=; try done; try lia.
    all: f_equal; lia. }
  split; [done|]. intros s n. rewrite (count_of_elem _ _ _ Hnd), H.
  destruct (decide (occurrences s l = 0%nat)); split; try done.
  - lia.
  - intros [= <-]. lia.
  - intros [-> _]. done.
Qed.

Lemma insert_sorted_perm x l : insert_sorted x l ≡ₚ x :: l.
Proof.
  induction l as [|y l IH]; simpl; [done|]. destruct (y.2 <=? x.2)%nat; [done|].
  rewrite IH. apply Permutation_swap.
Qed.

Lemma sorted_by_count_perm l : sorted_by_count l ≡ₚ l.
Proof.
  induction l as [|x l IH]; simpl; [done|]. by rewrite insert_sorted_perm, IH.
Qed.

Lemma insert_sorted_sorted x l :
  StronglySorted (λ a b : pystr * nat, b.2 ≤ a.2)%nat l →
  StronglySorted (λ a b : pystr * nat, b.2 ≤ a.2)%nat (insert_sorted x l).
Proof.
  induction 1 as [|y l Hs IH Hall]; simpl; [repeat constructor|].
  destruct (Nat.leb_spec y.2 x.2).
  - constructor; [by constructor|]. constructor; [done|].
    eapply Forall_impl; [exact Hall|]. simpl. intros; lia.
  - constructor; [done|]. rewrite insert_sorted_perm. constructor; [lia|done].
Qed.

Lemma sorted_by_count_sorted l :
  StronglySorted (λ a b : pystr * nat, b.2 ≤ a.2)%nat (sorted_by_count l).
Proof.
  induction l as [|x l IH]; simpl; [constructor|]. by apply insert_sorted_sorted.
Qed.

Lemma sorted_take_drop (l : list (pystr * nat)) k a b :
  StronglySorted (λ a b : pystr * nat, b.2 ≤ a.2)%nat l →
  a ∈ take k l → b ∈ drop k l → (b.2 ≤ a.2)%nat.
Proof.
  intros Hs. revert k. induction Hs as [|y l Hs IH Hall]; intros [|k]; simpl;
    try (by intros ?%elem_of_nil).
  rewrite elem_of_cons. intros [->|Ha] Hb; [|by eapply IH].
  rewrite Forall_forall in Hall. apply Hall. by eapply subseteq_drop.
Qed.

Lemma sorted_take (l : list (pystr * nat)) k :
  StronglySorted (λ a b : pystr * nat, b.2 ≤ a.2)%nat l →
  StronglySorted (λ a b : pystr * nat, b.2 ≤ a.2)%nat (take k l).
Proof.
  intros Hs. revert k. induction Hs as [|y l Hs IH Hall]; intros [|k]; simpl;
    try constructor; [apply IH|by apply Forall_take].
Qed.

Lemma size_list_to_set_bounds (x : pystr) (l : list pystr) :
  (1 ≤ size (list_to_set (C := gset pystr) (x :: l)) ≤ length (x :: l))%nat.
Proof.
  split.
  - assert (size (list_to_set (C := gset pystr) (x :: l)) ≠ 0%nat); [|lia].
    apply size_non_empty_iff. intros H. apply (not_elem_of_empty (C := gset pystr) x).
    apply H, elem_of_list_to_set. by left.
  - generalize (x :: l). intros k. apply (submseteq_length (elements _) k), NoDup_submseteq.
    + apply NoDup_elements.
    + intros y Hy%elem_of_elements. by apply elem_of_list_to_set in Hy.
Qed.

(** X22. What [get_processed_stats] reports for documents: their number;
    the students without repetition, as many as it counts; at most ten
    skills, each once, with the number of times the documents list it, in
    order of that number, largest first; and a skill it leaves out is
    listed no more often than any of the ten it keeps. For no document it
    reports nothing. *)
Theorem processed_stats_spec (docs : list document) :
  match get_processed_stats docs with
  | None => docs = []
  | Some st =>
      total_documents st = length docs
      ∧ (1 ≤ total_files st ≤ length docs)%nat
      ∧ total_students st = length (students_list st)
      ∧ NoDup (students_list st)
      ∧ (∀ name, name ∈ students_list st
           ↔ ∃ doc, doc ∈ docs ∧ name = default [] (md_student_name (doc_metadata doc)))
      ∧ (length (top_skills st) ≤ 10)%nat
      ∧ NoDup (top_skills st).*1
      ∧ StronglySorted (λ a b : pystr * nat, b.2 ≤ a.2)%nat (top_skills st)
      ∧ (∀ skill n, (skill, n) ∈ top_skills st → n = mentions skill docs ∧ (1 ≤ n)%nat)
      ∧ (∀ skill, skill ∈ all_skills docs → skill ∉ (top_skills st).*1 →
           length (top_skills st) = 10%nat
           ∧ ∀ kept, kept ∈ top_skills st → (mentions skill docs ≤ kept.2)%nat)
  end.
Proof.
  destruct docs as [|d docs]; [done|]. cbn [get_processed_stats].
  set (ds := d :: docs).
  cbn [total_documents total_files total_students students_list top_skills].
  destruct (foldl_count_skill (all_skills ds)) as [Hnd Hcount]. cbv zeta in Hnd, Hcount.
  fold (skill_counts ds) in Hnd, Hcount.
  pose proof (sorted_by_count_perm (skill_counts ds)) as Hperm.
  pose proof (sorted_by_count_sorted (skill_counts ds)) as Hsort.
  set (sorted := sorted_by_count (skill_counts ds)) in *.
  assert (NoDup sorted.*1) as Hnds by (by rewrite Hperm).
  split; [done|]. split.
  { rewrite <-(length_fmap (λ doc, default [] (md_filename (doc_metadata doc))) ds).
    apply size_list_to_set_bounds. }
  split; [done|]. split; [apply NoDup_elements|]. split.
  { intros name. rewrite elem_of_elements, elem_of_list_to_set, list_elem_of_fmap.
    split; intros (doc & ? & ?); by exists doc. }
  split; [rewrite length_take; lia|]. split.
  { rewrite fmap_take. eapply sublist_NoDup; [exact Hnds|apply sublist_take]. }
  split; [by apply sorted_take|]. split.
  { intros skill n Hin%subseteq_take. rewrite Hperm in Hin. by apply Hcount in Hin. }
  intros skill Hin Hout.
  assert ((skill, mentions skill ds) ∈ sorted) as Hs.
  { rewrite Hperm. apply Hcount. split; [done|]. by apply occurrences_pos. }
  rewrite <-(take_drop 10 sorted) in Hs. apply elem_of_app in Hs as [Hs|Hs].
  { exfalso. apply Hout. apply list_elem_of_fmap. by exists (skill, mentions skill ds). }
  split.
  - destruct (decide (length sorted ≤ 10)%nat) as [Hle|Hgt].
    + rewrite drop_ge in Hs by done. by apply elem_of_nil in Hs.
    + rewrite length_take. lia.
  - intros kept Hk. by apply (sorted_take_drop sorted 10 kept _ Hsort Hk Hs).
Qed.

(** ** The suggestions *)

Lemma app_py_inj (p a b : pystr) : p ++ a = p ++ b → a = b.
Proof. apply app_inv_head. Qed.

(** X23. What [suggest_queries] offers and what of it is displayed. The
    five built-in suggestions come first, followed by at most three for
    students and at most two for skills; no suggestion asks for the student
    "Desconocido". The display keeps the first six: of the suggestions made
    from the documents it shows the first one only. *)
Theorem suggestions_spec (documents_stats : option processed_stats) :
  ∃ students skills,
    suggest_queries documents_stats = base_suggestions ++ students ++ skills
    ∧ (length students ≤ 3)%nat ∧ (length skills ≤ 2)%nat
    ∧ Forall (λ q, ∃ name, q = (py "Busca información de " ++ name)
                     ∧ name ≠ py "Desconocido") students
    ∧ (py "Busca información de Desconocido" ∉ suggest_queries documents_stats)
    ∧ show_suggested_queries true documents_stats
      = base_suggestions ++ take 1 (students ++ skills)
    ∧ show_suggested_queries false documents_stats = [].
Proof.
  set (students :=
    match documents_stats with
    | Some st => (λ name, py "Busca información de " ++ name)
                   <$> filter (λ name, name ≠ py "Desconocido") (take 3 (students_list st))
    | None => []
    end).
  set (skills :=
    match documents_stats with
    | Some st => (λ skill : pystr * nat, py "¿Quién tiene experiencia en " ++ skill.1 ++ py "?")
                   <$> take 2 (top_skills st)
    | None => []
    end).
  assert (suggest_queries documents_stats = base_suggestions ++ students ++ skills) as Heq.
  { unfold suggest_queries, students, skills. destruct documents_stats as [st|]; [|done].
    destruct (students_list st), (top_skills st); cbn [take filter list_filter fmap list_fmap];
      rewrite ?app_nil_r, ?(assoc_L app); reflexivity. }
  assert (Forall (λ q, ∃ name, q = (py "Busca información de " ++ name)
                         ∧ name ≠ py "Desconocido") students) as Hst.
  { unfold students. destruct documents_stats as [st|]; [|constructor].
    apply Forall_fmap, Forall_forall. intros name [Hn _]%list_elem_of_filter.
    by exists name. }
  exists students, skills. split; [exact Heq|]. split_and!.
  - unfold students. destruct documents_stats as [st|]; [|simpl; lia].
    rewrite length_fmap. etrans; [apply length_filter|]. rewrite length_take. lia.
  - unfold skills. destruct documents_stats as [st|]; [|simpl; lia].
    rewrite length_fmap, length_take. lia.
  - exact Hst.
  - rewrite Heq, !elem_of_app. intros [H|[H|H]].
    + apply (bool_decide_pack _) in H. vm_compute in H. destruct H.
    + rewrite Forall_forall in Hst. destruct (Hst _ H) as (name & Hq & Hne).
      apply Hne. apply (app_py_inj (py "Busca información de ")). rewrite <-Hq.
      by vm_compute.
    + unfold skills in H. destruct documents_stats as [st|]; [|by apply elem_of_nil in H].
      apply list_elem_of_fmap in H as (sk & Hq & _). revert Hq. by vm_compute.
  - unfold show_suggested_queries. cbn [negb]. rewrite Heq.
    change base_suggestions with (take 5 base_suggestions ++ []) at 1.
    by rewrite app_nil_r, (take_app_add' base_suggestions _ 5 1).
  - reflexivity.
Qed.

(** X24. Where the five built-in suggestions lead, with the character
    tables of Latin-1: all of them use retrieval; the questions about
    which students there are, the first and the last, are taken for
    education queries; the second and the third are skill queries, for
    "python" and for "machine"; the fourth is an experience query. *)
Theorem base_suggestions_classified :
  analyze_query latin1 <$> base_suggestions
  = [ Ret (EDUCATION_QUERY, ∅);
      Ret (SKILL_QUERY, {["skill" := py "python"]});
      Ret (SKILL_QUERY, {["skill" := py "machine"]});
      Ret (EXPERIENCE_QUERY, ∅);
      Ret (EDUCATION_QUERY, ∅) ].
Proof. vm_compute. reflexivity. Qed.
